(** * PUS lab 1: central registry and communicators

    A shallow embedding of the public-key infrastructure of [pus_lab_1]:
    - [communication/com_structs.py]: certificates, messages, file requests;
    - [descriptors.py]: file descriptors, file buffers, service-provider
      descriptors;
    - [central_registry.py]: the registry's request handler, certificate
      registration and file publication;
    - [communication/communicator.py]: the communicator's request handler,
      its construction at the registry, certificate registration and
      exchange, publication, the fetching of the directories and of files;
    - [service_provider.py]: the indexes of a service provider, the listing
      of a user's files and the login at the console.

    Every Python class is a module holding the record of its attributes and
    its methods.  Python integers are [Z], [bytes] are [list byte],
    dictionaries are [gmap]s.  Text is [string]: a character whose code is
    128 or more stands for a character outside ASCII, on which
    [encode("ascii")] raises.  Objects travel over sockets as pickles, so a
    receiver always works on its own copy: a method that mutates its
    argument in place is a function returning the mutated value.  A list of
    file descriptors may hold one object at several positions, and a pickle
    keeps that: its items bear the identity of their object.  Every receive
    is one [recv(BUFFER_SIZE)]: a pickle longer than that is cut and is not
    unpickled, a pickle that fits is taken to arrive whole.  An uncaught
    Python exception is an [Outcome] built with [Raise]. *)

From Stdlib Require Import ZArith List.
From Stdlib.Strings Require Import String Ascii Byte.
From Stdlib Require Import DecimalString.
From stdpp Require Import base option list gmap strings.

Import ListNotations.
#[local] Open Scope Z_scope.
#[local] Open Scope string_scope.

(** ** Python-level conventions *)

Inductive Exception :=
| AttributeError
| IndexError
| KeyError
| TypeError
| ValueError
| EOFError
| UnicodeEncodeError
| UnpicklingError.

Inductive Outcome (A : Type) :=
| Ok (a : A)
| Raise (e : Exception).
Arguments Ok {A} a.
Arguments Raise {A} e.

#[global] Instance Outcome_ret : MRet Outcome := @Ok.
#[global] Instance Outcome_bind : MBind Outcome :=
  fun A B f m =>
    match m with
    | Ok a => f a
    | Raise e => Raise e
    end.

(** The text has ASCII characters only. *)
Definition is_ascii (s : string) : bool :=
  forallb (fun c => Nat.ltb (nat_of_ascii c) 128) (list_ascii_of_string s).

(** [text.encode("ascii")] *)
Definition encode_ascii (s : string) : Outcome (list byte) :=
  if is_ascii s then Ok (list_byte_of_string s) else Raise UnicodeEncodeError.

(** ["%d" % z] for an integer. *)
Definition fmt_d (z : Z) : string := NilZero.string_of_int (Z.to_int z).

(** ["%d %d %d %d" % (a, b, c, d)] *)
Definition fmt_4d (a b c d : Z) : string :=
  fmt_d a ++ " " ++ fmt_d b ++ " " ++ fmt_d c ++ " " ++ fmt_d d.

(** ** The cryptographic library

    [Crypto.PublicKey.RSA] and [Crypto.Hash.SHA256] are not part of the
    repository; the development is parametric in them, and takes their
    operations to return normally on every input of their type.  A hash
    object absorbs bytes with [new] and [update], and [digest] is a function
    of all the bytes absorbed so far.  A signature is the 1-tuple of an
    integer. *)

Definition Signature := Z.

Class Crypto := {
  Key : Type;
  sha256 : list byte -> list byte;
  RSA_sign : Key -> list byte -> Signature;
  RSA_verify : Key -> list byte -> option Signature -> bool;
  RSA_publickey : Key -> Key;
  RSA_exportKey : Key -> list byte;
  RSA_importKey : list byte -> Key
}.

Module SHA256.
Definition new (data : list byte) : list byte := data.
Definition update (sha data : list byte) : list byte := sha ++ data.
Definition digest `{Crypto} (sha : list byte) : list byte := sha256 sha.
End SHA256.

(** [get_rsa_key(pem)] called with a PEM argument. *)
Definition get_rsa_key `{Crypto} (pem : list byte) : Key := RSA_importKey pem.

(** ** descriptors.py *)

Definition Address := (string * Z)%type.

Module FileDescriptor.
Record t := mk {
  name : string;
  author : string;
  description : string;
  file_id : Z;
  com_id : Z
}.

Definition init (name author description : string) : t :=
  mk name author description (-1) (-1).

Definition set_file_id (i : Z) (f : t) : t :=
  mk (name f) (author f) (description f) i (com_id f).

Definition set_com_id (i : Z) (f : t) : t :=
  mk (name f) (author f) (description f) (file_id f) i.
End FileDescriptor.

Module FileBuffer.
Record t := mk {
  buffer_id : Z;
  descriptor : FileDescriptor.t;
  lines : list string
}.
End FileBuffer.

Module SPDescriptor.
Record t := mk {
  com_id : Z;
  name : string;
  address : Address
}.
End SPDescriptor.

(** ** communication/com_structs.py *)

Module Certificate.
Record t := mk {
  name : string;
  address : Address;
  public_key : list byte;
  signature : option Signature;
  com_id : Z
}.

Definition init (name : string) (address : Address) (public_key : list byte) : t :=
  mk name address public_key None 0.

Definition set_com_id (i : Z) (c : t) : t :=
  mk (name c) (address c) (public_key c) (signature c) i.

Definition set_signature (s : option Signature) (c : t) : t :=
  mk (name c) (address c) (public_key c) s (com_id c).

Definition hash `{Crypto} (self : t) : Outcome (list byte) :=
  data ← encode_ascii (name self);
  let sha := SHA256.new data in
  let sha := SHA256.update sha (public_key self) in
  Ok (SHA256.digest sha).

(** The certificate as signed, or the exception of [hash]. *)
Definition sign `{Crypto} (self : t) (key : Key) : Outcome t :=
  digest ← hash self;
  Ok (set_signature (Some (RSA_sign key digest)) self).

Definition verify `{Crypto} (self : t) (key : Key) : Outcome bool :=
  digest ← hash self;
  Ok (RSA_verify key digest (signature self)).
End Certificate.

(** A Python list of file descriptors: at each position, the identity of
    the object that stands there and the descriptor as it reads.  The
    positions of one identity hold one object: an assignment to an
    attribute of the object shows at all of them. *)
Abbreviation Files := (list (nat * FileDescriptor.t)) (only parsing).

(** The objects and the descriptors of a list, position by position. *)
Definition objects (files : Files) : list nat := map fst files.
Definition descriptors (files : Files) : list FileDescriptor.t := map snd files.

(** A list of as many objects as it has positions. *)
Definition distinct (l : list FileDescriptor.t) : Files := zip (seq 0 (length l)) l.

(** [file_descriptor.file_id = i], for the object [o] of the list. *)
Definition assign_file_id (o : nat) (i : Z) (files : Files) : Files :=
  map (fun item =>
         if decide (fst item = o)
         then (fst item, FileDescriptor.set_file_id i (snd item))
         else item)
    files.

(** The descriptor that the object [o] of the list reads as. *)
Definition object_value (files : Files) (o : nat) : option FileDescriptor.t :=
  snd <$> find (fun item => bool_decide (fst item = o)) files.

(** What the [content] attribute of a message holds in the protocol. *)
Inductive Content :=
| CNone
| CCert (certificate : Certificate.t)
| CFiles (files : Files)
| CProviders (service_providers : gmap Z SPDescriptor.t)
| CPublic (public_files : gmap Z FileDescriptor.t)
| CBuffer (buffer : FileBuffer.t).

Module Message.
Definition CERTIFICATE := "CERTIFICATE".
Definition SIGN := "SIGN".
Definition PUBLISH := "PUBLISH".
Definition FETCH_SP := "FETCH_SP".
Definition FETCH_FILE := "FETCH_FILE".
Definition TYPES : list string := [CERTIFICATE; SIGN; PUBLISH; FETCH_SP; FETCH_FILE].

Record t := mk {
  type : string;
  content : Content;
  request : bool
}.

(** [Message(msg_type, content)]: [request] defaults to [True].  The
    constructor refuses a [msg_type] outside [TYPES]; unpickling does not
    run the constructor, so a received message may carry any type. *)
Definition init (msg_type : string) (content : Content) : Outcome t :=
  if decide (msg_type ∈ TYPES) then Ok (mk msg_type content true)
  else Raise ValueError.

Definition set_request (b : bool) (m : t) : t := mk (type m) (content m) b.
Definition set_content (c : Content) (m : t) : t := mk (type m) c (request m).
End Message.

(** [FileRequest] extends [Message]; its content is the file buffer. *)
Module FileRequest.
Record t := mk {
  type : string;
  content : FileBuffer.t;
  request : bool;
  username : string;
  src_com_id : Z;
  signature : option Signature
}.

Definition init (buffer : FileBuffer.t) (src_com_id : Z) (username : string) : t :=
  mk Message.FETCH_FILE buffer true username src_com_id None.

Definition set_request (b : bool) (m : t) : t :=
  mk (type m) (content m) b (username m) (src_com_id m) (signature m).

Definition set_content (buffer : FileBuffer.t) (m : t) : t :=
  mk (type m) buffer (request m) (username m) (src_com_id m) (signature m).

Definition set_signature (s : option Signature) (m : t) : t :=
  mk (type m) (content m) (request m) (username m) (src_com_id m) s.

(** [for line in lines: sha.update(line.encode("ascii"))] *)
Fixpoint update_lines (sha : list byte) (lines : list string) : Outcome (list byte) :=
  match lines with
  | [] => Ok sha
  | line :: lines =>
      data ← encode_ascii line;
      update_lines (SHA256.update sha data) lines
  end.

Definition hash `{Crypto} (self : t) : Outcome (list byte) :=
  data ← encode_ascii (username self);
  let sha := SHA256.new data in
  data ← encode_ascii (type self);
  let sha := SHA256.update sha data in
  sha ← match FileBuffer.lines (content self) with
        | [] => Ok sha
        | _ :: _ => update_lines sha (FileBuffer.lines (content self))
        end;
  let descriptor := FileBuffer.descriptor (content self) in
  let hash_string :=
    fmt_4d (FileDescriptor.com_id descriptor) (src_com_id self)
      (FileDescriptor.com_id descriptor) (FileDescriptor.file_id descriptor) in
  data ← encode_ascii hash_string;
  let sha := SHA256.update sha data in
  Ok (SHA256.digest sha).

(** The request as signed, or the exception of [hash]. *)
Definition sign `{Crypto} (self : t) (key : Key) : Outcome t :=
  digest ← hash self;
  Ok (set_signature (Some (RSA_sign key digest)) self).

Definition verify `{Crypto} (self : t) (key : Key) : Outcome bool :=
  digest ← hash self;
  Ok (RSA_verify key digest (signature self)).
End FileRequest.

(** What [pickle.loads] yields on a communicator's socket: a plain
    [Message] or a [FileRequest]. *)
Inductive Pickled :=
| PMessage (message : Message.t)
| PFileRequest (message : FileRequest.t).

Definition pickled_request (p : Pickled) : bool :=
  match p with
  | PMessage m => Message.request m
  | PFileRequest m => FileRequest.request m
  end.

Definition pickled_content (p : Pickled) : Content :=
  match p with
  | PMessage m => Message.content m
  | PFileRequest m => CBuffer (FileRequest.content m)
  end.

(** The attributes of a received object that the registry's handler reads
    and writes: those of [Message]. *)
Definition as_message (p : Pickled) : Message.t :=
  match p with
  | PMessage m => m
  | PFileRequest m =>
      Message.mk (FileRequest.type m) (CBuffer (FileRequest.content m))
        (FileRequest.request m)
  end.

(** ** Pickles on a socket

    [pickle] is not part of the repository: the development is parametric
    in the length of the pickle of an object.  A message that carries
    nothing or one certificate is taken to be short: types, names and
    addresses are taken to be small enough for its pickle to fit the
    buffer of a receive (the PEM text of an RSA key of [RSA_KEY_BITS] bits
    has 271 bytes, and its signature is one integer of as many bits).  A
    list of descriptors, a directory or a file buffer may make a pickle of
    any length: what is proved of them says when their pickle fits. *)

Definition BUFFER_SIZE : Z := 4096.

Definition carries_at_most_a_certificate (content : Content) : Prop :=
  match content with
  | CNone | CCert _ => True
  | CFiles _ | CProviders _ | CPublic _ | CBuffer _ => False
  end.

Class Pickle := {
  (** [len(pickle.dumps(p))] *)
  pickled_length : Pickled -> Z;
  short_messages : forall (type : string) (content : Content) (request : bool),
    carries_at_most_a_certificate content ->
    pickled_length (PMessage (Message.mk type content request)) <= BUFFER_SIZE
}.

(** The pickle fits the buffer of one receive. *)
Definition fits `{Pickle} (p : Pickled) : bool :=
  bool_decide (pickled_length p <= BUFFER_SIZE).

(** [pickle.loads(recv(BUFFER_SIZE))] on the pickle that the other end
    sent: what is cut is not unpickled. *)
Definition loads_recv `{Pickle} (sent : Pickled) : Outcome Pickled :=
  if fits sent then Ok sent else Raise UnpicklingError.

(** ** central_registry.py *)

Module CentralRegistry.
Record t `{Crypto} := mk {
  name : string;
  address : Address;
  key : Key;
  certificate : Certificate.t;
  com_id_counter : Z;
  service_providers : gmap Z SPDescriptor.t;
  file_id_counter : Z;
  public_files : gmap Z FileDescriptor.t
}.

(** [CentralRegistry(name, address)], given the key that
    [get_rsa_key()] generates. *)
Definition init `{Crypto} (name : string) (address : Address) (key : Key) : t :=
  mk _ name address key
    (Certificate.init name address (RSA_exportKey (RSA_publickey key)))
    1 ∅ 1 ∅.

Definition set_com_id_counter `{Crypto} (n : Z) (self : t) : t :=
  mk _ (name self) (address self) (key self) (certificate self) n
    (service_providers self) (file_id_counter self) (public_files self).

Definition set_service_providers `{Crypto} (d : gmap Z SPDescriptor.t) (self : t) : t :=
  mk _ (name self) (address self) (key self) (certificate self)
    (com_id_counter self) d (file_id_counter self) (public_files self).

Definition set_file_id_counter `{Crypto} (n : Z) (self : t) : t :=
  mk _ (name self) (address self) (key self) (certificate self)
    (com_id_counter self) (service_providers self) n (public_files self).

Definition set_public_files `{Crypto} (d : gmap Z FileDescriptor.t) (self : t) : t :=
  mk _ (name self) (address self) (key self) (certificate self)
    (com_id_counter self) (service_providers self) (file_id_counter self) d.

(** Returns the registry as mutated, and the certificate as mutated or the
    exception of [sign], which is raised when the counter has been
    incremented and nothing has been filed yet. *)
Definition register_certificate `{Crypto} (self : t) (certificate : Certificate.t)
    : t * Outcome Certificate.t :=
  let certificate := Certificate.set_com_id (com_id_counter self) certificate in
  let self := set_com_id_counter (com_id_counter self + 1) self in
  match Certificate.sign certificate (key self) with
  | Raise e => (self, Raise e)
  | Ok certificate =>
      let descriptor :=
        SPDescriptor.mk (Certificate.com_id certificate) (Certificate.name certificate)
          (Certificate.address certificate) in
      (set_service_providers
         (<[SPDescriptor.com_id descriptor := descriptor]> (service_providers self)) self,
       Ok certificate)
  end.

(** The loop of [publish] over the objects at the successive positions of
    the list: the counter, the list, and the entries that the loop has made
    in [public_files], each an identifier and the object filed under it.
    A turn assigns the counter to [file_id] of its object, increments the
    counter and files the object. *)
Fixpoint publish_loop (turns : list nat) (counter : Z) (files : Files)
    (filed : list (Z * nat)) : Z * Files * list (Z * nat) :=
  match turns with
  | [] => (counter, files, filed)
  | o :: turns =>
      publish_loop turns (counter + 1) (assign_file_id o counter files)
        (filed ++ [(counter, o)])%list
  end.

(** An entry of [public_files] is the object itself: it reads as the object
    stands. *)
Definition file_entry (files : Files) (d : gmap Z FileDescriptor.t) (entry : Z * nat)
    : gmap Z FileDescriptor.t :=
  match object_value files (snd entry) with
  | Some file_descriptor => <[fst entry := file_descriptor]> d
  | None => d
  end.

(** Returns the registry and the list, both as mutated. *)
Definition publish `{Crypto} (self : t) (files : Files) : t * Files :=
  let '(counter, files, filed) :=
    publish_loop (objects files) (file_id_counter self) files [] in
  (set_public_files (fold_left (file_entry files) filed (public_files self))
     (set_file_id_counter counter self),
   files).
End CentralRegistry.

Module RequestHandler.
(** [handle] from the unpickled request on: the registry after the request,
    and the reply sent with [sendall], or the exception that ends the
    handler before any reply.  [print_log] only writes to the console; what
    is kept of each call is the evaluation of its arguments, which reads
    attributes of the content. *)
Definition handle `{Crypto} (server : CentralRegistry.t) (message : Message.t)
    : CentralRegistry.t * Outcome Message.t :=
  let message := Message.set_request false message in
  if decide (Message.type message = Message.CERTIFICATE) then
    (server,
     Ok (Message.set_content (CCert (CentralRegistry.certificate server)) message))
  else if decide (Message.type message = Message.SIGN) then
    match Message.content message with
    | CCert certificate =>
        match CentralRegistry.register_certificate server certificate with
        | (server, Ok certificate) =>
            (server, Ok (Message.set_content (CCert certificate) message))
        | (server, Raise e) => (server, Raise e)
        end
    | CNone | CFiles _ | CProviders _ | CPublic _ | CBuffer _ =>
        (* certificate.name *)
        (server, Raise AttributeError)
    end
  else if decide (Message.type message = Message.PUBLISH) then
    match Message.content message with
    | CFiles [] =>
        (* files[0] *)
        (server, Raise IndexError)
    | CFiles (f :: fs) =>
        let '(server, files) := CentralRegistry.publish server (f :: fs) in
        (server, Ok (Message.set_content (CFiles files) message))
    | CNone | CCert _ | CBuffer _ =>
        (* len(files) *)
        (server, Raise TypeError)
    | CProviders d =>
        (* files[0] on a dictionary; then the loop runs over its keys *)
        (server, match d !! 0 with None => Raise KeyError | Some _ => Raise AttributeError end)
    | CPublic d =>
        (server, match d !! 0 with None => Raise KeyError | Some _ => Raise AttributeError end)
    end
  else if decide (Message.type message = Message.FETCH_SP) then
    (server,
     Ok (Message.set_content (CProviders (CentralRegistry.service_providers server)) message))
  else if decide (Message.type message = Message.FETCH_FILE) then
    (server,
     Ok (Message.set_content (CPublic (CentralRegistry.public_files server)) message))
  else
    (server, Ok (Message.set_request true message)).

(** [handle] from the receive on, for the pickle that the other end sent:
    one [recv(BUFFER_SIZE)] and [pickle.loads], which raises and ends the
    handler when the pickle was cut, then the rest of [handle]. *)
Definition receive `{Crypto} `{Pickle} (server : CentralRegistry.t) (sent : Pickled)
    : CentralRegistry.t * Outcome Message.t :=
  match loads_recv sent with
  | Ok message => handle server (as_message message)
  | Raise e => (server, Raise e)
  end.

(** The registry serves one connection at a time ([socketserver.TCPServer]):
    a run is the handling of the pickles sent to it, in order. *)
Fixpoint serve `{Crypto} `{Pickle} (server : CentralRegistry.t) (sent : list Pickled)
    : CentralRegistry.t * list (Outcome Message.t) :=
  match sent with
  | [] => (server, [])
  | message :: rest =>
      let '(server, reply) := receive server message in
      let '(server, replies) := serve server rest in
      (server, reply :: replies)
  end.
End RequestHandler.

(** ** communication/communicator.py *)

(** What a communicator does to the outside world, in order.  Of the
    console output, the lines that [fetch_file] prints are recorded. *)
Inductive Effect :=
| Printed (text : string)
| Sent (address : Address) (message : Pickled)
| Received (reply : Pickled)
| Loaded (buffer : FileBuffer.t).

Module Communicator.
(** [loader] is the callback that fills the lines of a buffer in place; it
    is taken to return normally. *)
Record t `{Crypto} := mk {
  name : string;
  address : Address;
  cr_address : Address;
  loader : FileBuffer.t -> FileBuffer.t;
  key : Key;
  certificate : Certificate.t;
  com_certificates : gmap Z Certificate.t;
  com_keys : gmap Z Key;
  communicators : gmap Z SPDescriptor.t;
  cr_certificate : Certificate.t;
  cr_key : Key
}.

Definition set_com_certificates `{Crypto} (d : gmap Z Certificate.t) (self : t) : t :=
  mk _ (name self) (address self) (cr_address self) (loader self) (key self)
    (certificate self) d (com_keys self) (communicators self)
    (cr_certificate self) (cr_key self).

Definition set_com_keys `{Crypto} (d : gmap Z Key) (self : t) : t :=
  mk _ (name self) (address self) (cr_address self) (loader self) (key self)
    (certificate self) (com_certificates self) d (communicators self)
    (cr_certificate self) (cr_key self).

(** [certificate] is [None] or a certificate: the communicator after the
    call, and what the call returns or the exception of [verify]. *)
Definition register_certificate `{Crypto} (self : t) (certificate : option Certificate.t)
    : t * Outcome bool :=
  match certificate with
  | Some certificate =>
      match Certificate.verify certificate (cr_key self) with
      | Ok true =>
          let self :=
            set_com_certificates
              (<[Certificate.com_id certificate := certificate]> (com_certificates self))
              self in
          let self :=
            set_com_keys
              (<[Certificate.com_id certificate :=
                   get_rsa_key (Certificate.public_key certificate)]> (com_keys self))
              self in
          (self, Ok true)
      | Ok false => (self, Ok false)
      | Raise e => (self, Raise e)
      end
  | None => (self, Ok false)
  end.

(** [register_certificate] applied to the content of a message: a content
    that is neither [None] nor a certificate has no [verify]. *)
Definition register_content `{Crypto} (self : t) (content : Content) : t * Outcome bool :=
  match content with
  | CNone => register_certificate self None
  | CCert certificate => register_certificate self (Some certificate)
  | CFiles _ | CProviders _ | CPublic _ | CBuffer _ => (self, Raise AttributeError)
  end.
End Communicator.

Module CommunicatorHandler.
(** [handle] from the unpickled request on: the effects of the handler,
    the communicator after the request, and the reply sent with [sendall],
    or the exception that ends the handler before any reply. *)
Definition handle `{Crypto} (server : Communicator.t) (message : Pickled)
    : list Effect * Communicator.t * Outcome Pickled :=
  match message with
  | PMessage message =>
      let message := Message.set_request false message in
      if decide (Message.type message = Message.CERTIFICATE) then
        match Communicator.register_content server (Message.content message) with
        | (server, Ok true) =>
            ([], server,
             Ok (PMessage
                   (Message.set_content (CCert (Communicator.certificate server)) message)))
        | (server, Ok false) =>
            ([], server, Ok (PMessage (Message.set_content CNone message)))
        | (server, Raise e) => ([], server, Raise e)
        end
      else if decide (Message.type message = Message.FETCH_FILE) then
        (* message.src_com_id *)
        ([], server, Raise AttributeError)
      else ([], server, Ok (PMessage message))
  | PFileRequest message =>
      let message := FileRequest.set_request false message in
      if decide (FileRequest.type message = Message.CERTIFICATE) then
        (* a buffer has no verify *)
        ([], server, Raise AttributeError)
      else if decide (FileRequest.type message = Message.FETCH_FILE) then
        match Communicator.com_keys server !! FileRequest.src_com_id message with
        | None => ([], server, Raise KeyError)
        | Some key =>
            match FileRequest.verify message key with
            | Ok true =>
                let buffer := FileRequest.content message in
                let message :=
                  FileRequest.set_content (Communicator.loader server buffer) message in
                match FileRequest.sign message (Communicator.key server) with
                | Ok message => ([Loaded buffer], server, Ok (PFileRequest message))
                | Raise e => ([Loaded buffer], server, Raise e)
                end
            | Ok false =>
                ([], server, Ok (PFileRequest (FileRequest.set_request true message)))
            | Raise e => ([], server, Raise e)
            end
        end
      else ([], server, Ok (PFileRequest message))
  end.

(** [handle] from the receive on, for the pickle that the other end sent. *)
Definition receive `{Crypto} `{Pickle} (server : Communicator.t) (sent : Pickled)
    : list Effect * Communicator.t * Outcome Pickled :=
  match loads_recv sent with
  | Ok message => handle server message
  | Raise e => ([], server, Raise e)
  end.
End CommunicatorHandler.

(** *** The client role

    A call opens a connection, sends one pickle and waits for one reply.  The
    network and the peers behind it are a state [Net] with a transition
    [transmit]: the object that the other end of a connection to an address
    pickles and sends in answer to what was sent, if it sends any.  Client
    code runs on the communicator and the network, and yields its effects
    in order. *)

Module Client.
Section Client.
Context `{Crypto} `{Pickle} {Net : Type}.
Variable transmit : Net -> Address -> Pickled -> Net * option Pickled.

Definition M (A : Type) : Type :=
  Communicator.t * Net -> list Effect * (Communicator.t * Net) * Outcome A.

Definition ret {A} (a : A) : M A := fun s => ([], s, Ok a).
Definition raise {A} (e : Exception) : M A := fun s => ([], s, Raise e).
Definition bind {A B} (m : M A) (f : A -> M B) : M B :=
  fun s =>
    match m s with
    | (t1, s1, Ok a) => let '(t2, s2, o) := f a s1 in ((t1 ++ t2)%list, s2, o)
    | (t1, s1, Raise e) => (t1, s1, Raise e)
    end.

#[local] Instance M_ret : MRet M := @ret.
#[local] Instance M_bind : MBind M := fun A B f m => bind m f.

Definition self : M Communicator.t := fun s => ([], s, Ok (fst s)).
Definition print (text : string) : M unit := fun s => ([Printed text], s, Ok tt).

(** A call that neither prints nor touches the communicator or the network. *)
Definition lift {A} (o : Outcome A) : M A := fun s => ([], s, o).

(** [d[k]] *)
Definition getitem {V} (d : gmap Z V) (k : Z) : M V :=
  match d !! k with
  | Some v => ret v
  | None => raise KeyError
  end.

(** connect, [sendall(pickle.dumps(message))],
    [pickle.loads(recv(BUFFER_SIZE))]: unpickling fails when the reply was
    cut, and when nothing was received.  The other end sends nothing when
    its handler raises: it then closes the connection, [recv] returns no
    bytes and [pickle.loads] raises [EOFError].  (When the handler had not
    read all that was sent to it, the close may reset the connection, and
    [recv] itself then raises: the call ends with an exception either
    way.) *)
Definition exchange (message : Pickled) (address : Address) : M Pickled :=
  fun s =>
    match transmit (snd s) address message with
    | (net, Some sent) =>
        match loads_recv sent with
        | Ok reply => ([Sent address message; Received reply], (fst s, net), Ok reply)
        | Raise e => ([Sent address message], (fst s, net), Raise e)
        end
    | (net, None) => ([Sent address message], (fst s, net), Raise EOFError)
    end.

Definition send_and_get_reply (message : Message.t) (address : Address) : M Content :=
  reply ← exchange (PMessage message) address;
  ret (pickled_content reply).

Definition get_certificate (address : Address) (content : Content) : M Content :=
  send_and_get_reply (Message.mk Message.CERTIFICATE content true) address.

Definition sign_certificate : M Content :=
  server ← self;
  send_and_get_reply
    (Message.mk Message.SIGN (CCert (Communicator.certificate server)) true)
    (Communicator.cr_address server).

Definition register_certificate (content : Content) : M bool :=
  fun s =>
    match Communicator.register_content (fst s) content with
    | (server, o) => ([], (server, snd s), o)
    end.

Definition exchange_certificate (com_address : Address) : M bool :=
  server ← self;
  com_certificate ← get_certificate com_address (CCert (Communicator.certificate server));
  register_certificate com_certificate.

(** The caller's descriptors are stamped in place; the reply holds the
    registry's copy of the list. *)
Definition stamp (server : Communicator.t) (files : Files) : Files :=
  map (fun item =>
         (fst item,
          FileDescriptor.set_com_id
            (Certificate.com_id (Communicator.certificate server)) (snd item)))
    files.

Definition publish (files : Files) : M Content :=
  server ← self;
  let files := stamp server files in
  send_and_get_reply (Message.mk Message.PUBLISH (CFiles files) true)
    (Communicator.cr_address server).

(** [fetch_file] from the construction of the file request on: the code
    that follows the test of the certificate cache. *)
Definition fetch_file_request (buffer : FileBuffer.t) (username : string)
    (com_id : Z) (address : Address) : M Content :=
  server ← self;
  let message :=
    FileRequest.init buffer (Certificate.com_id (Communicator.certificate server))
      username in
  message ← lift (FileRequest.sign message (Communicator.key server));
  message ← exchange (PFileRequest message) address;
  (if pickled_request message then
     print ("Service provider " ++ fmt_d com_id ++ " refused request")
   else
     print "Verifying received message..." ;;
     match message with
     | PMessage _ => raise AttributeError
     | PFileRequest reply =>
         server ← self;
         key ← getitem (Communicator.com_keys server) com_id;
         verified ← lift (FileRequest.verify reply key);
         if (verified : bool) then print "Message verified successfully"
         else print "Message verification failed"
     end) ;;
  ret (pickled_content message).

Definition fetch_file (buffer : FileBuffer.t) (username : string) : M Content :=
  print ("Fetching remote file "
         ++ FileDescriptor.name (FileBuffer.descriptor buffer) ++ "...") ;;
  let com_id := FileDescriptor.com_id (FileBuffer.descriptor buffer) in
  server ← self;
  descriptor ← getitem (Communicator.communicators server) com_id;
  let address := SPDescriptor.address descriptor in
  if decide (is_Some (Communicator.com_certificates server !! com_id)) then
    print ("File is on trusted service provider " ++ fmt_d com_id) ;;
    fetch_file_request buffer username com_id address
  else
    print ("File is on unknown service provider " ++ fmt_d com_id) ;;
    print "Attempting certificate exchange..." ;;
    exchanged ← exchange_certificate address;
    if negb exchanged then ret CNone
    else
      print "Certificate exchange completed successfully" ;;
      fetch_file_request buffer username com_id address.
End Client.
End Client.

(** A network that is one peer communicator: every connection reaches its
    handler, which unpickles what it receives; a handler that raises sends
    nothing. *)
Definition peer `{Crypto} `{Pickle} (server : Communicator.t) (address : Address)
    (message : Pickled) : Communicator.t * option Pickled :=
  match CommunicatorHandler.receive server message with
  | (_, server, Ok reply) => (server, Some reply)
  | (_, server, Raise _) => (server, None)
  end.

(** ** Vocabulary of the properties *)

(** The requests a communicator builds in [__sign_certificate] and [publish]. *)
Definition sign_request (certificate : Certificate.t) : Message.t :=
  Message.mk Message.SIGN (CCert certificate) true.

Definition publish_request (files : Files) : Message.t :=
  Message.mk Message.PUBLISH (CFiles files) true.

(** The pickles of a sequence of [SIGN] requests. *)
Definition sign_requests (certificates : list Certificate.t) : list Pickled :=
  map (fun certificate => PMessage (sign_request certificate)) certificates.

(** The certificate as the registry returns it: identifier [n], signature of
    the registry's key over the digest of the bytes of the name and the
    public key. *)
Definition signed_as `{Crypto} (key : Key) (n : Z) (c : Certificate.t) : Certificate.t :=
  Certificate.mk (Certificate.name c) (Certificate.address c) (Certificate.public_key c)
    (Some (RSA_sign key
             (sha256 (list_byte_of_string (Certificate.name c)
                      ++ Certificate.public_key c))))
    n.


(** The file identifiers carried by the replies to the [PUBLISH] requests of
    a run, in order. *)
Fixpoint issued_file_ids (messages : list Pickled) (replies : list (Outcome Message.t))
    : list Z :=
  match messages, replies with
  | message :: messages, Ok reply :: replies =>
      match Message.content reply with
      | CFiles files =>
          if decide (Message.type (as_message message) = Message.PUBLISH)
          then (map FileDescriptor.file_id (descriptors files)
                ++ issued_file_ids messages replies)%list
          else issued_file_ids messages replies
      | _ => issued_file_ids messages replies
      end
  | _ :: messages, Raise _ :: replies => issued_file_ids messages replies
  | _, _ => []
  end.

(** The identifier that the loop of [publish] leaves in the object [o]: the
    value that the counter had at the last turn made on [o]. *)
Fixpoint assigned (turns : list nat) (counter : Z) (o : nat) : option Z :=
  match turns with
  | [] => None
  | turn :: turns =>
      match assigned turns (counter + 1) o with
      | Some i => Some i
      | None => if decide (o = turn) then Some counter else None
      end
  end.

(** The list as the loop of [publish] leaves it when the counter starts at
    [k]. *)
Definition relabelled (k : Z) (files : Files) : Files :=
  map (fun item =>
         (fst item,
          match assigned (objects files) k (fst item) with
          | Some i => FileDescriptor.set_file_id i (snd item)
          | None => snd item
          end))
    files.



(** Effects of the client role. *)
Definition is_sent (e : Effect) : bool :=
  match e with Sent _ _ => true | _ => false end.

Definition is_certificate_request (e : Effect) : bool :=
  match e with
  | Sent _ (PMessage m) => bool_decide (Message.type m = Message.CERTIFICATE)
  | _ => false
  end.

Definition is_file_request (e : Effect) : bool :=
  match e with Sent _ (PFileRequest _) => true | _ => false end.

(** The reply received to the file request, if one was sent and answered. *)
Fixpoint file_reply (effects : list Effect) : option Pickled :=
  match effects with
  | [] => None
  | Sent _ (PFileRequest _) :: Received reply :: _ => Some reply
  | _ :: effects => file_reply effects
  end.

(** The lines a call hands to its caller. *)
Definition delivered_lines (result : Outcome Content) : list string :=
  match result with
  | Ok (CBuffer buffer) => FileBuffer.lines buffer
  | _ => []
  end.

(** The request that [fetch_file] builds and signs. *)
Definition file_request_of `{Crypto} (self : Communicator.t) (buffer : FileBuffer.t)
    (username : string) : Outcome FileRequest.t :=
  FileRequest.sign
    (FileRequest.init buffer (Certificate.com_id (Communicator.certificate self))
       username)
    (Communicator.key self).

(** The request that opens a certificate exchange. *)
Definition exchange_request_of `{Crypto} (self : Communicator.t) : Pickled :=
  PMessage (Message.mk Message.CERTIFICATE (CCert (Communicator.certificate self)) true).


(** The caches of a communicator. *)
Definition caches `{Crypto} (self : Communicator.t) : gmap Z Certificate.t * gmap Z Key :=
  (Communicator.com_certificates self, Communicator.com_keys self).

(** Every cached key is the imported public key of a cached certificate
    that bears the key's identifier and verifies against the registry's key. *)
Definition certified `{Crypto} (self : Communicator.t) : Prop :=
  ∀ k key, Communicator.com_keys self !! k = Some key →
    ∃ c, Communicator.com_certificates self !! k = Some c
         ∧ Certificate.com_id c = k
         ∧ Certificate.verify c (Communicator.cr_key self) = Ok true
         ∧ key = get_rsa_key (Certificate.public_key c).

(** The properties that do not hold as the specification words them. *)


(** "A file owned by a peer that is not in the certificate cache triggers
    exactly one certificate-exchange attempt." *)
Definition untrusted_owner_one_exchange `{Crypto} `{Pickle} {Net : Type}
    (transmit : Net → Address → Pickled → Net * option Pickled)
    (s : Communicator.t * Net) (buffer : FileBuffer.t) (username : string) : Prop :=
  let '(effects, _, _) := Client.fetch_file transmit buffer username s in
  Communicator.com_certificates (fst s)
    !! FileDescriptor.com_id (FileBuffer.descriptor buffer) = None →
  length (filter is_certificate_request effects) = 1%nat.

(** "If the reply has is_request=true, no content is delivered." *)
Definition refusal_delivers_nothing `{Crypto} `{Pickle} {Net : Type}
    (transmit : Net → Address → Pickled → Net * option Pickled)
    (s : Communicator.t * Net) (buffer : FileBuffer.t) (username : string) : Prop :=
  let '(effects, _, result) := Client.fetch_file transmit buffer username s in
  ∀ reply, file_reply effects = Some reply → pickled_request reply = true →
    delivered_lines result = [].



(** "In every other case it returns false and both caches are exactly as
    before the call." *)
Definition register_certificate_decides `{Crypto} (self : Communicator.t)
    (certificate : option Certificate.t) : Prop :=
  let '(self', result) := Communicator.register_certificate self certificate in
  result = Ok true ∨ (result = Ok false ∧ caches self' = caches self).

(** "If the recomputed request hash verifies, the responder invokes the
    loader, signs the populated result and replies with is_request=false." *)
Definition verified_request_answered `{Crypto} (server : Communicator.t)
    (m : FileRequest.t) (key : Key) : Prop :=
  Communicator.com_keys server !! FileRequest.src_com_id m = Some key →
  FileRequest.verify m key = Ok true →
  ∃ reply, snd (CommunicatorHandler.handle server (PFileRequest m))
           = Ok (PFileRequest reply)
           ∧ FileRequest.request reply = false
           ∧ is_Some (FileRequest.signature reply).

(** "A PUBLISH request is answered with the list it carried, mutated." *)
Definition publish_answered `{Crypto} (server : CentralRegistry.t)
    (files : Files) : Prop :=
  snd (RequestHandler.handle server (publish_request files))
  = Ok (Message.mk Message.PUBLISH
          (CFiles (snd (CentralRegistry.publish server files))) false).

(** ** A small instance

    A toy key is a number, a digest is the data itself, and a signature
    records the signing key and the length of the digest.  A toy pickle
    takes 128 bytes for each descriptor, directory entry or line that it
    carries. *)

Module Example.
#[export] Instance toy : Crypto := {|
  Key := Z;
  sha256 := fun data => data;
  RSA_sign := fun key digest => key * 1000 + Z.of_nat (length digest);
  RSA_verify := fun key digest signature =>
    bool_decide (signature = Some (key * 1000 + Z.of_nat (length digest)));
  RSA_publickey := fun key => key;
  RSA_exportKey := fun key => repeat "001"%byte (Z.to_nat key);
  RSA_importKey := fun pem => Z.of_nat (length pem)
|}.

Definition toy_length (p : Pickled) : Z :=
  match p with
  | PMessage m =>
      match Message.content m with
      | CNone => 64
      | CCert _ => 576
      | CFiles files => 64 + 128 * Z.of_nat (length files)
      | CProviders d => 64 + 128 * Z.of_nat (size d)
      | CPublic d => 64 + 128 * Z.of_nat (size d)
      | CBuffer buffer => 192 + 128 * Z.of_nat (length (FileBuffer.lines buffer))
      end
  | PFileRequest m =>
      192 + 128 * Z.of_nat (length (FileBuffer.lines (FileRequest.content m)))
  end.

#[export] Instance toy_pickle : Pickle := {|
  pickled_length := toy_length;
  short_messages := ltac:(by intros type [] request Hshort; vm_compute)
|}.

Definition cr_address : Address := ("10.0.0.1", 5000).
Definition alice_address : Address := ("10.0.0.2", 6000).
Definition bob_address : Address := ("10.0.0.3", 6001).

Definition registry : CentralRegistry.t := CentralRegistry.init "cr" cr_address 7.

Definition alice_certificate : Certificate.t :=
  Certificate.init "alice" alice_address (RSA_exportKey 3).
Definition bob_certificate : Certificate.t :=
  Certificate.init "bob" bob_address (RSA_exportKey 4).

Definition load (buffer : FileBuffer.t) : FileBuffer.t :=
  FileBuffer.mk (FileBuffer.buffer_id buffer) (FileBuffer.descriptor buffer)
    ["first line"; "second line"].

Definition directory : gmap Z SPDescriptor.t :=
  <[1 := SPDescriptor.mk 1 "alice" alice_address]>
    (<[2 := SPDescriptor.mk 2 "bob" bob_address]> ∅).

(** Two communicators after their bootstrap with [registry]. *)
Definition alice : Communicator.t :=
  Communicator.mk _ "alice" alice_address cr_address load 3
    (signed_as 7 1 alice_certificate) ∅ ∅ directory
    (CentralRegistry.certificate registry) 7.

Definition bob : Communicator.t :=
  Communicator.mk _ "bob" bob_address cr_address load 4
    (signed_as 7 2 bob_certificate) ∅ ∅ directory
    (CentralRegistry.certificate registry) 7.

(** A node at bob's address whose certificate it signed itself. *)
Definition mallory : Communicator.t :=
  Communicator.mk _ "bob" bob_address cr_address load 4
    (signed_as 4 2 bob_certificate) ∅ ∅ directory
    (CentralRegistry.certificate registry) 7.

(** alice before she fetched the directory. *)
Definition alice_fresh : Communicator.t :=
  Communicator.mk _ "alice" alice_address cr_address load 3
    (signed_as 7 1 alice_certificate) ∅ ∅ ∅
    (CentralRegistry.certificate registry) 7.

(** alice with bob's certificate in her caches. *)
Definition alice_trusting : Communicator.t :=
  fst (Communicator.register_certificate alice (Some (Communicator.certificate bob))).

Definition bob_trusting : Communicator.t :=
  fst (Communicator.register_certificate bob (Some (Communicator.certificate alice))).

Definition notes : FileDescriptor.t := FileDescriptor.mk "notes.txt" "bob" "notes" 5 2.
Definition notes_buffer : FileBuffer.t := FileBuffer.mk 1 notes [].

(** A name with a letter that is not ASCII, and the certificate of a
    communicator that bears it. *)
Definition jose : string := "Jos" ++ String (ascii_of_nat 233) EmptyString.

Definition jose_certificate : Certificate.t :=
  Certificate.init jose alice_address (RSA_exportKey 5).

(** A loader that reads a line with such a letter, and bob with that
    loader and the certificate of alice in his caches. *)
Definition load_accents (buffer : FileBuffer.t) : FileBuffer.t :=
  FileBuffer.mk (FileBuffer.buffer_id buffer) (FileBuffer.descriptor buffer)
    ["first line"; jose].

Definition bob_accents : Communicator.t :=
  Communicator.mk _ "bob" bob_address cr_address load_accents 4
    (signed_as 7 2 bob_certificate) (Communicator.com_certificates bob_trusting)
    (Communicator.com_keys bob_trusting) directory
    (CentralRegistry.certificate registry) 7.

(** A peer that refuses every file request, yet fills the buffer. *)
Definition refusing (net : unit) (address : Address) (message : Pickled)
    : unit * option Pickled :=
  match message with
  | PFileRequest m =>
      (net, Some (PFileRequest
                    (FileRequest.set_content (load (FileRequest.content m)) m)))
  | PMessage m => (net, None)
  end.
End Example.

(** ** Further code: the communicator and the registry together *)

(** A network that is the registry: every connection reaches its handler,
    which unpickles what it receives; a handler that raises sends
    nothing. *)
Definition registry_link `{Crypto} `{Pickle} (server : CentralRegistry.t)
    (address : Address) (message : Pickled) : CentralRegistry.t * option Pickled :=
  match RequestHandler.receive server message with
  | (server, Ok reply) => (server, Some (PMessage reply))
  | (server, Raise _) => (server, None)
  end.

Module RegistryClient.
Section RegistryClient.
Context `{Crypto} `{Pickle} {Net : Type}.
Variable transmit : Net -> Address -> Pickled -> Net * option Pickled.

#[local] Instance M_ret : MRet (@Client.M _ Net) := @Client.ret _ Net.
#[local] Instance M_bind : MBind (@Client.M _ Net) :=
  fun A B f m => @Client.bind _ Net A B m f.

(** [Communicator(name, address, cr_address, loader)], given the key that
    [get_rsa_key()] generates: the effects, the network after the two
    calls, and the communicator or the exception that ends the constructor.
    The two log lines that follow each reply read [name] of the first
    content and [com_id] of the second, which only a certificate has.  The
    socket of the server role is taken to bind. *)
Definition init (name : string) (address cr_address : Address)
    (loader : FileBuffer.t -> FileBuffer.t) (key : Key) (net : Net)
    : list Effect * Net * Outcome Communicator.t :=
  let certificate := Certificate.init name address (RSA_exportKey (RSA_publickey key)) in
  let query := PMessage (Message.mk Message.CERTIFICATE CNone true) in
  match transmit net cr_address query with
  | (net, None) => ([Sent cr_address query], net, Raise EOFError)
  | (net, Some sent) =>
      match loads_recv sent with
      | Raise e => ([Sent cr_address query], net, Raise e)
      | Ok reply =>
          match pickled_content reply with
          | CCert cr_certificate =>
              let cr_key := get_rsa_key (Certificate.public_key cr_certificate) in
              let request :=
                PMessage (Message.mk Message.SIGN (CCert certificate) true) in
              match transmit net cr_address request with
              | (net, None) =>
                  ([Sent cr_address query; Received reply; Sent cr_address request],
                   net, Raise EOFError)
              | (net, Some sent) =>
                  match loads_recv sent with
                  | Raise e =>
                      ([Sent cr_address query; Received reply;
                        Sent cr_address request], net, Raise e)
                  | Ok signed =>
                      let effects :=
                        [Sent cr_address query; Received reply;
                         Sent cr_address request; Received signed] in
                      match pickled_content signed with
                      | CCert certificate =>
                          (effects, net,
                           Ok (Communicator.mk _ name address cr_address loader key
                                 certificate ∅ ∅ ∅ cr_certificate cr_key))
                      | CNone | CFiles _ | CProviders _ | CPublic _ | CBuffer _ =>
                          (effects, net, Raise AttributeError)
                      end
                  end
              end
          | CNone | CFiles _ | CProviders _ | CPublic _ | CBuffer _ =>
              ([Sent cr_address query; Received reply], net, Raise AttributeError)
          end
      end
  end.

Definition set_communicators (d : gmap Z SPDescriptor.t) (self : Communicator.t)
    : Communicator.t :=
  Communicator.mk _ (Communicator.name self) (Communicator.address self)
    (Communicator.cr_address self) (Communicator.loader self) (Communicator.key self)
    (Communicator.certificate self) (Communicator.com_certificates self)
    (Communicator.com_keys self) d (Communicator.cr_certificate self)
    (Communicator.cr_key self).

(** [self.communicators = content]: the communicator of the model takes the
    content when it is a directory of service providers. *)
Definition assign_communicators (content : Content) : @Client.M _ Net unit :=
  fun s =>
    match content with
    | CProviders d => ([], (set_communicators d (fst s), snd s), Ok tt)
    | CNone | CCert _ | CFiles _ | CPublic _ | CBuffer _ => ([], s, Ok tt)
    end.

(** The dictionary comprehension that ends [fetch_remote]: [items()] exists
    on a dictionary only, and the values of both directories have a
    [com_id]. *)
Definition others_files (own : Z) (files : Content) : @Client.M _ Net Content :=
  match files with
  | CPublic d =>
      Client.ret (CPublic (filter (fun kv => FileDescriptor.com_id (snd kv) ≠ own) d))
  | CProviders d =>
      Client.ret (CProviders (filter (fun kv => SPDescriptor.com_id (snd kv) ≠ own) d))
  | CNone | CCert _ | CFiles _ | CBuffer _ => Client.raise AttributeError
  end.

(** [fetch_remote]: beside what the call returns, the content that it left
    in [self.communicators]. *)
Definition fetch_remote : @Client.M _ Net (Content * Content) :=
  server ← Client.self;
  stored ← Client.send_and_get_reply transmit (Message.mk Message.FETCH_SP CNone true)
             (Communicator.cr_address server);
  assign_communicators stored;;
  server ← Client.self;
  files ← Client.send_and_get_reply transmit (Message.mk Message.FETCH_FILE CNone true)
            (Communicator.cr_address server);
  server ← Client.self;
  remote ← others_files (Certificate.com_id (Communicator.certificate server)) files;
  mret (stored, remote).
End RegistryClient.
End RegistryClient.

Module CommunicatorServer.
(** The communicator serves one connection at a time
    ([socketserver.TCPServer]): a run is the handling of the pickles sent
    to it, in order. *)
Fixpoint serve `{Crypto} `{Pickle} (server : Communicator.t) (messages : list Pickled)
    : Communicator.t * list (Outcome Pickled) :=
  match messages with
  | [] => (server, [])
  | message :: rest =>
      let '(_, server, reply) := CommunicatorHandler.receive server message in
      let '(server, replies) := serve server rest in
      (server, reply :: replies)
  end.
End CommunicatorServer.

(** ** Further code: the listing of descriptors and the indexes *)

Module FileDescriptorFormat.
Fixpoint spaces (n : nat) : string :=
  match n with
  | O => ""
  | S n => String " " (spaces n)
  end.

(** ["%5d"], ["%3d"] and ["%5s"]: the text to the right of a field of the
    given width, filled with spaces on its left; a longer text is kept
    whole. *)
Definition rjust (width : nat) (s : string) : string :=
  spaces (width - String.length s) ++ s.

(** ["%-15s"]: the text to the left of the field. *)
Definition ljust (width : nat) (s : string) : string :=
  s ++ spaces (width - String.length s).

(** [FileDescriptor.HEADER] *)
Definition HEADER : string :=
  rjust 5 "F_ID" ++ " " ++ rjust 3 "SP" ++ " " ++ ljust 15 "File" ++ " "
  ++ ljust 10 "Author" ++ " " ++ ljust 43 "Description".

(** [FileDescriptor.__str__] *)
Definition str (self : FileDescriptor.t) : string :=
  let description := FileDescriptor.description self in
  let description :=
    if decide (43 < String.length description)%nat
    then substring 0 40 description ++ "..."
    else description in
  rjust 5 (fmt_d (FileDescriptor.file_id self)) ++ " "
  ++ rjust 3 (fmt_d (FileDescriptor.com_id self)) ++ " "
  ++ ljust 15 (FileDescriptor.name self) ++ " "
  ++ ljust 10 (FileDescriptor.author self) ++ " "
  ++ ljust 43 description.
End FileDescriptorFormat.

(** ** service_provider.py *)

Module User.
Record t := mk {
  name : string;
  password : string;
  home_dir : string;
  buffers : gmap Z FileBuffer.t
}.

Definition init (name password home_dir : string) : t := mk name password home_dir ∅.
End User.

(** What passes between [do_login] and the person at the console: the
    lines that [print] writes, the user names that [input] reads and the
    passwords that [getpass.getpass] reads. *)
Inductive Dialogue :=
| Said (text : string)
| Asked (username : string)
| Secret (password : string).

Module ServiceProvider.
(** The attributes of a service provider that [build_indexes] reads and
    writes. *)
Record t := mk {
  files : list FileDescriptor.t;
  files_by_id : gmap Z FileDescriptor.t;
  files_by_user : gmap string (list FileDescriptor.t)
}.

(** The body of the loop of [build_indexes].  The list that [get] returns is
    the one held by the dictionary, or a new one: appending to it and
    storing it back leaves the other entries as they were. *)
Definition index (self : t) (file_descriptor : FileDescriptor.t) : t :=
  let file_list :=
    default [] (files_by_user self !! FileDescriptor.author file_descriptor) in
  let file_list := (file_list ++ [file_descriptor])%list in
  mk (files self)
    (<[FileDescriptor.file_id file_descriptor := file_descriptor]> (files_by_id self))
    (<[FileDescriptor.author file_descriptor := file_list]> (files_by_user self)).

Definition build_indexes (self : t) : t := fold_left index (files self) self.

(** The service provider when [run] calls [build_indexes]: [__init__] made
    both indexes empty and nothing else writes them. *)
Definition unindexed (files : list FileDescriptor.t) : t := mk files ∅ ∅.

(** The branch of [do_ls] that serves [ls my], given the name of the active
    user: the lines that it prints, and how it ends. *)
Definition do_ls_my (self : t) (active_user : string) : list Effect * Outcome unit :=
  match files_by_user self !! active_user with
  | None => ([], Raise KeyError)
  | Some [] => ([Printed "No files"], Ok tt)
  | Some (file :: rest) =>
      (Printed FileDescriptorFormat.HEADER
         :: map (fun file => Printed (FileDescriptorFormat.str file)) (file :: rest),
       Ok tt)
  end.

Section Console.
(** The console: [input] and [getpass.getpass] return the next line, or
    raise [EOFError] when there is none. *)
Context {Console : Type}.
Variable input : Console -> Console * option string.
Variable getpass : Console -> Console * option string.

(** The loop of [do_login] with [attempts] attempts left.  The result is
    the user that the call made the active user when it returns [True], and
    [None] when it returns [False], having left the active user as it
    was. *)
Fixpoint login (users : gmap string User.t) (attempts : nat) (console : Console)
    : list Dialogue * Console * Outcome (option User.t) :=
  match attempts with
  | O => ([], console, Ok None)
  | S attempts =>
      match input console with
      | (console, None) => ([], console, Raise EOFError)
      | (console, Some username) =>
          match users !! username with
          | None =>
              let '(dialogue, console, result) := login users attempts console in
              (Asked username :: Said "The entered username does not exist" :: dialogue,
               console, result)
          | Some user =>
              match getpass console with
              | (console, None) => ([Asked username], console, Raise EOFError)
              | (console, Some password) =>
                  if decide (password = User.password user)
                  then ([Asked username; Secret password; Said "Login successful"],
                        console, Ok (Some user))
                  else
                    let '(dialogue, console, result) := login users attempts console in
                    (Asked username :: Secret password :: Said "Wrong password" :: dialogue,
                     console, result)
              end
          end
      end
  end.

Definition do_login (users : gmap string User.t) (console : Console)
    : list Dialogue * Console * Outcome (option User.t) :=
  login users 3 console.
End Console.
End ServiceProvider.

(** ** Vocabulary of the further properties *)




(** The bytes that the hash of a file request absorbs. *)
Definition file_request_bytes (m : FileRequest.t) : list byte :=
  let d := FileBuffer.descriptor (FileRequest.content m) in
  (list_byte_of_string (FileRequest.username m)
   ++ list_byte_of_string (FileRequest.type m)
   ++ concat (map list_byte_of_string (FileBuffer.lines (FileRequest.content m)))
   ++ list_byte_of_string
        (fmt_4d (FileDescriptor.com_id d) (FileRequest.src_com_id m)
           (FileDescriptor.com_id d) (FileDescriptor.file_id d)))%list.

(** The texts of a file request that [hash] encodes, but for the text of
    the four integers. *)
Definition file_request_ascii (m : FileRequest.t) : bool :=
  is_ascii (FileRequest.username m) && is_ascii (FileRequest.type m)
  && forallb is_ascii (FileBuffer.lines (FileRequest.content m)).


(** The request that [fetch_file] sends when the username and the lines of
    the buffer are ASCII text. *)
Definition signed_request `{Crypto} (self : Communicator.t) (buffer : FileBuffer.t)
    (username : string) : FileRequest.t :=
  let message :=
    FileRequest.init buffer (Certificate.com_id (Communicator.certificate self))
      username in
  FileRequest.set_signature
    (Some (RSA_sign (Communicator.key self) (sha256 (file_request_bytes message))))
    message.

(** The reply of a communicator that serves a file request and loads ASCII
    text. *)
Definition served_reply `{Crypto} (server : Communicator.t) (m : FileRequest.t)
    : FileRequest.t :=
  let loaded := Communicator.loader server (FileRequest.content m) in
  FileRequest.mk Message.FETCH_FILE loaded false (FileRequest.username m)
    (FileRequest.src_com_id m)
    (Some (RSA_sign (Communicator.key server)
             (sha256 (file_request_bytes (FileRequest.set_content loaded m))))).

(** What no request changes in a communicator: all but its two caches. *)
Definition same_identity `{Crypto} (a b : Communicator.t) : Prop :=
  Communicator.name a = Communicator.name b
  ∧ Communicator.address a = Communicator.address b
  ∧ Communicator.cr_address a = Communicator.cr_address b
  ∧ Communicator.key a = Communicator.key b
  ∧ Communicator.certificate a = Communicator.certificate b
  ∧ Communicator.communicators a = Communicator.communicators b
  ∧ Communicator.cr_certificate a = Communicator.cr_certificate b
  ∧ Communicator.cr_key a = Communicator.cr_key b.


(** The two caches of a communicator have the same identifiers. *)
Definition aligned `{Crypto} (self : Communicator.t) : Prop :=
  ∀ k, is_Some (Communicator.com_certificates self !! k)
       ↔ is_Some (Communicator.com_keys self !! k).

(** [P] holds of the [n] integers from [z] on. *)
Fixpoint all_from (P : Z -> bool) (n : nat) (z : Z) : bool :=
  match n with
  | O => true
  | S n => P z && all_from P n (z + 1)
  end.

(** The user names and the passwords read in the course of a dialogue. *)
Fixpoint usernames_read (dialogue : list Dialogue) : list string :=
  match dialogue with
  | [] => []
  | Asked username :: dialogue => username :: usernames_read dialogue
  | Said _ :: dialogue | Secret _ :: dialogue => usernames_read dialogue
  end.

Fixpoint passwords_read (dialogue : list Dialogue) : list string :=
  match dialogue with
  | [] => []
  | Secret password :: dialogue => password :: passwords_read dialogue
  | Said _ :: dialogue | Asked _ :: dialogue => passwords_read dialogue
  end.

(** The rows that [print(file)] writes for a list of descriptors. *)
Definition rows (files : list FileDescriptor.t) : list Effect :=
  map (fun file => Printed (FileDescriptorFormat.str file)) files.

(** ** Further values of the small instance *)

Module Scenario.
Import Example.


Definition memo : FileDescriptor.t := FileDescriptor.mk "memo.txt" "carol" "a memo" 6 2.

(** Descriptors as a service provider builds them, and a list that holds
    one of them twice. *)
Definition report : FileDescriptor.t := FileDescriptor.init "report.txt" "carol" "a report".
Definition draft : FileDescriptor.t := FileDescriptor.init "draft.txt" "carol" "a draft".


(** A loader that reads forty lines, and bob with that loader. *)
Definition load_long (buffer : FileBuffer.t) : FileBuffer.t :=
  FileBuffer.mk (FileBuffer.buffer_id buffer) (FileBuffer.descriptor buffer)
    (repeat "a line" 40).

Definition bob_long : Communicator.t :=
  Communicator.mk _ "bob" bob_address cr_address load_long 4
    (signed_as 7 2 bob_certificate) (Communicator.com_certificates bob_trusting)
    (Communicator.com_keys bob_trusting) directory
    (CentralRegistry.certificate registry) 7.

(** A file request for [notes] that bears the identifier of alice and a
    signature that is not hers. *)
Definition forged : FileRequest.t :=
  FileRequest.set_signature (Some 5000) (FileRequest.init notes_buffer 1 "carol").

(** A console that holds the lines still to be read, those for [input]
    and those for [getpass]. *)
Definition next_input (console : list string * list string)
    : (list string * list string) * option string :=
  match fst console with
  | [] => (console, None)
  | line :: rest => ((rest, snd console), Some line)
  end.

Definition next_password (console : list string * list string)
    : (list string * list string) * option string :=
  match snd console with
  | [] => (console, None)
  | line :: rest => ((fst console, rest), Some line)
  end.

Definition carol : User.t := User.init "carol" "s3cret" "/home/carol".

Definition accounts : gmap string User.t := <["carol" := carol]> ∅.
End Scenario.

(** ** Proof steps *)


(** * Properties *)

(** ** Lists *)

Lemma lookup_map {A B} (f : A → B) (l : list A) (j : nat) :
  map f l !! j = f <$> l !! j.
Proof. exact (list_lookup_fmap f l j). Qed.

Lemma elem_of_map {A B} (f : A → B) (l : list A) (x : A) : x ∈ l → f x ∈ map f l.
Proof. exact (list_elem_of_fmap_2 f l x). Qed.

(** ** Text and digests of certificates *)

Section Certificates.
Context `{Crypto}.
Implicit Types c : Certificate.t.

Lemma certificate_hash_ascii c :
  is_ascii (Certificate.name c) = true →
  Certificate.hash c
  = Ok (sha256 (list_byte_of_string (Certificate.name c) ++ Certificate.public_key c)).
Proof. intros Ha. unfold Certificate.hash, encode_ascii. by rewrite Ha. Qed.

Lemma certificate_hash_raise c :
  is_ascii (Certificate.name c) = false →
  Certificate.hash c = Raise UnicodeEncodeError.
Proof. intros Ha. unfold Certificate.hash, encode_ascii. by rewrite Ha. Qed.

Lemma certificate_sign_ascii c (key : Key) :
  is_ascii (Certificate.name c) = true →
  Certificate.sign c key
  = Ok (Certificate.set_signature
          (Some (RSA_sign key
                   (sha256 (list_byte_of_string (Certificate.name c)
                            ++ Certificate.public_key c)))) c).
Proof. intros Ha. unfold Certificate.sign. by rewrite certificate_hash_ascii. Qed.

Lemma certificate_sign_raise c (key : Key) :
  is_ascii (Certificate.name c) = false →
  Certificate.sign c key = Raise UnicodeEncodeError.
Proof. intros Ha. unfold Certificate.sign. by rewrite certificate_hash_raise. Qed.

Lemma certificate_verify_ascii c (key : Key) :
  is_ascii (Certificate.name c) = true →
  Certificate.verify c key
  = Ok (RSA_verify key
          (sha256 (list_byte_of_string (Certificate.name c) ++ Certificate.public_key c))
          (Certificate.signature c)).
Proof. intros Ha. unfold Certificate.verify. by rewrite certificate_hash_ascii. Qed.

Lemma certificate_verify_raise c (key : Key) :
  is_ascii (Certificate.name c) = false →
  Certificate.verify c key = Raise UnicodeEncodeError.
Proof. intros Ha. unfold Certificate.verify. by rewrite certificate_hash_raise. Qed.

(** [verify] returns exactly when the name is ASCII. *)
Lemma certificate_verify_returns c (key : Key) (b : bool) :
  Certificate.verify c key = Ok b → is_ascii (Certificate.name c) = true.
Proof.
  destruct (is_ascii (Certificate.name c)) eqn:Ha; [done|].
  by rewrite certificate_verify_raise.
Qed.

Lemma certificate_verify_raises c (key : Key) (e : Exception) :
  Certificate.verify c key = Raise e →
  is_ascii (Certificate.name c) = false ∧ e = UnicodeEncodeError.
Proof.
  destruct (is_ascii (Certificate.name c)) eqn:Ha.
  - by rewrite certificate_verify_ascii.
  - rewrite certificate_verify_raise by done. by intros [= <-].
Qed.

(** The signature and the verification read the name and the public key
    only. *)
Lemma certificate_verify_fields c c' (key : Key) :
  Certificate.name c' = Certificate.name c →
  Certificate.public_key c' = Certificate.public_key c →
  Certificate.signature c' = Certificate.signature c →
  Certificate.verify c' key = Certificate.verify c key.
Proof.
  intros Hn Hp Hs. unfold Certificate.verify, Certificate.hash. by rewrite Hn, Hp, Hs.
Qed.
End Certificates.

(** ** The registry *)

Section Registry.
Context `{Crypto} `{Pickle}.
Implicit Types (server : CentralRegistry.t) (c : Certificate.t).
Implicit Types (message : Message.t) (sent : Pickled) (files : Files).

Lemma register_certificate_ascii server c :
  is_ascii (Certificate.name c) = true →
  CentralRegistry.register_certificate server c
  = (CentralRegistry.mk _ (CentralRegistry.name server)
       (CentralRegistry.address server) (CentralRegistry.key server)
       (CentralRegistry.certificate server)
       (CentralRegistry.com_id_counter server + 1)
       (<[CentralRegistry.com_id_counter server :=
            SPDescriptor.mk (CentralRegistry.com_id_counter server)
              (Certificate.name c) (Certificate.address c)]>
          (CentralRegistry.service_providers server))
       (CentralRegistry.file_id_counter server)
       (CentralRegistry.public_files server),
     Ok (signed_as (CentralRegistry.key server) (CentralRegistry.com_id_counter server) c)).
Proof.
  intros Ha. unfold CentralRegistry.register_certificate.
  rewrite certificate_sign_ascii by done. reflexivity.
Qed.

Lemma register_certificate_raise server c :
  is_ascii (Certificate.name c) = false →
  CentralRegistry.register_certificate server c
  = (CentralRegistry.set_com_id_counter (CentralRegistry.com_id_counter server + 1) server,
     Raise UnicodeEncodeError).
Proof.
  intros Ha. unfold CentralRegistry.register_certificate.
  rewrite certificate_sign_raise by done. reflexivity.
Qed.



(** *** The receive *)

Lemma loads_recv_fits sent : fits sent = true → loads_recv sent = Ok sent.
Proof. intros Hfits. unfold loads_recv. by rewrite Hfits. Qed.

Lemma loads_recv_cut sent : fits sent = false → loads_recv sent = Raise UnpicklingError.
Proof. intros Hfits. unfold loads_recv. by rewrite Hfits. Qed.

Lemma fits_short (type : string) (content : Content) (request : bool) :
  carries_at_most_a_certificate content →
  fits (PMessage (Message.mk type content request)) = true.
Proof. intros Hshort. apply bool_decide_eq_true_2. by apply short_messages. Qed.

Lemma receive_fits server sent :
  fits sent = true →
  RequestHandler.receive server sent = RequestHandler.handle server (as_message sent).
Proof. intros Hfits. unfold RequestHandler.receive. by rewrite loads_recv_fits. Qed.

Lemma receive_cut server sent :
  fits sent = false →
  RequestHandler.receive server sent = (server, Raise UnpicklingError).
Proof. intros Hfits. unfold RequestHandler.receive. by rewrite loads_recv_cut. Qed.

Lemma receive_short server (type : string) (content : Content) (request : bool) :
  carries_at_most_a_certificate content →
  RequestHandler.receive server (PMessage (Message.mk type content request))
  = RequestHandler.handle server (Message.mk type content request).
Proof. intros Hshort. by rewrite receive_fits by by apply fits_short. Qed.

(** *** The loop of [publish] *)

Lemma assign_file_id_objects (o : nat) (i : Z) files :
  objects (assign_file_id o i files) = objects files.
Proof.
  unfold objects, assign_file_id. rewrite map_map. apply map_ext.
  intros item. by case_decide.
Qed.

Lemma publish_loop_counter (turns : list nat) (counter : Z) files
    (filed : list (Z * nat)) :
  fst (fst (CentralRegistry.publish_loop turns counter files filed))
  = counter + Z.of_nat (length turns).
Proof.
  revert counter files filed.
  induction turns as [|o turns IH]; intros counter files filed.
  - simpl. lia.
  - cbn [CentralRegistry.publish_loop]. rewrite IH. simpl. lia.
Qed.

Lemma publish_loop_filed (turns : list nat) (counter : Z) files
    (filed : list (Z * nat)) :
  snd (CentralRegistry.publish_loop turns counter files filed)
  = (filed ++ zip (seqZ counter (Z.of_nat (length turns))) turns)%list.
Proof.
  revert counter files filed.
  induction turns as [|o turns IH]; intros counter files filed.
  - simpl. by rewrite app_nil_r.
  - cbn [CentralRegistry.publish_loop]. rewrite IH.
    rewrite (seqZ_cons counter (Z.of_nat (length (o :: turns))))
      by (cbn [length]; lia).
    rewrite <- app_assoc. cbn [app zip zip_with].
    replace (Z.pred (Z.of_nat (length (o :: turns)))) with (Z.of_nat (length turns))
      by (cbn [length]; lia).
    by replace (Z.succ counter) with (counter + 1) by lia.
Qed.

Lemma publish_loop_files (turns : list nat) (counter : Z) files
    (filed : list (Z * nat)) :
  snd (fst (CentralRegistry.publish_loop turns counter files filed))
  = map (λ item,
           (fst item,
            match assigned turns counter (fst item) with
            | Some i => FileDescriptor.set_file_id i (snd item)
            | None => snd item
            end))
      files.
Proof.
  revert counter files filed.
  induction turns as [|o turns IH]; intros counter files filed.
  - cbn [CentralRegistry.publish_loop assigned fst snd].
    induction files as [|[o f] files IHf]; [done|]. simpl. by rewrite <- IHf.
  - cbn [CentralRegistry.publish_loop]. rewrite IH.
    unfold assign_file_id. rewrite map_map. apply map_ext.
    intros [o' f]. cbn [assigned fst snd].
    destruct (decide (o' = o)) as [->|Hne]; cbn [fst snd];
      by destruct (assigned turns (counter + 1) _).
Qed.

Lemma publish_unfold server files :
  CentralRegistry.publish server files
  = let k := CentralRegistry.file_id_counter server in
    (CentralRegistry.set_public_files
       (fold_left (CentralRegistry.file_entry (relabelled k files))
          (zip (seqZ k (Z.of_nat (length files))) (objects files))
          (CentralRegistry.public_files server))
       (CentralRegistry.set_file_id_counter (k + Z.of_nat (length files)) server),
     relabelled k files).
Proof.
  unfold CentralRegistry.publish.
  pose proof (publish_loop_counter (objects files)
                (CentralRegistry.file_id_counter server) files []) as Hcounter.
  pose proof (publish_loop_filed (objects files)
                (CentralRegistry.file_id_counter server) files []) as Hfiled.
  pose proof (publish_loop_files (objects files)
                (CentralRegistry.file_id_counter server) files []) as Hfiles.
  destruct (CentralRegistry.publish_loop _ _ _ _) as [[counter files'] filed].
  cbn [fst snd] in *. unfold objects in *. rewrite length_map in *.
  cbv zeta. unfold relabelled, objects. by subst.
Qed.

Lemma assigned_None (turns : list nat) (counter : Z) (o : nat) :
  o ∉ turns → assigned turns counter o = None.
Proof.
  revert counter. induction turns as [|turn turns IH]; intros counter Ho; [done|].
  apply not_elem_of_cons in Ho as [Hne Ho]. cbn [assigned].
  rewrite IH by done. by rewrite decide_False.
Qed.



Lemma assigned_NoDup (turns : list nat) (counter : Z) (o : nat) (j : nat) :
  NoDup turns → turns !! j = Some o →
  assigned turns counter o = Some (counter + Z.of_nat j).
Proof.
  revert counter j. induction turns as [|turn turns IH]; intros counter j; [done|].
  intros [Hturn Hturns]%NoDup_cons. cbn [assigned].
  destruct j as [|j]; cbn [lookup list_lookup].
  - intros [= ->]. rewrite assigned_None by done. rewrite decide_True by done.
    f_equal. lia.
  - intros Ho. rewrite (IH (counter + 1) j Hturns Ho). f_equal. lia.
Qed.

Lemma relabelled_length (k : Z) files : length (relabelled k files) = length files.
Proof. unfold relabelled. by rewrite length_map. Qed.

Lemma relabelled_objects (k : Z) files : objects (relabelled k files) = objects files.
Proof. unfold relabelled, objects. rewrite map_map. by apply map_ext. Qed.



Lemma relabelled_distinct (k : Z) files (j : nat) (o : nat) (f : FileDescriptor.t) :
  NoDup (objects files) → files !! j = Some (o, f) →
  relabelled k files !! j = Some (o, FileDescriptor.set_file_id (k + Z.of_nat j) f).
Proof.
  intros Hnodup Hj.
  assert (objects files !! j = Some o) as Ho.
  { unfold objects. by rewrite lookup_map, Hj. }
  unfold relabelled. rewrite lookup_map, Hj. cbn.
  by rewrite (assigned_NoDup _ _ _ _ Hnodup Ho).
Qed.


Lemma object_value_distinct files (j : nat) (o : nat) (f : FileDescriptor.t) :
  NoDup (objects files) → files !! j = Some (o, f) → object_value files o = Some f.
Proof.
  revert j. induction files as [|[o' g] files IH]; intros j; [done|].
  unfold objects. cbn [map fst]. intros [Ho' Hnodup]%NoDup_cons.
  unfold object_value. cbn [find fst].
  destruct j as [|j]; cbn [lookup list_lookup].
  - intros [= -> ->]. by rewrite bool_decide_eq_true_2.
  - intros Hj. rewrite bool_decide_eq_false_2.
    + by apply (IH j).
    + intros ->. apply Ho'. apply list_elem_of_lookup_2 in Hj.
      exact (elem_of_map fst _ _ Hj).
Qed.

(** The entries that the loop makes in the directory. *)
Lemma fold_file_entry_other files (entries : list (Z * nat))
    (d : gmap Z FileDescriptor.t) (x : Z) :
  x ∉ map fst entries →
  fold_left (CentralRegistry.file_entry files) entries d !! x = d !! x.
Proof.
  revert d. induction entries as [|[k o] entries IH]; intros d Hx; [done|].
  cbn [map fst] in Hx. apply not_elem_of_cons in Hx as [Hne Hx].
  cbn [fold_left]. rewrite IH by done. unfold CentralRegistry.file_entry.
  cbn [fst snd]. destruct (object_value files o); [|done].
  by rewrite lookup_insert_ne.
Qed.

Lemma fold_file_entry_new files (entries : list (Z * nat))
    (d : gmap Z FileDescriptor.t) (j : nat) (x : Z) (o : nat) :
  NoDup (map fst entries) → entries !! j = Some (x, o) →
  is_Some (object_value files o) →
  fold_left (CentralRegistry.file_entry files) entries d !! x = object_value files o.
Proof.
  revert d j. induction entries as [|[k o'] entries IH]; intros d j; [done|].
  cbn [map fst]. intros [Hk Hnodup]%NoDup_cons.
  destruct j as [|j]; cbn [lookup list_lookup fold_left].
  - intros [= -> ->] [f Hf]. rewrite fold_file_entry_other by done.
    unfold CentralRegistry.file_entry. cbn [fst snd]. rewrite Hf.
    by rewrite lookup_insert_eq.
  - intros Hj Hsome. by apply (IH _ j).
Qed.

Lemma publish_entries_keys (k : Z) files :
  map fst (zip (seqZ k (Z.of_nat (length files))) (objects files))
  = seqZ k (Z.of_nat (length files)).
Proof.
  apply fst_zip. unfold objects. rewrite length_map, length_seqZ. lia.
Qed.

Lemma publish_frame server files :
  let server' := fst (CentralRegistry.publish server files) in
  CentralRegistry.name server' = CentralRegistry.name server
  ∧ CentralRegistry.address server' = CentralRegistry.address server
  ∧ CentralRegistry.key server' = CentralRegistry.key server
  ∧ CentralRegistry.certificate server' = CentralRegistry.certificate server
  ∧ CentralRegistry.com_id_counter server' = CentralRegistry.com_id_counter server
  ∧ CentralRegistry.service_providers server' = CentralRegistry.service_providers server.
Proof. rewrite publish_unfold. by split_and!. Qed.

Lemma publish_file_id_counter server files :
  CentralRegistry.file_id_counter (fst (CentralRegistry.publish server files))
  = CentralRegistry.file_id_counter server + Z.of_nat (length files).
Proof. by rewrite publish_unfold. Qed.

Lemma publish_length server files :
  length (snd (CentralRegistry.publish server files)) = length files.
Proof. rewrite publish_unfold. apply relabelled_length. Qed.

Lemma publish_objects server files :
  objects (snd (CentralRegistry.publish server files)) = objects files.
Proof. rewrite publish_unfold. apply relabelled_objects. Qed.




(** On a list of distinct objects: the descriptors get the successive
    values of the counter and are filed under them. *)
Lemma publish_distinct_lookup server files (j : nat) (o : nat) (f : FileDescriptor.t) :
  NoDup (objects files) → files !! j = Some (o, f) →
  let g := FileDescriptor.set_file_id
             (CentralRegistry.file_id_counter server + Z.of_nat j) f in
  snd (CentralRegistry.publish server files) !! j = Some (o, g)
  ∧ CentralRegistry.public_files (fst (CentralRegistry.publish server files))
      !! (CentralRegistry.file_id_counter server + Z.of_nat j) = Some g.
Proof.
  intros Hnodup Hj g. rewrite publish_unfold. cbv zeta.
  cbn [fst snd CentralRegistry.public_files CentralRegistry.set_public_files].
  set (k := CentralRegistry.file_id_counter server).
  pose proof (relabelled_distinct k files j o f Hnodup Hj) as Hg. fold g in Hg.
  split; [done|].
  assert (object_value (relabelled k files) o = Some g) as Hvalue.
  { apply (object_value_distinct _ j); [|done]. by rewrite relabelled_objects. }
  rewrite <- Hvalue. apply (fold_file_entry_new _ _ _ j).
  - rewrite publish_entries_keys. apply NoDup_seqZ.
  - apply lookup_zip_Some. split.
    + apply lookup_seqZ_lt. apply lookup_lt_Some in Hj. lia.
    + unfold objects. by rewrite lookup_map, Hj.
  - by rewrite Hvalue.
Qed.

Lemma publish_distinct_inv server files (j : nat) (o : nat) (g : FileDescriptor.t) :
  NoDup (objects files) →
  snd (CentralRegistry.publish server files) !! j = Some (o, g) →
  ∃ f, files !! j = Some (o, f)
       ∧ g = FileDescriptor.set_file_id
               (CentralRegistry.file_id_counter server + Z.of_nat j) f
       ∧ CentralRegistry.public_files (fst (CentralRegistry.publish server files))
           !! (CentralRegistry.file_id_counter server + Z.of_nat j) = Some g.
Proof.
  intros Hnodup Hg.
  destruct (files !! j) as [[o' f]|] eqn:Hf.
  - destruct (publish_distinct_lookup server files j o' f Hnodup Hf) as [Hj Hdir].
    rewrite Hg in Hj. injection Hj as -> ->. by exists f.
  - apply lookup_ge_None in Hf. rewrite <- (publish_length server) in Hf.
    apply lookup_ge_None in Hf. by rewrite Hf in Hg.
Qed.

Lemma publish_distinct_descriptors server files :
  NoDup (objects files) →
  descriptors (snd (CentralRegistry.publish server files))
  = zip_with FileDescriptor.set_file_id
      (seqZ (CentralRegistry.file_id_counter server) (Z.of_nat (length files)))
      (descriptors files).
Proof.
  intros Hnodup. apply list_eq. intros j.
  unfold descriptors. rewrite lookup_map, lookup_zip_with, lookup_map.
  destruct (files !! j) as [[o f]|] eqn:Hf.
  - destruct (publish_distinct_lookup server files j o f Hnodup Hf) as [-> _].
    rewrite lookup_seqZ_lt by (apply lookup_lt_Some in Hf; lia). done.
  - apply lookup_ge_None in Hf. rewrite lookup_seqZ_ge by lia.
    rewrite <- (publish_length server) in Hf. apply lookup_ge_None in Hf.
    by rewrite Hf.
Qed.

Lemma publish_distinct_file_ids server files :
  NoDup (objects files) →
  map FileDescriptor.file_id (descriptors (snd (CentralRegistry.publish server files)))
  = seqZ (CentralRegistry.file_id_counter server) (Z.of_nat (length files)).
Proof.
  intros Hnodup. rewrite publish_distinct_descriptors by done.
  apply list_eq. intros j. rewrite lookup_map, lookup_zip_with.
  unfold descriptors. rewrite lookup_map.
  destruct (files !! j) as [[o f]|] eqn:Hf.
  - rewrite lookup_seqZ_lt by (apply lookup_lt_Some in Hf; lia). done.
  - apply lookup_ge_None in Hf. by rewrite !lookup_seqZ_ge by lia.
Qed.

#[local] Arguments CentralRegistry.publish : simpl never.

Lemma handle_publish server (f : nat * FileDescriptor.t) (fs : Files) r :
  RequestHandler.handle server (Message.mk Message.PUBLISH (CFiles (f :: fs)) r)
  = (fst (CentralRegistry.publish server (f :: fs)),
     Ok (Message.mk Message.PUBLISH
           (CFiles (snd (CentralRegistry.publish server (f :: fs)))) false)).
Proof.
  unfold RequestHandler.handle. simpl.
  by destruct (CentralRegistry.publish server (f :: fs)).
Qed.



Lemma serve_cons server sent (rest : list Pickled) :
  RequestHandler.serve server (sent :: rest)
  = (fst (RequestHandler.serve (fst (RequestHandler.receive server sent)) rest),
     snd (RequestHandler.receive server sent)
     :: snd (RequestHandler.serve (fst (RequestHandler.receive server sent)) rest)).
Proof.
  simpl. destruct (RequestHandler.receive server sent).
  by destruct (RequestHandler.serve _ rest).
Qed.

#[local] Arguments RequestHandler.serve : simpl never.
#[local] Arguments RequestHandler.handle : simpl never.
#[local] Arguments RequestHandler.receive : simpl never.



Lemma receive_publish server (f : nat * FileDescriptor.t) (fs : Files) r :
  fits (PMessage (Message.mk Message.PUBLISH (CFiles (f :: fs)) r)) = true →
  RequestHandler.receive server
    (PMessage (Message.mk Message.PUBLISH (CFiles (f :: fs)) r))
  = (fst (CentralRegistry.publish server (f :: fs)),
     Ok (Message.mk Message.PUBLISH
           (CFiles (snd (CentralRegistry.publish server (f :: fs)))) false)).
Proof. intros Hfits. rewrite receive_fits by done. apply handle_publish. Qed.















(** C5, at the input where the code departs from it.  A [PUBLISH] request
    that carries the empty list is not answered: the handler raises
    [IndexError] on [files[0]], which it evaluates for its log line, before
    it calls [publish]; [publish] itself returns the empty list and leaves
    the registry as it is. *)
Theorem publish_of_empty_list_is_not_answered :
  ∀ server r,
    RequestHandler.handle server (Message.mk Message.PUBLISH (CFiles []) r)
    = (server, Raise IndexError)
    ∧ CentralRegistry.publish server [] = (server, [])
    ∧ ¬ publish_answered server [].
Proof.
  intros server r. split_and!; [done| |].
  - unfold CentralRegistry.publish. by destruct server.
  - unfold publish_answered. discriminate.
Qed.

End Registry.
(** ** Certificates and file requests *)

Section Structs.
Context `{Crypto}.

Lemma is_ascii_app (s t : string) : is_ascii (s ++ t) = is_ascii s && is_ascii t.
Proof.
  induction s as [|c s IH]; [done|].
  change (is_ascii (String c s ++ t))
    with ((nat_of_ascii c <? 128)%nat && is_ascii (s ++ t)).
  change (is_ascii (String c s)) with ((nat_of_ascii c <? 128)%nat && is_ascii s).
  by rewrite IH, andb_assoc.
Qed.

Lemma is_ascii_uint (d : Decimal.uint) : is_ascii (NilEmpty.string_of_uint d) = true.
Proof. induction d; [done|exact IHd..]. Qed.

(** The text of an integer is ASCII. *)
Lemma is_ascii_fmt_d (z : Z) : is_ascii (fmt_d z) = true.
Proof.
  unfold fmt_d, NilZero.string_of_int, NilZero.string_of_uint.
  destruct (Z.to_int z) as [d|d]; destruct d; try done; apply is_ascii_uint.
Qed.

Lemma is_ascii_fmt_4d (a b c d : Z) : is_ascii (fmt_4d a b c d) = true.
Proof.
  unfold fmt_4d. rewrite !is_ascii_app, !is_ascii_fmt_d. reflexivity.
Qed.

Lemma update_lines_cases (lines : list string) (sha : list byte) :
  FileRequest.update_lines sha lines
  = if forallb is_ascii lines
    then Ok (sha ++ concat (map list_byte_of_string lines))%list
    else Raise UnicodeEncodeError.
Proof.
  revert sha. induction lines as [|line lines IH]; intros sha.
  - simpl. by rewrite app_nil_r.
  - cbn [FileRequest.update_lines forallb map concat]. unfold encode_ascii.
    destruct (is_ascii line); [|done]. cbn. rewrite IH.
    unfold SHA256.update. by rewrite <- app_assoc.
Qed.

Lemma file_request_hash_cases (m : FileRequest.t) :
  FileRequest.hash m
  = if file_request_ascii m then Ok (sha256 (file_request_bytes m))
    else Raise UnicodeEncodeError.
Proof.
  unfold FileRequest.hash, file_request_ascii, file_request_bytes, encode_ascii.
  destruct (is_ascii (FileRequest.username m)); [|done].
  destruct (is_ascii (FileRequest.type m)); [|done].
  cbn [mbind Outcome_bind andb].
  rewrite is_ascii_fmt_4d.
  destruct (FileBuffer.lines (FileRequest.content m)) as [|line lines] eqn:E.
  - cbn. unfold SHA256.digest, SHA256.update, SHA256.new. by rewrite <- !app_assoc.
  - rewrite update_lines_cases. destruct (forallb is_ascii (line :: lines)); [|done].
    cbn [mbind Outcome_bind].
    unfold SHA256.digest, SHA256.update, SHA256.new. by rewrite <- !app_assoc.
Qed.

Lemma file_request_sign_cases (m : FileRequest.t) (key : Key) :
  FileRequest.sign m key
  = if file_request_ascii m
    then Ok (FileRequest.set_signature
               (Some (RSA_sign key (sha256 (file_request_bytes m)))) m)
    else Raise UnicodeEncodeError.
Proof.
  unfold FileRequest.sign. rewrite file_request_hash_cases.
  by destruct (file_request_ascii m).
Qed.

Lemma file_request_verify_cases (m : FileRequest.t) (key : Key) :
  FileRequest.verify m key
  = if file_request_ascii m
    then Ok (RSA_verify key (sha256 (file_request_bytes m)) (FileRequest.signature m))
    else Raise UnicodeEncodeError.
Proof.
  unfold FileRequest.verify. rewrite file_request_hash_cases.
  by destruct (file_request_ascii m).
Qed.

(** C6. The hash of a file request is the SHA-256 digest of the username,
    the type tag FETCH_FILE, the lines of the buffer in order (nothing for
    a buffer without lines) and the text of four integers separated by
    spaces: the owning communicator identifier of the descriptor, the
    source communicator identifier, the owning communicator identifier
    again, and the file identifier; [hash] returns it when the username
    and the lines are ASCII text, and raises [UnicodeEncodeError] when one
    of them is not. *)
Theorem file_request_hash_layout :
  ∀ m : FileRequest.t,
    FileRequest.type m = Message.FETCH_FILE →
    let d := FileBuffer.descriptor (FileRequest.content m) in
    FileRequest.hash m
    = if is_ascii (FileRequest.username m)
         && forallb is_ascii (FileBuffer.lines (FileRequest.content m))
      then
        Ok (sha256
              (list_byte_of_string (FileRequest.username m)
               ++ list_byte_of_string "FETCH_FILE"
               ++ concat (map list_byte_of_string
                            (FileBuffer.lines (FileRequest.content m)))
               ++ list_byte_of_string
                    (fmt_d (FileDescriptor.com_id d) +:+ " "
                     +:+ fmt_d (FileRequest.src_com_id m) +:+ " "
                     +:+ fmt_d (FileDescriptor.com_id d) +:+ " "
                     +:+ fmt_d (FileDescriptor.file_id d)))%list)
      else Raise UnicodeEncodeError.
Proof.
  intros m Hty d. rewrite file_request_hash_cases.
  unfold file_request_ascii, file_request_bytes. rewrite Hty.
  change (is_ascii Message.FETCH_FILE) with true. rewrite andb_true_r.
  reflexivity.
Qed.

(** The constructor accepts the five types that the clients pass to it. *)
Lemma Message_init_supported (msg_type : string) (content : Content) :
  msg_type ∈ Message.TYPES →
  Message.init msg_type content = Ok (Message.mk msg_type content true).
Proof. intros Hty. unfold Message.init. by rewrite decide_True. Qed.
End Structs.

(** ** The communicator as a server *)

Section Server.
Context `{Crypto} `{Pickle}.
Implicit Types (self server : Communicator.t) (c : Certificate.t).

Lemma register_certificate_accept self c :
  Certificate.verify c (Communicator.cr_key self) = Ok true →
  Communicator.register_certificate self (Some c)
  = (Communicator.mk _ (Communicator.name self) (Communicator.address self)
       (Communicator.cr_address self) (Communicator.loader self)
       (Communicator.key self) (Communicator.certificate self)
       (<[Certificate.com_id c := c]> (Communicator.com_certificates self))
       (<[Certificate.com_id c := get_rsa_key (Certificate.public_key c)]>
          (Communicator.com_keys self))
       (Communicator.communicators self) (Communicator.cr_certificate self)
       (Communicator.cr_key self),
     Ok true).
Proof. intros Hv. unfold Communicator.register_certificate. by rewrite Hv. Qed.

Lemma register_certificate_reject self c :
  Certificate.verify c (Communicator.cr_key self) = Ok false →
  Communicator.register_certificate self (Some c) = (self, Ok false).
Proof. intros Hv. unfold Communicator.register_certificate. by rewrite Hv. Qed.

Lemma register_certificate_raises self c (e : Exception) :
  Certificate.verify c (Communicator.cr_key self) = Raise e →
  Communicator.register_certificate self (Some c) = (self, Raise e).
Proof. intros Hv. unfold Communicator.register_certificate. by rewrite Hv. Qed.

(** C2, amended.  [register_certificate] returns true exactly when its
    argument is a certificate whose [verify] against the registry's key
    returns true; it then maps the identifier of the certificate to the
    certificate in [com_certificates] and to the imported public key in
    [com_keys].  It returns false exactly when its argument is [None] or a
    certificate whose [verify] returns false.  It returns nothing when the
    name of the certificate is not ASCII text: [verify] then raises
    [UnicodeEncodeError], and so does the call.  Whenever it does not
    return true the communicator, and so both caches, are as before the
    call. *)
Theorem register_certificate_caches :
  ∀ self (certificate : option Certificate.t),
    let '(self', result) := Communicator.register_certificate self certificate in
    (result = Ok true
     ↔ ∃ c, certificate = Some c
            ∧ Certificate.verify c (Communicator.cr_key self) = Ok true)
    ∧ (∀ c, certificate = Some c → result = Ok true →
         Communicator.com_certificates self'
         = <[Certificate.com_id c := c]> (Communicator.com_certificates self)
         ∧ Communicator.com_keys self'
           = <[Certificate.com_id c := get_rsa_key (Certificate.public_key c)]>
               (Communicator.com_keys self))
    ∧ (result = Ok false
       ↔ certificate = None
         ∨ ∃ c, certificate = Some c
                ∧ Certificate.verify c (Communicator.cr_key self) = Ok false)
    ∧ (∀ e, result = Raise e
            ↔ e = UnicodeEncodeError
              ∧ ∃ c, certificate = Some c ∧ is_ascii (Certificate.name c) = false)
    ∧ (result ≠ Ok true → self' = self).
Proof.
  intros self [c|].
  - destruct (Certificate.verify c (Communicator.cr_key self)) as [[]|e] eqn:Hv.
    + rewrite register_certificate_accept by done. split_and!.
      * split; [eauto|done].
      * by intros c' [= <-] _.
      * split; [done|]. intros [|(c' & [= <-] & Hv')]; congruence.
      * intros e. split; [done|]. intros (_ & c' & [= <-] & Ha).
        apply certificate_verify_returns in Hv. congruence.
      * done.
    + rewrite register_certificate_reject by done. split_and!.
      * split; [done|]. intros (c' & [= <-] & Hv'). congruence.
      * done.
      * split; [eauto|done].
      * intros e. split; [done|]. intros (_ & c' & [= <-] & Ha).
        apply certificate_verify_returns in Hv. congruence.
      * done.
    + rewrite (register_certificate_raises _ _ e) by done.
      apply certificate_verify_raises in Hv as Hname. destruct Hname as [Ha ->].
      split_and!.
      * split; [done|]. intros (c' & [= <-] & Hv'). congruence.
      * done.
      * split; [done|]. intros [|(c' & [= <-] & Hv')]; congruence.
      * intros e. split; [intros [= <-]; eauto|]. by intros [-> _].
      * done.
  - simpl. split_and!; try done.
    + split; [done|]. by intros (c & ? & _).
    + split; [eauto|done].
    + intros e. split; [done|]. by intros (_ & c & ? & _).
Qed.

Lemma certified_register self (certificate : option Certificate.t) :
  certified self → certified (fst (Communicator.register_certificate self certificate)).
Proof.
  intros Hcert. destruct certificate as [c|]; [|done].
  destruct (Certificate.verify c (Communicator.cr_key self)) as [[]|e] eqn:Hv.
  - rewrite register_certificate_accept by done. intros k key. simpl.
    destruct (decide (Certificate.com_id c = k)) as [<-|Hne].
    + rewrite !lookup_insert_eq. intros [= <-]. eauto.
    + rewrite !lookup_insert_ne by done. apply Hcert.
  - by rewrite register_certificate_reject.
  - by rewrite (register_certificate_raises _ _ e).
Qed.

Lemma certified_handle server (message : Pickled) :
  certified server → certified (snd (fst (CommunicatorHandler.handle server message))).
Proof.
  intros Hcert. destruct message as [m|m]; unfold CommunicatorHandler.handle.
  - repeat case_decide; try done.
    unfold Communicator.register_content.
    destruct (Message.content (Message.set_request false m)); try done.
    pose proof (certified_register server (Some certificate) Hcert) as Hc.
    by destruct (Communicator.register_certificate server (Some certificate))
      as [server' [[]|]].
  - repeat case_decide; try done.
    destruct (_ !! _); [|done].
    destruct (FileRequest.verify _ _) as [[]|]; try done.
    by destruct (FileRequest.sign _ _).
Qed.

Lemma communicator_receive_fits server (sent : Pickled) :
  fits sent = true →
  CommunicatorHandler.receive server sent = CommunicatorHandler.handle server sent.
Proof. intros Hfits. unfold CommunicatorHandler.receive, loads_recv. by rewrite Hfits. Qed.

Lemma communicator_receive_cut server (sent : Pickled) :
  fits sent = false →
  CommunicatorHandler.receive server sent = ([], server, Raise UnpicklingError).
Proof. intros Hfits. unfold CommunicatorHandler.receive, loads_recv. by rewrite Hfits. Qed.

Lemma certified_receive server (sent : Pickled) :
  certified server → certified (snd (fst (CommunicatorHandler.receive server sent))).
Proof.
  intros Hcert. destruct (fits sent) eqn:Hfits.
  - rewrite communicator_receive_fits by done. by apply certified_handle.
  - by rewrite communicator_receive_cut.
Qed.

(** The verification of a request reads neither its flag nor its type
    beyond the text of it. *)
Lemma verify_set_request (m : FileRequest.t) (b : bool) (key : Key) :
  FileRequest.verify (FileRequest.set_request b m) key = FileRequest.verify m key.
Proof. done. Qed.

Lemma handle_file_request server (m : FileRequest.t) :
  FileRequest.type m = Message.FETCH_FILE →
  CommunicatorHandler.handle server (PFileRequest m)
  = match Communicator.com_keys server !! FileRequest.src_com_id m with
    | None => ([], server, Raise KeyError)
    | Some key =>
        match FileRequest.verify m key with
        | Ok true =>
            let loaded := Communicator.loader server (FileRequest.content m) in
            if forallb is_ascii (FileBuffer.lines loaded) then
              ([Loaded (FileRequest.content m)], server,
               Ok (PFileRequest
                     (FileRequest.mk Message.FETCH_FILE loaded false
                        (FileRequest.username m) (FileRequest.src_com_id m)
                        (Some (RSA_sign (Communicator.key server)
                                 (sha256 (file_request_bytes
                                            (FileRequest.set_content loaded m))))))))
            else ([Loaded (FileRequest.content m)], server, Raise UnicodeEncodeError)
        | Ok false =>
            ([], server,
             Ok (PFileRequest
                   (FileRequest.mk Message.FETCH_FILE (FileRequest.content m) true
                      (FileRequest.username m) (FileRequest.src_com_id m)
                      (FileRequest.signature m))))
        | Raise e => ([], server, Raise e)
        end
    end.
Proof.
  destruct m as [ty buffer rq user src sg]. simpl. intros ->.
  unfold CommunicatorHandler.handle.
  cbn [FileRequest.set_request FileRequest.type FileRequest.content FileRequest.request
       FileRequest.username FileRequest.src_com_id FileRequest.signature].
  rewrite decide_False by done. rewrite decide_True by done.
  destruct (Communicator.com_keys server !! src) as [key|]; [|done].
  change (FileRequest.verify (FileRequest.mk Message.FETCH_FILE buffer false user src sg) key)
    with (FileRequest.verify
            (FileRequest.set_request false
               (FileRequest.mk Message.FETCH_FILE buffer rq user src sg)) key).
  rewrite verify_set_request.
  destruct (FileRequest.verify _ key) as [[]|e] eqn:Hv; [|done..].
  rewrite file_request_verify_cases in Hv.
  rewrite file_request_sign_cases.
  unfold file_request_ascii in *.
  cbn [FileRequest.set_content FileRequest.set_request FileRequest.type FileRequest.content FileRequest.request
       FileRequest.username FileRequest.src_com_id FileRequest.signature] in *.
  destruct (is_ascii user); [|done].
  change (is_ascii Message.FETCH_FILE) with true in *. cbn [andb] in *.
  by destruct (forallb is_ascii (FileBuffer.lines (Communicator.loader server buffer))).
Qed.

(** C7, amended.  A FETCH_FILE request whose source identifier has a cached
    key, and whose pickle fits one receive: when [verify] against that key
    returns true, the handler invokes the loader on the buffer of the
    request; when the loaded lines are ASCII text it signs the request
    holding the loaded buffer with its own key and replies with
    is_request=false, and when one of them is not, [sign] raises
    [UnicodeEncodeError]: the loader has run and no reply is sent.  When
    [verify] returns false, the handler replies with is_request=true, the
    loader is not invoked and the signature and the buffer of the request
    are returned as they came.  When [verify] raises, as it does on a
    username or a line that is not ASCII text, the handler sends no reply
    and does not invoke the loader.  A request whose pickle does not fit
    one receive is not unpickled: no reply, no loader.  The communicator is
    unchanged in every case. *)
Theorem fetch_file_request_served :
  ∀ server (m : FileRequest.t) (key : Key),
    FileRequest.type m = Message.FETCH_FILE →
    Communicator.com_keys server !! FileRequest.src_com_id m = Some key →
    (fits (PFileRequest m) = false →
     CommunicatorHandler.receive server (PFileRequest m)
     = ([], server, Raise UnpicklingError))
    ∧ (fits (PFileRequest m) = true →
       let loaded := Communicator.loader server (FileRequest.content m) in
       (FileRequest.verify m key = Ok true →
        forallb is_ascii (FileBuffer.lines loaded) = true →
        CommunicatorHandler.receive server (PFileRequest m)
        = ([Loaded (FileRequest.content m)], server,
           Ok (PFileRequest
                 (FileRequest.mk Message.FETCH_FILE loaded false (FileRequest.username m)
                    (FileRequest.src_com_id m)
                    (Some (RSA_sign (Communicator.key server)
                             (sha256 (file_request_bytes
                                        (FileRequest.set_content loaded m)))))))))
       ∧ (FileRequest.verify m key = Ok true →
          forallb is_ascii (FileBuffer.lines loaded) = false →
          CommunicatorHandler.receive server (PFileRequest m)
          = ([Loaded (FileRequest.content m)], server, Raise UnicodeEncodeError))
       ∧ (FileRequest.verify m key = Ok false →
          CommunicatorHandler.receive server (PFileRequest m)
          = ([], server,
             Ok (PFileRequest
                   (FileRequest.mk Message.FETCH_FILE (FileRequest.content m) true
                      (FileRequest.username m) (FileRequest.src_com_id m)
                      (FileRequest.signature m)))))
       ∧ (∀ e, FileRequest.verify m key = Raise e →
            e = UnicodeEncodeError
            ∧ CommunicatorHandler.receive server (PFileRequest m)
              = ([], server, Raise e))).
Proof.
  intros server m key Hty Hkey. split; intros Hfits.
  - by apply communicator_receive_cut.
  - rewrite communicator_receive_fits by done.
    rewrite handle_file_request, Hkey by done. cbv zeta. split_and!.
    + by intros -> ->.
    + by intros -> ->.
    + by intros ->.
    + intros e He. rewrite He. split; [|done].
      rewrite file_request_verify_cases in He.
      destruct (file_request_ascii m); congruence.
Qed.

(** C10. A FETCH_FILE request whose source identifier is not a key of
    [com_keys]: the lookup raises [KeyError], the handler sends no reply,
    the loader is not invoked and the communicator is unchanged.  A
    FETCH_FILE request is answered, one way or the other, only when
    [com_keys] has the source identifier; in a communicator whose keys all
    come from [register_certificate], a certificate that bears the source
    identifier and verifies against the registry's key is then cached. *)
Theorem fetch_file_request_of_unknown_source :
  ∀ server (m : FileRequest.t),
    FileRequest.type m = Message.FETCH_FILE →
    (Communicator.com_keys server !! FileRequest.src_com_id m = None →
     CommunicatorHandler.handle server (PFileRequest m) = ([], server, Raise KeyError))
    ∧ (∀ effects server' reply,
         CommunicatorHandler.handle server (PFileRequest m) = (effects, server', Ok reply) →
         is_Some (Communicator.com_keys server !! FileRequest.src_com_id m)
         ∧ (certified server →
            ∃ c, Communicator.com_certificates server !! FileRequest.src_com_id m = Some c
                 ∧ Certificate.com_id c = FileRequest.src_com_id m
                 ∧ Certificate.verify c (Communicator.cr_key server) = Ok true)).
Proof.
  intros server m Hty. rewrite handle_file_request by done. split.
  - by intros ->.
  - intros effects server' reply.
    destruct (Communicator.com_keys server !! FileRequest.src_com_id m)
      as [key|] eqn:Hkey; [|done].
    intros _. split; [by eexists|]. intros Hcert.
    destruct (Hcert _ key Hkey) as (c & ? & ? & ? & _). eauto.
Qed.

(** A communicator that has registered nothing yet. *)
Lemma certified_empty self :
  Communicator.com_keys self = ∅ → certified self.
Proof. intros Hempty k key. by rewrite Hempty, lookup_empty. Qed.
End Server.

(** ** The communicator as a client *)

Section Exchange.
Context `{Crypto} `{Pickle}.
Implicit Types a b : Communicator.t.

Lemma peer_fits (server : Communicator.t) (address : Address) (sent : Pickled) :
  fits sent = true →
  peer server address sent
  = match CommunicatorHandler.handle server sent with
    | (_, server, Ok reply) => (server, Some reply)
    | (_, server, Raise _) => (server, None)
    end.
Proof. intros Hfits. unfold peer. by rewrite communicator_receive_fits. Qed.

Lemma peer_cut (server : Communicator.t) (address : Address) (sent : Pickled) :
  fits sent = false → peer server address sent = (server, None).
Proof. intros Hfits. unfold peer. by rewrite communicator_receive_cut. Qed.


End Exchange.

Section Fetch.
Context `{Crypto} `{Pickle} {Net : Type}.
Variable transmit : Net → Address → Pickled → Net * option Pickled.
Implicit Types (s : Communicator.t * Net) (buffer : FileBuffer.t).

Lemma exchange_certificate_run s (address : Address) :
  Client.exchange_certificate transmit address s
  = match transmit (snd s) address (exchange_request_of (fst s)) with
    | (net, Some sent) =>
        match loads_recv sent with
        | Ok reply =>
            match Communicator.register_content (fst s) (pickled_content reply) with
            | (self, result) =>
                ([Sent address (exchange_request_of (fst s)); Received reply],
                 (self, net), result)
            end
        | Raise e =>
            ([Sent address (exchange_request_of (fst s))], (fst s, net), Raise e)
        end
    | (net, None) =>
        ([Sent address (exchange_request_of (fst s))], (fst s, net), Raise EOFError)
    end.
Proof.
  unfold Client.exchange_certificate, Client.get_certificate,
    Client.send_and_get_reply, Client.exchange, Client.register_certificate,
    Client.self, Client.ret, mbind, Client.M_bind, Client.bind, exchange_request_of.
  cbn [fst snd].
  destruct (transmit (snd s) address _) as [net [sent|]]; [|done].
  destruct (loads_recv sent) as [reply|e]; [|done].
  cbn [fst snd app]. by destruct (Communicator.register_content _ _).
Qed.

Lemma fetch_file_request_run s buffer (username : string) (com_id : Z)
    (address : Address) :
  Client.fetch_file_request transmit buffer username com_id address s
  = match file_request_of (fst s) buffer username with
    | Raise e => ([], s, Raise e)
    | Ok request =>
        let request := PFileRequest request in
        match transmit (snd s) address request with
        | (net, None) => ([Sent address request], (fst s, net), Raise EOFError)
        | (net, Some sent) =>
            match loads_recv sent with
            | Raise e => ([Sent address request], (fst s, net), Raise e)
            | Ok reply =>
                if pickled_request reply then
                  ([Sent address request; Received reply;
                    Printed ("Service provider " +:+ fmt_d com_id
                             +:+ " refused request")],
                   (fst s, net), Ok (pickled_content reply))
                else
                  match reply with
                  | PMessage _ =>
                      ([Sent address request; Received reply;
                        Printed "Verifying received message..."],
                       (fst s, net), Raise AttributeError)
                  | PFileRequest m =>
                      match Communicator.com_keys (fst s) !! com_id with
                      | None =>
                          ([Sent address request; Received reply;
                            Printed "Verifying received message..."],
                           (fst s, net), Raise KeyError)
                      | Some key =>
                          match FileRequest.verify m key with
                          | Ok verified =>
                              ([Sent address request; Received reply;
                                Printed "Verifying received message...";
                                Printed (if verified
                                         then "Message verified successfully"
                                         else "Message verification failed")],
                               (fst s, net), Ok (CBuffer (FileRequest.content m)))
                          | Raise e =>
                              ([Sent address request; Received reply;
                                Printed "Verifying received message..."],
                               (fst s, net), Raise e)
                          end
                      end
                  end
            end
        end
    end.
Proof.
  unfold Client.fetch_file_request, Client.exchange, Client.getitem, Client.print,
    Client.lift, Client.self, Client.ret, Client.raise, mbind, Client.M_bind,
    Client.bind, file_request_of.
  cbn [fst snd]. destruct s as [self net0]. cbn [fst snd].
  destruct (FileRequest.sign _ (Communicator.key self)) as [request|e]; [|done].
  cbn [fst snd app].
  destruct (transmit net0 address _) as [net [sent|]]; [|done].
  destruct (loads_recv sent) as [reply|e]; [|done].
  cbn [fst snd app]. destruct (pickled_request reply); [done|].
  destruct reply as [m|m]; [done|]. cbn [fst snd app].
  destruct (Communicator.com_keys self !! com_id) as [key|]; [|done].
  cbn [fst snd app]. by destruct (FileRequest.verify m key) as [[]|e].
Qed.

Lemma fetch_file_run s buffer (username : string) :
  let com_id := FileDescriptor.com_id (FileBuffer.descriptor buffer) in
  let fetching :=
    Printed ("Fetching remote file "
             +:+ FileDescriptor.name (FileBuffer.descriptor buffer) +:+ "...") in
  Client.fetch_file transmit buffer username s
  = match Communicator.communicators (fst s) !! com_id with
    | None => ([fetching], s, Raise KeyError)
    | Some descriptor =>
        let address := SPDescriptor.address descriptor in
        if decide (is_Some (Communicator.com_certificates (fst s) !! com_id)) then
          let '(effects, s', result) :=
            Client.fetch_file_request transmit buffer username com_id address s in
          (fetching
           :: Printed ("File is on trusted service provider " +:+ fmt_d com_id)
           :: effects, s', result)
        else
          let unknown :=
            [fetching;
             Printed ("File is on unknown service provider " +:+ fmt_d com_id);
             Printed "Attempting certificate exchange..."] in
          match Client.exchange_certificate transmit address s with
          | (exchange, s1, Ok true) =>
              let '(effects, s', result) :=
                Client.fetch_file_request transmit buffer username com_id address s1 in
              ((unknown ++ exchange
                ++ Printed "Certificate exchange completed successfully" :: effects)%list,
               s', result)
          | (exchange, s1, Ok false) => ((unknown ++ exchange)%list, s1, Ok CNone)
          | (exchange, s1, Raise e) => ((unknown ++ exchange)%list, s1, Raise e)
          end
    end.
Proof.
  intros com_id fetching.
  unfold Client.fetch_file. fold com_id.
  unfold Client.getitem, Client.print, Client.self, Client.ret, Client.raise, mbind,
    Client.M_bind, Client.bind.
  cbn [fst snd app].
  destruct (Communicator.communicators (fst s) !! com_id) as [descriptor|]; [|done].
  cbn [fst snd app]. case_decide.
  - cbn [fst snd app].
    by destruct (Client.fetch_file_request _ _ _ _ _ _) as [[effects s'] result].
  - cbn [fst snd app].
    destruct (Client.exchange_certificate _ _ _) as [[exchange s1] [[]|e]];
      cbn [negb fst snd app]; try (by rewrite ?app_nil_r).
    destruct (Client.fetch_file_request _ _ _ _ _ _) as [[effects s'] result].
    done.
Qed.

(** C4, amended.  For a file whose owning identifier is in the cached
    directory: when the identifier is in the certificate cache, no
    certificate request is sent; when it is not, exactly one certificate
    request is sent, it is the first message of the call, and when the
    exchange returns false the call returns [None] and no file request is
    sent (nor is one sent when the exchange raises). *)
Theorem fetch_file_exchange_attempts :
  ∀ s buffer (username : string) (descriptor : SPDescriptor.t),
    let com_id := FileDescriptor.com_id (FileBuffer.descriptor buffer) in
    Communicator.communicators (fst s) !! com_id = Some descriptor →
    let address := SPDescriptor.address descriptor in
    let attempt := Sent address (exchange_request_of (fst s)) in
    let '(effects, _, result) := Client.fetch_file transmit buffer username s in
    (is_Some (Communicator.com_certificates (fst s) !! com_id) →
     filter is_certificate_request effects = [])
    ∧ (Communicator.com_certificates (fst s) !! com_id = None →
       filter is_certificate_request effects = [attempt]
       ∧ head (filter is_sent effects) = Some attempt
       ∧ (∀ exchange s1,
            Client.exchange_certificate transmit address s = (exchange, s1, Ok false) →
            result = Ok CNone ∧ filter is_file_request effects = [])
       ∧ (∀ exchange s1 e,
            Client.exchange_certificate transmit address s = (exchange, s1, Raise e) →
            result = Raise e ∧ filter is_file_request effects = [])).
Proof.
  intros s buffer username descriptor com_id Hdir address attempt.
  pose proof (fetch_file_run s buffer username) as Hrun. cbv zeta in Hrun.
  fold com_id in Hrun. rewrite Hdir in Hrun. fold address in Hrun.
  rewrite Hrun. clear Hrun. case_decide as Hcache.
  - rewrite fetch_file_request_run. cbv zeta.
    assert (Communicator.com_certificates (fst s) !! com_id ≠ None) as Hsome.
    { intros Hnone. rewrite Hnone in Hcache. by destruct Hcache. }
    destruct (file_request_of (fst s) buffer username) as [request|e]; [|by split].
    destruct (transmit (snd s) address _) as [net [sent|]]; [|by split].
    destruct (loads_recv sent) as [reply|e]; [|by split].
    destruct (pickled_request reply); [by split|].
    destruct reply as [m|m]; [by split|].
    destruct (Communicator.com_keys (fst s) !! com_id) as [key|]; [|by split].
    by destruct (FileRequest.verify m key) as [[]|e]; split.
  - rewrite exchange_certificate_run. fold attempt.
    destruct (transmit (snd s) address (exchange_request_of (fst s)))
      as [net [sent|]];
      [destruct (loads_recv sent) as [reply|e]|].
    + destruct (Communicator.register_content (fst s) (pickled_content reply))
        as [self [[]|e]].
      * rewrite fetch_file_request_run. cbv zeta. cbn [fst snd].
        destruct (file_request_of self buffer username) as [request|e];
          [|by split; [|intros _; split_and!]].
        destruct (transmit net address _) as [net' [sent'|]];
          [|by split; [|intros _; split_and!]].
        destruct (loads_recv sent') as [reply'|e];
          [|by split; [|intros _; split_and!]].
        destruct (pickled_request reply'); [by split; [|intros _; split_and!]|].
        destruct reply' as [m|m]; [by split; [|intros _; split_and!]|].
        destruct (Communicator.com_keys self !! com_id) as [key|]; [|by split_and!].
        by destruct (FileRequest.verify m key) as [[]|e]; split_and!.
      * split; [done|intros _]; split_and!; try done; intros; by simplify_eq.
      * split; [done|intros _]; split_and!; try done; intros; by simplify_eq.
    + split; [done|intros _]; split_and!; try done; intros; by simplify_eq.
    + split; [done|intros _]; split_and!; try done; intros; by simplify_eq.
Qed.

(** A call of [fetch_file] is what comes before the construction of the
    file request, which neither sends a file request nor can be taken for
    the reply to one, and then, in two of its courses, the code from the
    construction of the file request on. *)
Lemma fetch_file_shape s buffer (username : string) :
  let com_id := FileDescriptor.com_id (FileBuffer.descriptor buffer) in
  ∃ before : list Effect,
    (∀ after, file_reply (before ++ after) = file_reply after)
    ∧ filter is_file_request before = []
    ∧ ((∃ s1 address,
          Client.fetch_file transmit buffer username s
          = let '(effects, s', result) :=
              Client.fetch_file_request transmit buffer username com_id address s1 in
            ((before ++ effects)%list, s', result))
       ∨ (∃ s' result,
            Client.fetch_file transmit buffer username s = (before, s', result))).
Proof.
  intros com_id.
  pose proof (fetch_file_run s buffer username) as Hrun. cbv zeta in Hrun.
  fold com_id in Hrun. rewrite Hrun. clear Hrun.
  destruct (Communicator.communicators (fst s) !! com_id) as [descriptor|];
    [|eexists; split_and!; [|  |right; by eexists _, _]; done].
  case_decide as Hcache.
  - exists [Printed ("Fetching remote file "
                     +:+ FileDescriptor.name (FileBuffer.descriptor buffer) +:+ "...");
            Printed ("File is on trusted service provider " +:+ fmt_d com_id)].
    split_and!; [done|done|]. left. exists s, (SPDescriptor.address descriptor).
    by destruct (Client.fetch_file_request _ _ _ _ _ s) as [[effects s'] result].
  - rewrite exchange_certificate_run.
    destruct (transmit (snd s) _ (exchange_request_of (fst s))) as [net [sent|]];
      [destruct (loads_recv sent) as [r|e]|];
      [|eexists; split_and!; [|  |right; by eexists _, _]; done..].
    destruct (Communicator.register_content (fst s) (pickled_content r))
      as [self [[]|e]];
      [|eexists; split_and!; [|  |right; by eexists _, _]; done..].
    exists ([Printed ("Fetching remote file "
                      +:+ FileDescriptor.name (FileBuffer.descriptor buffer) +:+ "...");
             Printed ("File is on unknown service provider " +:+ fmt_d com_id);
             Printed "Attempting certificate exchange..."]
            ++ [Sent (SPDescriptor.address descriptor) (exchange_request_of (fst s));
                Received r]
            ++ [Printed "Certificate exchange completed successfully"])%list.
    split_and!; [done|done|]. left. exists (self, net), (SPDescriptor.address descriptor).
    destruct (Client.fetch_file_request _ _ _ _ _ (self, net))
      as [[effects s'] result].
    by rewrite <- !app_assoc.
Qed.

(** What the code from the construction of the file request on returns
    when it received a reply. *)
Lemma fetch_file_request_reply_cases s buffer (username : string) (com_id : Z)
    (address : Address) (reply : Pickled) :
  let '(effects, s', result) :=
    Client.fetch_file_request transmit buffer username com_id address s in
  file_reply effects = Some reply →
  (pickled_request reply = true →
   result = Ok (pickled_content reply)
   ∧ Printed ("Service provider " +:+ fmt_d com_id +:+ " refused request") ∈ effects)
  ∧ (pickled_request reply = false →
     ∀ (m : FileRequest.t) (key : Key),
       reply = PFileRequest m →
       Communicator.com_keys (fst s') !! com_id = Some key →
       (FileRequest.verify m key = Ok true →
        result = Ok (CBuffer (FileRequest.content m))
        ∧ Printed "Message verified successfully" ∈ effects)
       ∧ (FileRequest.verify m key = Ok false →
          result = Ok (CBuffer (FileRequest.content m))
          ∧ Printed "Message verification failed" ∈ effects)
       ∧ (∀ e, FileRequest.verify m key = Raise e → result = Raise e)).
Proof.
  rewrite fetch_file_request_run. cbv zeta.
  destruct (file_request_of (fst s) buffer username) as [request|e]; [|done].
  destruct (transmit (snd s) _ _) as [net [sent|]]; [|done].
  destruct (loads_recv sent) as [r|e]; [|done].
  destruct (pickled_request r) eqn:Hr.
  - cbn [file_reply]. intros [= ->]. split.
    + intros _. split; [done|]. set_solver.
    + congruence.
  - destruct r as [m|m].
    + cbn [file_reply]. intros [= <-]. split; [congruence|]. by intros _ m' key.
    + cbn [fst]. destruct (Communicator.com_keys (fst s) !! com_id) as [key|] eqn:Hk.
      * destruct (FileRequest.verify m key) as [verified|e] eqn:Hv.
        -- cbn [file_reply]. intros [= <-].
           split; [congruence|]. intros _ m' key' [= <-] Hk'.
           cbn [fst] in Hk'. rewrite Hk in Hk'. injection Hk' as <-. rewrite Hv.
           split_and!; [intros [= ->]; split; [done|set_solver]..|done].
        -- cbn [file_reply]. intros [= <-].
           split; [congruence|]. intros _ m' key' [= <-] Hk'.
           cbn [fst] in Hk'. rewrite Hk in Hk'. injection Hk' as <-. rewrite Hv.
           split_and!; [done|done|]. by intros e' [= <-].
      * cbn [file_reply]. intros [= <-].
        split; [congruence|]. intros _ m' key' _ Hk'.
        cbn [fst] in Hk'. by rewrite Hk in Hk'.
Qed.

(** The reply is what [transmit] answered to the request as signed by the
    caller, and its pickle fits one receive. *)
Lemma fetch_file_request_origin s buffer (username : string) (com_id : Z)
    (address : Address) (reply : Pickled) :
  file_reply
    (fst (fst (Client.fetch_file_request transmit buffer username com_id address s)))
  = Some reply →
  ∃ request,
    file_request_of (fst s) buffer username = Ok request
    ∧ snd (transmit (snd s) address (PFileRequest request)) = Some reply
    ∧ fits reply = true.
Proof.
  rewrite fetch_file_request_run. cbv zeta.
  destruct (file_request_of (fst s) buffer username) as [request|e]; [|done].
  destruct (transmit (snd s) _ _) as [net [sent|]] eqn:E; [|done].
  unfold loads_recv. destruct (fits sent) eqn:Hfits; [|done].
  intros Hreply. exists request. split; [done|]. rewrite E. cbn [snd].
  assert (sent = reply) as <-; [|done].
  revert Hreply. destruct (pickled_request sent); [by intros [= ->]|].
  destruct sent as [m|m]; [by intros [= ->]|].
  destruct (Communicator.com_keys (fst s) !! _) as [key|]; [|by intros [= ->]].
  by destruct (FileRequest.verify m key); intros [= ->].
Qed.

(** A call that sent its file request and received no reply raises. *)
Lemma fetch_file_request_no_reply s buffer (username : string) (com_id : Z)
    (address : Address) :
  let '(effects, s', result) :=
    Client.fetch_file_request transmit buffer username com_id address s in
  filter is_file_request effects ≠ [] → file_reply effects = None →
  ∃ e, result = Raise e.
Proof.
  rewrite fetch_file_request_run. cbv zeta.
  destruct (file_request_of (fst s) buffer username) as [request|e]; [|by eexists].
  destruct (transmit (snd s) _ _) as [net [sent|]]; [|by eexists].
  destruct (loads_recv sent) as [r|e]; [|by eexists].
  destruct (pickled_request r); [done|].
  destruct r as [m|m]; [done|].
  destruct (Communicator.com_keys (fst s) !! _) as [key|]; [|done].
  by destruct (FileRequest.verify m key).
Qed.

Lemma fetch_file_reply_cases s buffer (username : string) (reply : Pickled) :
  let com_id := FileDescriptor.com_id (FileBuffer.descriptor buffer) in
  let '(effects, s', result) := Client.fetch_file transmit buffer username s in
  file_reply effects = Some reply →
  (pickled_request reply = true →
   result = Ok (pickled_content reply)
   ∧ Printed ("Service provider " +:+ fmt_d com_id +:+ " refused request") ∈ effects)
  ∧ (pickled_request reply = false →
     ∀ (m : FileRequest.t) (key : Key),
       reply = PFileRequest m →
       Communicator.com_keys (fst s') !! com_id = Some key →
       (FileRequest.verify m key = Ok true →
        result = Ok (CBuffer (FileRequest.content m))
        ∧ Printed "Message verified successfully" ∈ effects)
       ∧ (FileRequest.verify m key = Ok false →
          result = Ok (CBuffer (FileRequest.content m))
          ∧ Printed "Message verification failed" ∈ effects)
       ∧ (∀ e, FileRequest.verify m key = Raise e → result = Raise e)).
Proof.
  intros com_id.
  destruct (fetch_file_shape s buffer username)
    as (before & Happ & _ & [(s1 & address & ->)|(s' & result & ->)]).
  - fold com_id.
    pose proof (fetch_file_request_reply_cases s1 buffer username com_id address reply)
      as Hcases.
    destruct (Client.fetch_file_request _ _ _ _ _ s1) as [[effects s'] result].
    rewrite Happ. intros Hreply. destruct (Hcases Hreply) as [Hrefused Hanswered].
    split.
    + intros Hr. destruct (Hrefused Hr) as [-> Hin]. split; [done|].
      apply elem_of_app. by right.
    + intros Hr m key Hm Hkey.
      destruct (Hanswered Hr m key Hm Hkey) as (Htrue & Hfalse & Hraise).
      split_and!.
      * intros Hv. destruct (Htrue Hv) as [-> Hin]. split; [done|].
        apply elem_of_app. by right.
      * intros Hv. destruct (Hfalse Hv) as [-> Hin]. split; [done|].
        apply elem_of_app. by right.
      * exact Hraise.
  - specialize (Happ []). rewrite app_nil_r in Happ. by rewrite Happ.
Qed.

(** The reply to the file request is what [transmit] answered to the
    request signed by the caller. *)
Lemma file_reply_transmitted s buffer (username : string) (reply : Pickled) :
  file_reply (fst (fst (Client.fetch_file transmit buffer username s))) = Some reply →
  ∃ self net address request,
    file_request_of self buffer username = Ok request
    ∧ snd (transmit net address (PFileRequest request)) = Some reply
    ∧ fits reply = true.
Proof.
  destruct (fetch_file_shape s buffer username)
    as (before & Happ & _ & [(s1 & address & ->)|(s' & result & ->)]).
  - pose proof (fetch_file_request_origin s1 buffer username
                  (FileDescriptor.com_id (FileBuffer.descriptor buffer)) address reply)
      as Horigin.
    destruct (Client.fetch_file_request _ _ _ _ _ s1) as [[effects s'] result].
    cbn [fst] in *. rewrite Happ. intros Hreply.
    destruct (Horigin Hreply) as (request & Hrequest & Htransmit & Hfits).
    by exists (fst s1), (snd s1), address, request.
  - cbn [fst]. specialize (Happ []). rewrite app_nil_r in Happ. by rewrite Happ.
Qed.

Lemma fetch_file_no_reply s buffer (username : string) :
  let '(effects, s', result) := Client.fetch_file transmit buffer username s in
  filter is_file_request effects ≠ [] → file_reply effects = None →
  ∃ e, result = Raise e.
Proof.
  destruct (fetch_file_shape s buffer username)
    as (before & Happ & Hbefore & [(s1 & address & ->)|(s' & result & ->)]).
  - pose proof (fetch_file_request_no_reply s1 buffer username
                  (FileDescriptor.com_id (FileBuffer.descriptor buffer)) address)
      as Hnone.
    destruct (Client.fetch_file_request _ _ _ _ _ s1) as [[effects s'] result].
    rewrite Happ, filter_app, Hbefore. exact Hnone.
  - by rewrite Hbefore.
Qed.

(** X21. [publish] stamps the identifier of the publishing communicator on
    every descriptor, in place, before the list goes to the registry. *)
Lemma publish_stamps_descriptors s (files : Files) :
  let own := Certificate.com_id (Communicator.certificate (fst s)) in
  let stamped := Client.stamp (fst s) files in
  head (fst (fst (Client.publish transmit files s)))
  = Some (Sent (Communicator.cr_address (fst s))
            (PMessage (Message.mk Message.PUBLISH (CFiles stamped) true)))
  ∧ Forall (λ f, FileDescriptor.com_id f = own) (descriptors stamped)
  ∧ length stamped = length files
  ∧ objects stamped = objects files.
Proof.
  intros own stamped. split_and!.
  - unfold Client.publish, Client.send_and_get_reply, Client.exchange, Client.self,
      Client.ret, mbind, Client.M_bind, Client.bind.
    cbn [fst snd]. fold stamped.
    destruct (transmit (snd s) _ _) as [net [sent|]]; [|done].
    by destruct (loads_recv sent).
  - unfold stamped, Client.stamp, descriptors. rewrite map_map.
    apply Forall_forall. intros f Hf. apply list_elem_of_In, in_map_iff in Hf.
    by destruct Hf as (item & <- & _).
  - unfold stamped, Client.stamp. apply length_map.
  - unfold stamped, Client.stamp, objects. rewrite map_map. by apply map_ext.
Qed.
End Fetch.

(** A refusal that comes from the handler of a communicator carries the
    buffer of the request, as the caller sent it. *)
Lemma peer_refusal_content `{Crypto} `{Pickle} (server : Communicator.t)
    (address : Address) (self : Communicator.t) (buffer : FileBuffer.t)
    (username : string) (request : FileRequest.t) (reply : Pickled) :
  file_request_of self buffer username = Ok request →
  snd (peer server address (PFileRequest request)) = Some reply →
  pickled_request reply = true →
  pickled_content reply = CBuffer buffer.
Proof.
  unfold file_request_of. rewrite file_request_sign_cases.
  destruct (file_request_ascii _); [|done]. intros [= <-].
  destruct (fits (PFileRequest
                    (FileRequest.set_signature
                       (Some (RSA_sign (Communicator.key self)
                                (sha256 (file_request_bytes
                                           (FileRequest.init buffer
                                              (Certificate.com_id
                                                 (Communicator.certificate self))
                                              username)))))
                       (FileRequest.init buffer
                          (Certificate.com_id (Communicator.certificate self))
                          username)))) eqn:Hfits.
  - rewrite peer_fits by done. rewrite handle_file_request by done.
    destruct (Communicator.com_keys server !! _) as [key|]; [|done].
    destruct (FileRequest.verify _ key) as [[]|e]; cbn [snd]; try done.
    + cbv zeta. by destruct (forallb _ _); intros [= <-].
    + by intros [= <-].
  - by rewrite peer_cut.
Qed.

(** C8, amended.  A call that sent its file request and received a reply:
    when the reply has is_request=true the refusal is logged and the content
    of the reply is returned to the caller all the same; when it has
    is_request=false and a key is cached under the owning identifier, the
    signature of the reply is checked against that key: when the check
    returns, its result is logged and the content of the reply is returned
    whether the check succeeded or failed; when the check raises, as it
    does on a reply that holds a line that is not ASCII text, so does the
    call, and no content is returned.  A call that sent its file request
    and received no reply, because none was sent or because its pickle did
    not fit one receive, raises.  When the peer is a communicator of this
    program, the content returned upon a refusal is the buffer that the
    caller passed, as it was passed. *)
Theorem fetch_file_reply_delivery `{Crypto} `{Pickle} :
  (∀ (Net : Type) (transmit : Net → Address → Pickled → Net * option Pickled)
     (s : Communicator.t * Net) (buffer : FileBuffer.t) (username : string)
     (reply : Pickled),
     let com_id := FileDescriptor.com_id (FileBuffer.descriptor buffer) in
     let '(effects, s', result) := Client.fetch_file transmit buffer username s in
     file_reply effects = Some reply →
     (pickled_request reply = true →
      result = Ok (pickled_content reply)
      ∧ Printed ("Service provider " +:+ fmt_d com_id +:+ " refused request") ∈ effects)
     ∧ (pickled_request reply = false →
        ∀ (m : FileRequest.t) (key : Key),
          reply = PFileRequest m →
          Communicator.com_keys (fst s') !! com_id = Some key →
          (FileRequest.verify m key = Ok true →
           result = Ok (CBuffer (FileRequest.content m))
           ∧ Printed "Message verified successfully" ∈ effects)
          ∧ (FileRequest.verify m key = Ok false →
             result = Ok (CBuffer (FileRequest.content m))
             ∧ Printed "Message verification failed" ∈ effects)
          ∧ (∀ e, FileRequest.verify m key = Raise e → result = Raise e)))
  ∧ (∀ (Net : Type) (transmit : Net → Address → Pickled → Net * option Pickled)
       (s : Communicator.t * Net) (buffer : FileBuffer.t) (username : string),
       let '(effects, _, result) := Client.fetch_file transmit buffer username s in
       filter is_file_request effects ≠ [] → file_reply effects = None →
       ∃ e, result = Raise e)
  ∧ (∀ (a b : Communicator.t) (buffer : FileBuffer.t) (username : string)
       (reply : Pickled),
       let '(effects, _, result) := Client.fetch_file peer buffer username (a, b) in
       file_reply effects = Some reply →
       pickled_request reply = true →
       result = Ok (CBuffer buffer)).
Proof.
  split_and!.
  - intros Net transmit. apply fetch_file_reply_cases.
  - intros Net transmit s buffer username.
    pose proof (fetch_file_no_reply transmit s buffer username) as Hnone.
    by destruct (Client.fetch_file transmit buffer username s) as [[effects s'] result].
  - intros a b buffer username reply.
    pose proof (fetch_file_reply_cases peer (a, b) buffer username reply) as Hcases.
    pose proof (file_reply_transmitted peer (a, b) buffer username reply) as Horigin.
    cbv zeta in Hcases.
    destruct (Client.fetch_file peer buffer username (a, b)) as [[effects s'] result].
    cbn [fst] in Horigin. intros Hreply Hrefused.
    destruct (Hcases Hreply) as [Hresult _].
    destruct (Hresult Hrefused) as [-> _].
    destruct (Horigin Hreply) as (self & net & address & request & Hrequest & Htransmit & _).
    f_equal. by eapply peer_refusal_content.
Qed.

(** ** The registry over its whole life *)

Section RegistryLife.
Context `{Crypto} `{Pickle}.
Implicit Types (server : CentralRegistry.t) (message : Message.t) (sent : Pickled).
Implicit Types (files : Files).

#[local] Arguments CentralRegistry.publish : simpl never.
#[local] Arguments RequestHandler.serve : simpl never.
#[local] Arguments RequestHandler.handle : simpl never.
#[local] Arguments RequestHandler.receive : simpl never.

Lemma handle_identity server message :
  let server' := fst (RequestHandler.handle server message) in
  CentralRegistry.name server' = CentralRegistry.name server
  ∧ CentralRegistry.address server' = CentralRegistry.address server
  ∧ CentralRegistry.key server' = CentralRegistry.key server
  ∧ CentralRegistry.certificate server' = CentralRegistry.certificate server
  ∧ (CentralRegistry.com_id_counter server
     ≤ CentralRegistry.com_id_counter server')%Z
  ∧ (CentralRegistry.file_id_counter server
     ≤ CentralRegistry.file_id_counter server')%Z.
Proof.
  destruct message as [ty co rq]. unfold RequestHandler.handle. cbn [Message.type
    Message.content Message.set_request].
  repeat case_decide; subst; try (by split_and!).
  - destruct co; try (by split_and!).
    destruct (is_ascii (Certificate.name certificate)) eqn:Ha.
    + rewrite register_certificate_ascii by done. cbn. split_and!; try done; lia.
    + rewrite register_certificate_raise by done. cbn. split_and!; try done; lia.
  - destruct co as [| |[|f fs]| | |]; try (by split_and!).
    pose proof (publish_frame server (f :: fs)) as F.
    pose proof (publish_file_id_counter server (f :: fs)) as C.
    destruct (CentralRegistry.publish server (f :: fs)) as [server' files'].
    cbn [fst] in *. destruct F as (-> & -> & -> & -> & -> & _).
    split_and!; try done. lia.
Qed.

Lemma receive_identity server sent :
  let server' := fst (RequestHandler.receive server sent) in
  CentralRegistry.name server' = CentralRegistry.name server
  ∧ CentralRegistry.address server' = CentralRegistry.address server
  ∧ CentralRegistry.key server' = CentralRegistry.key server
  ∧ CentralRegistry.certificate server' = CentralRegistry.certificate server
  ∧ (CentralRegistry.com_id_counter server
     ≤ CentralRegistry.com_id_counter server')%Z
  ∧ (CentralRegistry.file_id_counter server
     ≤ CentralRegistry.file_id_counter server')%Z.
Proof.
  destruct (fits sent) eqn:Hfits.
  - rewrite receive_fits by done. apply handle_identity.
  - rewrite receive_cut by done. by split_and!.
Qed.









(** X2. Whatever is sent to the registry, it keeps its name, its address,
    its key and its certificate, and neither counter ever decreases. *)
Theorem registry_identity_kept :
  ∀ server (messages : list Pickled),
    let server' := fst (RequestHandler.serve server messages) in
    CentralRegistry.name server' = CentralRegistry.name server
    ∧ CentralRegistry.address server' = CentralRegistry.address server
    ∧ CentralRegistry.key server' = CentralRegistry.key server
    ∧ CentralRegistry.certificate server' = CentralRegistry.certificate server
    ∧ (CentralRegistry.com_id_counter server
       ≤ CentralRegistry.com_id_counter server')%Z
    ∧ (CentralRegistry.file_id_counter server
       ≤ CentralRegistry.file_id_counter server')%Z.
Proof.
  intros server messages. revert server.
  induction messages as [|sent messages IH]; intros server; [by split_and!|].
  cbv zeta. rewrite serve_cons. cbn [fst].
  destruct (IH (fst (RequestHandler.receive server sent)))
    as (E1 & E2 & E3 & E4 & L1 & L2).
  destruct (receive_identity server sent) as (F1 & F2 & F3 & F4 & M1 & M2).
  cbv zeta in *. rewrite E1, E2, E3, E4. split_and!; try done; lia.
Qed.
End RegistryLife.

(** ** Trust in certificates *)

Section Trust.
Context `{Crypto} `{Pickle}.
Implicit Types (self server : Communicator.t) (c : Certificate.t).

(** X3. The signature of a certificate covers its name and public key only:
    a certificate that verifies keeps verifying whatever address and
    identifier it is given, and [register_certificate] then caches it and
    its key under that identifier, in place of what was cached there. *)
Theorem relabelled_certificate_accepted :
  ∀ self c (address : Address) (i : Z),
    Certificate.verify c (Communicator.cr_key self) = Ok true →
    let c' :=
      Certificate.mk (Certificate.name c) address (Certificate.public_key c)
        (Certificate.signature c) i in
    let '(self', accepted) := Communicator.register_certificate self (Some c') in
    accepted = Ok true
    ∧ Communicator.com_certificates self' !! i = Some c'
    ∧ Communicator.com_keys self' !! i = Some (get_rsa_key (Certificate.public_key c))
    ∧ (∀ k, k ≠ i →
         Communicator.com_certificates self' !! k = Communicator.com_certificates self !! k
         ∧ Communicator.com_keys self' !! k = Communicator.com_keys self !! k).
Proof.
  intros self c address i Hv c'.
  assert (Certificate.verify c' (Communicator.cr_key self) = Ok true) as Hv' by exact Hv.
  rewrite (register_certificate_accept self c' Hv').
  cbn [Communicator.com_certificates Communicator.com_keys Certificate.com_id
       Certificate.public_key c'].
  split_and!; [done|by rewrite lookup_insert_eq..|].
  intros k Hk. by rewrite !lookup_insert_ne.
Qed.

End Trust.

(** ** The communicator over its whole life *)

Section CommunicatorLife.
Context `{Crypto} `{Pickle}.
Implicit Types (self server : Communicator.t) (c : Certificate.t).

Lemma register_certificate_kept self (certificate : option Certificate.t) :
  let self' := fst (Communicator.register_certificate self certificate) in
  same_identity self self'
  ∧ Communicator.loader self' = Communicator.loader self
  ∧ (aligned self → aligned self')
  ∧ (∀ k, is_Some (Communicator.com_keys self !! k) →
          is_Some (Communicator.com_keys self' !! k)).
Proof.
  destruct certificate as [c|]; [|by split_and!].
  destruct (Certificate.verify c (Communicator.cr_key self)) as [[]|e] eqn:Hv.
  - rewrite register_certificate_accept by done. cbn [fst]. split_and!.
    + by split_and!.
    + done.
    + intros Hal k. simpl.
      destruct (decide (Certificate.com_id c = k)) as [<-|Hne].
      * rewrite !lookup_insert_eq. split; by eexists.
      * rewrite !lookup_insert_ne by done. apply Hal.
    + intros k. simpl. destruct (decide (Certificate.com_id c = k)) as [<-|Hne].
      * rewrite lookup_insert_eq. by eexists.
      * by rewrite lookup_insert_ne.
  - rewrite register_certificate_reject by done. by split_and!.
  - rewrite (register_certificate_raises _ _ e) by done. by split_and!.
Qed.

Lemma handle_state server (message : Pickled) :
  snd (fst (CommunicatorHandler.handle server message)) = server
  ∨ ∃ c, snd (fst (CommunicatorHandler.handle server message))
         = fst (Communicator.register_certificate server (Some c)).
Proof.
  destruct message as [m|m]; unfold CommunicatorHandler.handle.
  - repeat case_decide; try (by left).
    unfold Communicator.register_content.
    destruct (Message.content (Message.set_request false m)); try (by left).
    right. exists certificate.
    by destruct (Communicator.register_certificate server (Some certificate))
      as [server' [[]|]].
  - repeat case_decide; try (by left).
    destruct (_ !! _); [|by left].
    destruct (FileRequest.verify _ _) as [[]|]; try (by left).
    by destruct (FileRequest.sign _ _); left.
Qed.

Lemma receive_kept server (sent : Pickled) :
  let server' := snd (fst (CommunicatorHandler.receive server sent)) in
  same_identity server server'
  ∧ Communicator.loader server' = Communicator.loader server
  ∧ (aligned server → aligned server')
  ∧ (∀ k, is_Some (Communicator.com_keys server !! k) →
          is_Some (Communicator.com_keys server' !! k)).
Proof.
  destruct (fits sent) eqn:Hfits.
  - rewrite communicator_receive_fits by done. cbv zeta.
    destruct (handle_state server sent) as [->|[c ->]].
    + by split_and!.
    + apply register_certificate_kept.
  - rewrite communicator_receive_cut by done. by split_and!.
Qed.

Lemma handle_kept server (message : Pickled) :
  let server' := snd (fst (CommunicatorHandler.handle server message)) in
  same_identity server server'
  ∧ Communicator.loader server' = Communicator.loader server
  ∧ (aligned server → aligned server')
  ∧ (∀ k, is_Some (Communicator.com_keys server !! k) →
          is_Some (Communicator.com_keys server' !! k)).
Proof.
  cbv zeta. destruct (handle_state server message) as [->|[c ->]].
  - by split_and!.
  - apply register_certificate_kept.
Qed.

(** X5. The handler of a communicator answers is_request=true to nothing
    but a FETCH_FILE file request whose source has a cached key and whose
    signature does not verify, and it invokes the loader on nothing but a
    FETCH_FILE file request that verifies; a message of a type other than
    CERTIFICATE and FETCH_FILE is returned with is_request=false.  No
    request changes the identity of the communicator, its directory or its
    registry key, and no request removes a cached key. *)
Theorem communicator_handler_discipline :
  ∀ server (message : Pickled),
    let '(effects, server', reply) := CommunicatorHandler.handle server message in
    (∀ out, reply = Ok out → pickled_request out = true →
       effects = [] ∧ server' = server
       ∧ ∃ m key, message = PFileRequest m
                  ∧ FileRequest.type m = Message.FETCH_FILE
                  ∧ Communicator.com_keys server !! FileRequest.src_com_id m = Some key
                  ∧ FileRequest.verify m key = Ok false)
    ∧ (effects ≠ [] →
       ∃ m key, message = PFileRequest m
                ∧ FileRequest.type m = Message.FETCH_FILE
                ∧ effects = [Loaded (FileRequest.content m)]
                ∧ Communicator.com_keys server !! FileRequest.src_com_id m = Some key
                ∧ FileRequest.verify m key = Ok true)
    ∧ (∀ m, message = PMessage m →
         Message.type m ≠ Message.CERTIFICATE → Message.type m ≠ Message.FETCH_FILE →
         reply = Ok (PMessage (Message.mk (Message.type m) (Message.content m) false))
         ∧ server' = server)
    ∧ same_identity server server'
    ∧ (∀ k, is_Some (Communicator.com_keys server !! k) →
            is_Some (Communicator.com_keys server' !! k)).
Proof.
  intros server message.
  pose proof (handle_kept server message) as (Hid & _ & _ & Hkeys). cbv zeta in Hid, Hkeys.
  destruct (CommunicatorHandler.handle server message) as [[effects server'] reply] eqn:E.
  cbn [fst snd] in Hid, Hkeys. split_and!; [| | |done|done].
  - intros out -> Hout. revert E. destruct message as [m|m];
      unfold CommunicatorHandler.handle.
    + repeat case_decide.
      * destruct (Communicator.register_content _ _) as [? [[]|?]];
          intros E; by simplify_eq.
      * done.
      * intros [= <- <- <-]. done.
    + repeat case_decide; [done| |by intros [= <- <- <-]].
      cbn [FileRequest.src_com_id FileRequest.set_request].
      destruct (Communicator.com_keys server !! FileRequest.src_com_id m)
        as [key|] eqn:Hk; [|done].
      destruct (FileRequest.verify (FileRequest.set_request false m) key)
        as [[]|e] eqn:Hv.
      * rewrite file_request_sign_cases.
        destruct (file_request_ascii _); intros E; by simplify_eq.
      * intros [= <- <- <-]. split_and!; [done..|]. exists m, key. by split_and!.
      * done.
  - intros Heff. revert E. destruct message as [m|m];
      unfold CommunicatorHandler.handle.
    + repeat case_decide; try (by intros [= <- <- <-]).
      destruct (Communicator.register_content _ _) as [? [[]|?]];
        by intros [= <- <- <-].
    + repeat case_decide; try (by intros [= <- <- <-]).
      cbn [FileRequest.src_com_id FileRequest.set_request].
      destruct (Communicator.com_keys server !! FileRequest.src_com_id m)
        as [key|] eqn:Hk; [|by intros [= <- <- <-]].
      destruct (FileRequest.verify (FileRequest.set_request false m) key)
        as [[]|e] eqn:Hv; [|by intros [= <- <- <-]..].
      destruct (FileRequest.sign _ _); intros [= <- <- <-];
        exists m, key; by split_and!.
  - intros m -> Hc Hf. revert E. unfold CommunicatorHandler.handle.
    cbn [Message.type Message.set_request]. rewrite !decide_False by done.
    by intros [= <- <- <-].
Qed.

(** X6. Whatever a communicator is sent, as long as it serves: every key
    that it caches is the imported public key of a cached certificate that
    bears the identifier it is filed under and verifies against the
    registry's key, the two caches keep the same identifiers, and the
    identity of the communicator does not change. *)
Theorem served_communicator_certified :
  ∀ server (messages : list Pickled),
    certified server → aligned server →
    let server' := fst (CommunicatorServer.serve server messages) in
    certified server' ∧ aligned server' ∧ same_identity server server'.
Proof.
  intros server messages. revert server.
  induction messages as [|message messages IH]; intros server Hc Ha.
  - by split_and!.
  - cbv zeta. cbn [CommunicatorServer.serve].
    pose proof (certified_receive server message Hc) as Hc'.
    pose proof (receive_kept server message) as (Hid & _ & Ha' & _). cbv zeta in Hid, Ha'.
    destruct (CommunicatorHandler.receive server message) as [[effects server1] reply].
    cbn [fst snd] in Hc', Hid, Ha'.
    destruct (IH server1 Hc' (Ha' Ha)) as (IH1 & IH2 & IH3). cbv zeta in IH1, IH2, IH3.
    destruct (CommunicatorServer.serve server1 messages) as [server' replies].
    cbn [fst] in *. split_and!; [done..|].
    destruct Hid as (? & ? & ? & ? & ? & ? & ? & ?).
    destruct IH3 as (? & ? & ? & ? & ? & ? & ? & ?).
    unfold same_identity. split_and!; congruence.
Qed.
End CommunicatorLife.

(** ** The client role on any network *)

Section ClientLife.
Context `{Crypto} `{Pickle} {Net : Type}.
Variable transmit : Net → Address → Pickled → Net * option Pickled.
Implicit Types (s : Communicator.t * Net) (buffer : FileBuffer.t).

Lemma exchange_certificate_state s (address : Address) :
  let self' := fst (snd (fst (Client.exchange_certificate transmit address s))) in
  self' = fst s
  ∨ ∃ c, self' = fst (Communicator.register_certificate (fst s) (Some c)).
Proof.
  cbv zeta. rewrite exchange_certificate_run.
  destruct (transmit (snd s) address _) as [net [sent|]]; [|by left].
  destruct (loads_recv sent) as [reply|e]; [|by left].
  unfold Communicator.register_content.
  destruct (pickled_content reply); try (by left).
  right. exists certificate.
  by destruct (Communicator.register_certificate (fst s) (Some certificate)).
Qed.

Lemma fetch_file_request_state s buffer (username : string) (com_id : Z)
    (address : Address) :
  fst (snd (fst (Client.fetch_file_request transmit buffer username com_id address s)))
  = fst s.
Proof.
  rewrite fetch_file_request_run. cbv zeta.
  destruct (file_request_of (fst s) buffer username) as [request|e]; [|done].
  destruct (transmit (snd s) address _) as [net [sent|]]; [|done].
  destruct (loads_recv sent) as [reply|e]; [|done].
  destruct (pickled_request reply); [done|].
  destruct reply as [m|m]; [done|].
  destruct (Communicator.com_keys (fst s) !! com_id) as [key|]; [|done].
  by destruct (FileRequest.verify m key).
Qed.

Lemma fetch_file_state s buffer (username : string) :
  let self' := fst (snd (fst (Client.fetch_file transmit buffer username s))) in
  self' = fst s
  ∨ ∃ c, self' = fst (Communicator.register_certificate (fst s) (Some c)).
Proof.
  cbv zeta. pose proof (fetch_file_run transmit s buffer username) as Hrun. cbv zeta in Hrun.
  rewrite Hrun. clear Hrun.
  destruct (Communicator.communicators (fst s) !! _) as [descriptor|]; [|by left].
  case_decide.
  - pose proof (fetch_file_request_state s buffer username
                  (FileDescriptor.com_id (FileBuffer.descriptor buffer))
                  (SPDescriptor.address descriptor)) as Hs.
    destruct (Client.fetch_file_request _ _ _ _ _ s) as [[effects s'] result].
    left. exact Hs.
  - pose proof (exchange_certificate_state s (SPDescriptor.address descriptor)) as Hx.
    cbv zeta in Hx.
    destruct (Client.exchange_certificate _ _ s) as [[exchange s1] [[]|e]];
      cbn [fst snd] in Hx; [|done..].
    pose proof (fetch_file_request_state s1 buffer username
                  (FileDescriptor.com_id (FileBuffer.descriptor buffer))
                  (SPDescriptor.address descriptor)) as Hs.
    destruct (Client.fetch_file_request _ _ _ _ _ s1) as [[effects s'] result].
    cbn [fst snd] in *. by rewrite Hs.
Qed.

(** X7. Whatever the network answers, a certificate exchange and a file
    fetch leave a communicator in which every cached key is the imported
    public key of a cached certificate that bears the identifier it is
    filed under and verifies against the registry's key; the caches keep
    the same identifiers, no cached key is removed and the identity of the
    communicator does not change. *)
Theorem client_keeps_certified :
  ∀ s buffer (username : string) (address : Address),
    certified (fst s) → aligned (fst s) →
    (let self' := fst (snd (fst (Client.exchange_certificate transmit address s))) in
     certified self' ∧ aligned self' ∧ same_identity (fst s) self'
     ∧ ∀ k, is_Some (Communicator.com_keys (fst s) !! k) →
            is_Some (Communicator.com_keys self' !! k))
    ∧ (let self' := fst (snd (fst (Client.fetch_file transmit buffer username s))) in
       certified self' ∧ aligned self' ∧ same_identity (fst s) self'
       ∧ ∀ k, is_Some (Communicator.com_keys (fst s) !! k) →
              is_Some (Communicator.com_keys self' !! k)).
Proof.
  intros s buffer username address Hc Ha.
  assert (∀ self',
    self' = fst s
    ∨ (∃ c, self' = fst (Communicator.register_certificate (fst s) (Some c))) →
    certified self' ∧ aligned self' ∧ same_identity (fst s) self'
    ∧ ∀ k, is_Some (Communicator.com_keys (fst s) !! k) →
           is_Some (Communicator.com_keys self' !! k)) as Hstep.
  { intros self' [->|[c ->]].
    - by split_and!.
    - pose proof (register_certificate_kept (fst s) (Some c)) as (Hid & _ & Hal & Hk).
      split_and!; [by apply certified_register|by apply Hal|done|done]. }
  split.
  - apply Hstep, exchange_certificate_state.
  - apply Hstep, fetch_file_state.
Qed.
End ClientLife.

(** ** Two communicators *)

Section Peers.
Context `{Crypto} `{Pickle}.
Implicit Types (a b : Communicator.t) (buffer : FileBuffer.t).









End Peers.

(** ** A communicator and the registry *)

Section WithRegistry.
Context `{Crypto} `{Pickle}.
Implicit Types (a b : Communicator.t) (registry : CentralRegistry.t).
Implicit Types (files : Files).

#[local] Arguments CentralRegistry.publish : simpl never.
#[local] Arguments RequestHandler.handle : simpl never.
#[local] Arguments RequestHandler.receive : simpl never.

Lemma registry_send_and_get_reply a registry (message : Message.t) (address : Address) :
  Client.send_and_get_reply registry_link message address (a, registry)
  = match RequestHandler.receive registry (PMessage message) with
    | (registry', Ok reply) =>
        if fits (PMessage reply) then
          ([Sent address (PMessage message); Received (PMessage reply)],
           (a, registry'), Ok (Message.content reply))
        else
          ([Sent address (PMessage message)], (a, registry'), Raise UnpicklingError)
    | (registry', Raise _) =>
        ([Sent address (PMessage message)], (a, registry'), Raise EOFError)
    end.
Proof.
  unfold Client.send_and_get_reply, Client.exchange, Client.ret, mbind, Client.M_bind,
    Client.bind, registry_link. cbn [fst snd].
  destruct (RequestHandler.receive registry (PMessage message))
    as [registry' [reply|e]]; [|done].
  unfold loads_recv. by destruct (fits (PMessage reply)).
Qed.







(** [fetch_remote] at the registry, whatever the length of the pickles. *)
Lemma fetch_remote_run a registry :
  let cr := Communicator.cr_address a in
  let providers :=
    PMessage (Message.mk Message.FETCH_SP
                (CProviders (CentralRegistry.service_providers registry)) false) in
  let public :=
    PMessage (Message.mk Message.FETCH_FILE
                (CPublic (CentralRegistry.public_files registry)) false) in
  let a' :=
    RegistryClient.set_communicators (CentralRegistry.service_providers registry) a in
  RegistryClient.fetch_remote registry_link (a, registry)
  = if fits providers then
      if fits public then
        ([Sent cr (PMessage (Message.mk Message.FETCH_SP CNone true));
          Received providers;
          Sent cr (PMessage (Message.mk Message.FETCH_FILE CNone true));
          Received public],
         (a', registry),
         Ok (CProviders (CentralRegistry.service_providers registry),
             CPublic (filter
                        (λ kv, FileDescriptor.com_id (snd kv)
                               ≠ Certificate.com_id (Communicator.certificate a))
                        (CentralRegistry.public_files registry))))
      else
        ([Sent cr (PMessage (Message.mk Message.FETCH_SP CNone true));
          Received providers;
          Sent cr (PMessage (Message.mk Message.FETCH_FILE CNone true))],
         (a', registry), Raise UnpicklingError)
    else
      ([Sent cr (PMessage (Message.mk Message.FETCH_SP CNone true))],
       (a, registry), Raise UnpicklingError).
Proof.
  cbv zeta.
  unfold RegistryClient.fetch_remote, mbind, mret, RegistryClient.M_bind,
    RegistryClient.M_ret.
  unfold Client.bind at 1. unfold Client.self at 1. cbn [fst snd].
  unfold Client.bind at 1. rewrite registry_send_and_get_reply.
  rewrite receive_short by done.
  change (RequestHandler.handle registry (Message.mk Message.FETCH_SP CNone true))
    with (registry,
          Ok (Message.mk Message.FETCH_SP
                (CProviders (CentralRegistry.service_providers registry)) false)).
  cbv beta iota.
  destruct (fits (PMessage (Message.mk Message.FETCH_SP _ _))); [|reflexivity].
  cbn [Message.content].
  unfold Client.bind at 1. unfold RegistryClient.assign_communicators at 1.
  cbn [fst snd].
  unfold Client.bind at 1. unfold Client.self at 1. cbn [fst snd].
  unfold Client.bind at 1. rewrite registry_send_and_get_reply.
  rewrite receive_short by done.
  change (RequestHandler.handle registry (Message.mk Message.FETCH_FILE CNone true))
    with (registry,
          Ok (Message.mk Message.FETCH_FILE
                (CPublic (CentralRegistry.public_files registry)) false)).
  cbv beta iota.
  destruct (fits (PMessage (Message.mk Message.FETCH_FILE _ _))); [|reflexivity].
  cbn [Message.content].
  unfold Client.bind, Client.self, RegistryClient.others_files, Client.ret.
  cbn [fst snd app]. reflexivity.
Qed.

(** X12. [fetch_remote] at the registry, when the pickles of the two
    directories fit one receive each: the communicator takes the
    registry's directory of service providers as its own, the registry is
    unchanged, and the call returns the registry's public files less those
    that bear the communicator's own identifier: a file is returned exactly
    when it is public and owned by another communicator. *)
Theorem fetch_remote_returns_the_files_of_others :
  ∀ a registry,
    fits (PMessage (Message.mk Message.FETCH_SP
                      (CProviders (CentralRegistry.service_providers registry)) false))
    = true →
    fits (PMessage (Message.mk Message.FETCH_FILE
                      (CPublic (CentralRegistry.public_files registry)) false))
    = true →
    let own := Certificate.com_id (Communicator.certificate a) in
    ∃ effects (remote : gmap Z FileDescriptor.t),
      RegistryClient.fetch_remote registry_link (a, registry)
      = (effects,
         (RegistryClient.set_communicators (CentralRegistry.service_providers registry) a,
          registry),
         Ok (CProviders (CentralRegistry.service_providers registry), CPublic remote))
      ∧ (∀ i f, remote !! i = Some f
                ↔ CentralRegistry.public_files registry !! i = Some f
                  ∧ FileDescriptor.com_id f ≠ own)
      ∧ filter is_sent effects
        = [Sent (Communicator.cr_address a)
             (PMessage (Message.mk Message.FETCH_SP CNone true));
           Sent (Communicator.cr_address a)
             (PMessage (Message.mk Message.FETCH_FILE CNone true))].
Proof.
  intros a registry Hproviders Hpublic own. rewrite fetch_remote_run. cbv zeta.
  rewrite Hproviders, Hpublic.
  eexists _, _. split_and!; [reflexivity| |reflexivity].
  intros i f. by rewrite map_lookup_filter_Some.
Qed.

Lemma publish_run a registry files :
  Client.publish registry_link files (a, registry)
  = let request :=
      Message.mk Message.PUBLISH (CFiles (Client.stamp a files)) true in
    match RequestHandler.receive registry (PMessage request) with
    | (registry', Ok reply) =>
        if fits (PMessage reply) then
          ([Sent (Communicator.cr_address a) (PMessage request);
            Received (PMessage reply)],
           (a, registry'), Ok (Message.content reply))
        else
          ([Sent (Communicator.cr_address a) (PMessage request)], (a, registry'),
           Raise UnpicklingError)
    | (registry', Raise _) =>
        ([Sent (Communicator.cr_address a) (PMessage request)], (a, registry'),
         Raise EOFError)
    end.
Proof.
  unfold Client.publish, mbind, Client.M_bind.
  unfold Client.bind at 1. unfold Client.self at 1. cbn [fst snd].
  rewrite registry_send_and_get_reply. cbv zeta.
  destruct (RequestHandler.receive registry _) as [registry' [reply|e]];
    [|reflexivity].
  destruct (fits (PMessage reply)); reflexivity.
Qed.

Lemma stamp_cons a (f : nat * FileDescriptor.t) files :
  Client.stamp a (f :: files)
  = (fst f,
     FileDescriptor.set_com_id (Certificate.com_id (Communicator.certificate a)) (snd f))
    :: Client.stamp a files.
Proof. reflexivity. Qed.

Lemma stamp_length a files : length (Client.stamp a files) = length files.
Proof. unfold Client.stamp. apply length_map. Qed.

Lemma stamp_objects a files : objects (Client.stamp a files) = objects files.
Proof. unfold Client.stamp, objects. rewrite map_map. by apply map_ext. Qed.

Lemma stamp_com_ids a files :
  Forall (λ f, FileDescriptor.com_id f
               = Certificate.com_id (Communicator.certificate a))
    (descriptors (Client.stamp a files)).
Proof.
  unfold Client.stamp, descriptors. rewrite map_map. apply Forall_forall.
  intros f Hf. apply list_elem_of_In, in_map_iff in Hf. by destruct Hf as (item & <- & _).
Qed.

Lemma publish_com_ids registry files (own : Z) :
  Forall (λ f, FileDescriptor.com_id f = own) (descriptors files) →
  Forall (λ f, FileDescriptor.com_id f = own)
    (descriptors (snd (CentralRegistry.publish registry files))).
Proof.
  rewrite publish_unfold. cbv zeta. cbn [snd]. unfold relabelled, descriptors.
  rewrite map_map, !Forall_forall. intros Hown f Hf.
  apply list_elem_of_In, in_map_iff in Hf. destruct Hf as (item & <- & Hitem).
  assert (FileDescriptor.com_id (snd item) = own) as Hid.
  { apply Hown, list_elem_of_In, in_map_iff. by exists item. }
  cbn [fst snd]. by destruct (assigned _ _ _).
Qed.

Lemma publish_names registry files :
  map FileDescriptor.name (descriptors (snd (CentralRegistry.publish registry files)))
  = map FileDescriptor.name (descriptors files).
Proof.
  rewrite publish_unfold. cbv zeta. cbn [snd]. unfold relabelled, descriptors.
  rewrite !map_map. apply map_ext. intros item. cbn [fst snd].
  by destruct (assigned _ _ _).
Qed.

(** What [publish] at the registry returns for a list of distinct objects
    with a first descriptor, when the pickles of the request and of the
    reply fit one receive each. *)
Lemma publish_distinct_run a registry (f : nat * FileDescriptor.t) (fs : Files) :
  let stamped := Client.stamp a (f :: fs) in
  let request := PMessage (Message.mk Message.PUBLISH (CFiles stamped) true) in
  let published := snd (CentralRegistry.publish registry stamped) in
  fits request = true →
  fits (PMessage (Message.mk Message.PUBLISH (CFiles published) false)) = true →
  Client.publish registry_link (f :: fs) (a, registry)
  = ([Sent (Communicator.cr_address a) request;
      Received (PMessage (Message.mk Message.PUBLISH (CFiles published) false))],
     (a, fst (CentralRegistry.publish registry stamped)), Ok (CFiles published)).
Proof.
  intros stamped request published Hrequest Hreply.
  rewrite publish_run. cbv zeta. fold stamped.
  unfold stamped at 1. rewrite stamp_cons.
  rewrite receive_publish by (rewrite <- stamp_cons; exact Hrequest).
  rewrite <- stamp_cons. fold stamped. fold published. by rewrite Hreply.
Qed.

Lemma published_filed registry files (d : FileDescriptor.t) :
  NoDup (objects files) →
  d ∈ descriptors (snd (CentralRegistry.publish registry files)) →
  CentralRegistry.public_files (fst (CentralRegistry.publish registry files))
    !! FileDescriptor.file_id d = Some d.
Proof.
  intros Hnodup Hd. apply list_elem_of_lookup in Hd as [i Hd].
  unfold descriptors in Hd. rewrite lookup_map in Hd.
  destruct (snd (CentralRegistry.publish registry files) !! i) as [[o g]|] eqn:Hg;
    [|done].
  injection Hd as <-.
  destruct (publish_distinct_inv registry files i o g Hnodup Hg) as (f & _ & -> & Hdir).
  exact Hdir.
Qed.

(** X13. [publish] at the registry.  For a list of distinct objects with a
    first descriptor, when the pickles of the request and of the reply fit
    one receive each, the call returns the list as the registry numbered
    it: as many descriptors as were passed, each bearing the publisher's
    identifier, with the consecutive file identifiers that continue the
    registry's counter, and each filed in the registry's public directory
    under its identifier.  For the empty list, whose pickle fits one
    receive, the registry does not answer: the call raises [EOFError] and
    the registry is unchanged. *)
Theorem publish_at_the_registry :
  ∀ a registry,
    let own := Certificate.com_id (Communicator.certificate a) in
    let k := CentralRegistry.file_id_counter registry in
    (∀ f fs,
       NoDup (objects (f :: fs)) →
       fits (PMessage (Message.mk Message.PUBLISH (CFiles (Client.stamp a (f :: fs)))
                         true)) = true →
       fits (PMessage
               (Message.mk Message.PUBLISH
                  (CFiles (snd (CentralRegistry.publish registry
                                  (Client.stamp a (f :: fs)))))
                  false)) = true →
       ∃ effects registry' published,
         Client.publish registry_link (f :: fs) (a, registry)
         = (effects, (a, registry'), Ok (CFiles published))
         ∧ length published = length (f :: fs)
         ∧ objects published = objects (f :: fs)
         ∧ Forall (λ d, FileDescriptor.com_id d = own) (descriptors published)
         ∧ map FileDescriptor.file_id (descriptors published)
           = seqZ k (Z.of_nat (length (f :: fs)))
         ∧ map FileDescriptor.name (descriptors published)
           = map FileDescriptor.name (descriptors (f :: fs))
         ∧ (∀ d, d ∈ descriptors published →
              CentralRegistry.public_files registry' !! FileDescriptor.file_id d = Some d)
         ∧ CentralRegistry.file_id_counter registry' = k + Z.of_nat (length (f :: fs)))
    ∧ (fits (PMessage (Message.mk Message.PUBLISH (CFiles []) true)) = true →
       Client.publish registry_link [] (a, registry)
       = ([Sent (Communicator.cr_address a)
             (PMessage (Message.mk Message.PUBLISH (CFiles []) true))],
          (a, registry), Raise EOFError)).
Proof.
  intros a registry own k. split.
  - intros f fs Hnodup Hrequest Hreply.
    rewrite publish_distinct_run by done.
    assert (NoDup (objects (Client.stamp a (f :: fs)))) as Hstamped
      by by rewrite stamp_objects.
    eexists _, _, _. split; [reflexivity|].
    split_and!.
    + by rewrite publish_length, stamp_length.
    + by rewrite publish_objects, stamp_objects.
    + apply publish_com_ids, stamp_com_ids.
    + rewrite publish_distinct_file_ids by done. by rewrite stamp_length.
    + rewrite publish_names. unfold Client.stamp, descriptors. rewrite !map_map.
      by apply map_ext.
    + intros d Hd. by apply published_filed.
    + by rewrite publish_file_id_counter, stamp_length.
  - intros Hfits. rewrite publish_run. cbv zeta.
    change (Client.stamp a []) with (@nil (nat * FileDescriptor.t)).
    by rewrite receive_fits by done.
Qed.

Lemma published_reach registry files (own other : Z) (d : FileDescriptor.t) :
  NoDup (objects files) →
  Forall (λ f, FileDescriptor.com_id f = own) (descriptors files) →
  own ≠ other →
  d ∈ descriptors (snd (CentralRegistry.publish registry files)) →
  let directory :=
    CentralRegistry.public_files (fst (CentralRegistry.publish registry files)) in
  filter (λ kv : Z * FileDescriptor.t, FileDescriptor.com_id (snd kv) ≠ other) directory
    !! FileDescriptor.file_id d = Some d
  ∧ filter (λ kv : Z * FileDescriptor.t, FileDescriptor.com_id (snd kv) ≠ own) directory
      !! FileDescriptor.file_id d = None.
Proof.
  intros Hnodup Hown Hne Hd directory.
  assert (FileDescriptor.com_id d = own) as Hid.
  { pose proof (publish_com_ids registry files own Hown) as Hall.
    rewrite Forall_forall in Hall. by apply Hall. }
  pose proof (published_filed registry files d Hnodup Hd) as Hdir.
  fold directory in Hdir. split.
  - apply map_lookup_filter_Some. split; [done|]. cbn [snd]. congruence.
  - apply map_lookup_filter_None. right. intros d' Hd'. cbn [snd].
    rewrite Hdir in Hd'. injection Hd' as <-. by intros [].
Qed.

(** X14. What one communicator publishes, another one sees and it does not
    see itself: after [publish] of a list of distinct objects with a first
    descriptor, the [fetch_remote] of a communicator that bears another
    identifier returns every published descriptor under its file
    identifier, and the [fetch_remote] of the publisher returns none of
    them, as long as the pickles of the list and of the registry's
    directories fit one receive each. *)
Theorem published_files_reach_the_others :
  ∀ a b registry f fs,
    Certificate.com_id (Communicator.certificate a)
    ≠ Certificate.com_id (Communicator.certificate b) →
    NoDup (objects (f :: fs)) →
    let stamped := Client.stamp a (f :: fs) in
    let registry_p := fst (CentralRegistry.publish registry stamped) in
    fits (PMessage (Message.mk Message.PUBLISH (CFiles stamped) true)) = true →
    fits (PMessage
            (Message.mk Message.PUBLISH
               (CFiles (snd (CentralRegistry.publish registry stamped))) false))
    = true →
    fits (PMessage (Message.mk Message.FETCH_SP
                      (CProviders (CentralRegistry.service_providers registry_p)) false))
    = true →
    fits (PMessage (Message.mk Message.FETCH_FILE
                      (CPublic (CentralRegistry.public_files registry_p)) false))
    = true →
    ∃ effects registry' published (stored_a stored_b : Content)
      (remote_a remote_b : gmap Z FileDescriptor.t),
      Client.publish registry_link (f :: fs) (a, registry)
      = (effects, (a, registry'), Ok (CFiles published))
      ∧ snd (RegistryClient.fetch_remote registry_link (a, registry'))
        = Ok (stored_a, CPublic remote_a)
      ∧ snd (RegistryClient.fetch_remote registry_link (b, registry'))
        = Ok (stored_b, CPublic remote_b)
      ∧ length published = length (f :: fs)
      ∧ ∀ d, d ∈ descriptors published →
          remote_b !! FileDescriptor.file_id d = Some d
          ∧ remote_a !! FileDescriptor.file_id d = None.
Proof.
  intros a b registry f fs Hab Hnodup stamped registry_p Hrequest Hreply Hproviders
    Hpublic.
  rewrite publish_distinct_run by done. fold stamped. fold registry_p.
  eexists _, _, _, _, _, _, _.
  split; [reflexivity|]. rewrite !fetch_remote_run. cbv zeta.
  rewrite Hproviders, Hpublic. cbn [snd].
  split; [reflexivity|]. split; [reflexivity|].
  split.
  - unfold stamped. by rewrite publish_length, stamp_length.
  - intros d Hd.
    apply (published_reach registry stamped
             (Certificate.com_id (Communicator.certificate a))
             (Certificate.com_id (Communicator.certificate b))); try done.
    + unfold stamped. by rewrite stamp_objects.
    + apply stamp_com_ids.
Qed.




End WithRegistry.

(** ** The listing of descriptors *)

Section Listing.
Import FileDescriptorFormat.

Lemma length_append (s1 s2 : string) :
  String.length (s1 ++ s2) = (String.length s1 + String.length s2)%nat.
Proof. induction s1 as [|c s1 IH]; [done|]. simpl. by rewrite IH. Qed.

Lemma length_spaces (n : nat) : String.length (spaces n) = n.
Proof. induction n as [|n IH]; [done|]. simpl. by rewrite IH. Qed.

Lemma length_rjust (width : nat) (s : string) :
  String.length (rjust width s) = (width `max` String.length s)%nat.
Proof. unfold rjust. rewrite length_append, length_spaces. lia. Qed.

Lemma length_ljust (width : nat) (s : string) :
  String.length (ljust width s) = (width `max` String.length s)%nat.
Proof. unfold ljust. rewrite length_append, length_spaces. lia. Qed.

Lemma length_substring_0 (n : nat) (s : string) :
  (n ≤ String.length s)%nat → String.length (substring 0 n s) = n.
Proof.
  revert s. induction n as [|n IH]; intros [|c s] Hn; cbn in *; try done; try lia.
  rewrite IH; [done|lia].
Qed.

Lemma all_from_spec (P : Z → bool) (n : nat) (z : Z) :
  all_from P n z = true → ∀ k, (z ≤ k < z + Z.of_nat n)%Z → P k = true.
Proof.
  revert z. induction n as [|n IH]; intros z Hall k Hk; [lia|].
  cbn [all_from] in Hall. apply andb_true_iff in Hall as [Hz Hrest].
  destruct (decide (k = z)) as [->|]; [done|]. apply (IH (z + 1)%Z); [done|lia].
Qed.

Lemma fmt_d_five_columns (z : Z) :
  (-9999 ≤ z ≤ 99999)%Z → (String.length (fmt_d z) ≤ 5)%nat.
Proof.
  intros Hz. apply Nat.leb_le.
  apply (all_from_spec (λ z, String.length (fmt_d z) <=? 5)%nat
           (Z.to_nat 109999) (-9999)%Z); [|lia].
  vm_compute. reflexivity.
Qed.

Lemma fmt_d_three_columns (z : Z) :
  (-99 ≤ z ≤ 999)%Z → (String.length (fmt_d z) ≤ 3)%nat.
Proof.
  intros Hz. apply Nat.leb_le.
  apply (all_from_spec (λ z, String.length (fmt_d z) <=? 3)%nat
           (Z.to_nat 1099) (-99)%Z); [|lia].
  vm_compute. reflexivity.
Qed.

Lemma length_str (f : FileDescriptor.t) :
  String.length (str f)
  = ((5 `max` String.length (fmt_d (FileDescriptor.file_id f))) + 1
     + (3 `max` String.length (fmt_d (FileDescriptor.com_id f))) + 1
     + (15 `max` String.length (FileDescriptor.name f)) + 1
     + (10 `max` String.length (FileDescriptor.author f)) + 1 + 43)%nat.
Proof.
  unfold str. rewrite !length_append, !length_rjust, !length_ljust.
  case_decide as Hlong.
  - rewrite length_append, length_substring_0 by lia. cbn [String.length]. lia.
  - cbn [String.length]. lia.
Qed.

(** X15. The rows of a listing line up with its header.  The header is 80
    characters wide and no row is narrower.  A row is exactly as wide when
    the file identifier prints in five characters, the communicator
    identifier in three, the name has at most 15 characters and the author
    at most 10; the identifiers -1 of a descriptor that was not published
    fit.  The description never widens a row, whatever its length. *)
Theorem listing_rows_line_up :
  String.length HEADER = 80%nat
  ∧ ∀ f,
      (80 ≤ String.length (str f))%nat
      ∧ ((-9999 ≤ FileDescriptor.file_id f ≤ 99999)%Z →
         (-99 ≤ FileDescriptor.com_id f ≤ 999)%Z →
         (String.length (FileDescriptor.name f) ≤ 15)%nat →
         (String.length (FileDescriptor.author f) ≤ 10)%nat →
         String.length (str f) = String.length HEADER)
      ∧ String.length (str f)
        = String.length
            (str (FileDescriptor.mk (FileDescriptor.name f) (FileDescriptor.author f)
                    "" (FileDescriptor.file_id f) (FileDescriptor.com_id f))).
Proof.
  split; [reflexivity|]. intros f. rewrite !length_str. split_and!.
  - lia.
  - intros Hid%fmt_d_five_columns Hcom%fmt_d_three_columns Hname Hauthor.
    change (String.length HEADER) with 80%nat. lia.
  - done.
Qed.
End Listing.

(** ** The indexes of a service provider *)

Section Indexes.
Context `{Crypto} `{Pickle}.
Import ServiceProvider.
Implicit Types (self : ServiceProvider.t) (f : FileDescriptor.t).

Lemma fold_index_files (l : list FileDescriptor.t) self :
  files (fold_left index l self) = files self.
Proof. revert self. induction l as [|f l IH]; intros self; [done|]. cbn. by rewrite IH. Qed.

Lemma fold_index_by_id (l : list FileDescriptor.t) self (i : Z) :
  files_by_id (fold_left index l self) !! i
  = match last (filter (λ f, FileDescriptor.file_id f = i) l) with
    | Some f => Some f
    | None => files_by_id self !! i
    end.
Proof.
  revert self. induction l as [|f l IH]; intros self; [done|].
  cbn [fold_left]. rewrite IH. cbn [index files_by_id].
  destruct (decide (FileDescriptor.file_id f = i)) as [Hi|Hi].
  - rewrite filter_cons_True by done. rewrite last_cons.
    destruct (last _); [done|]. by rewrite Hi, lookup_insert_eq.
  - rewrite filter_cons_False by done. destruct (last _); [done|].
    by rewrite lookup_insert_ne.
Qed.

Lemma fold_index_by_user (l : list FileDescriptor.t) self (u : string) :
  files_by_user (fold_left index l self) !! u
  = match filter (λ f, FileDescriptor.author f = u) l with
    | [] => files_by_user self !! u
    | f :: mine => Some (default [] (files_by_user self !! u) ++ f :: mine)%list
    end.
Proof.
  revert self. induction l as [|f l IH]; intros self; [done|].
  cbn [fold_left]. rewrite IH. cbn [index files_by_user].
  destruct (decide (FileDescriptor.author f = u)) as [Hu|Hu].
  - rewrite filter_cons_True by done. rewrite Hu, lookup_insert_eq.
    destruct (filter _ l); [done|]. simpl. by rewrite <- app_assoc.
  - rewrite filter_cons_False by done. by rewrite lookup_insert_ne.
Qed.

Lemma filter_unique_key (l : list FileDescriptor.t) f :
  NoDup (map FileDescriptor.file_id l) → f ∈ l →
  filter (λ g, FileDescriptor.file_id g = FileDescriptor.file_id f) l = [f].
Proof.
  induction l as [|g l IH]; intros Hl Hf; [by apply elem_of_nil in Hf|].
  cbn [map] in Hl. apply NoDup_cons in Hl as [Hg Hl].
  assert (∀ h, h ∈ l → FileDescriptor.file_id h ≠ FileDescriptor.file_id g) as Hfresh.
  { intros h Hh Heq. apply Hg. rewrite <- Heq. apply list_elem_of_fmap. by exists h. }
  apply elem_of_cons in Hf as [->|Hf].
  - rewrite filter_cons_True by done. f_equal.
    destruct (filter _ l) as [|h rest] eqn:Efilter; [done|].
    assert (h ∈ filter (λ g0, FileDescriptor.file_id g0 = FileDescriptor.file_id g) l)
      as Hh by (rewrite Efilter; apply elem_of_cons; by left).
    apply list_elem_of_filter in Hh as [Hid Hh]. by destruct (Hfresh h Hh).
  - rewrite filter_cons_False; [by apply IH|].
    intros Heq. by apply (Hfresh f Hf).
Qed.

Lemma build_indexes_lookup (l : list FileDescriptor.t) (i : Z) :
  files_by_id (build_indexes (unindexed l)) !! i
  = last (filter (λ f, FileDescriptor.file_id f = i) l).
Proof.
  unfold build_indexes, unindexed. cbn [files].
  rewrite fold_index_by_id. cbn [files_by_id]. rewrite lookup_empty.
  by destruct (last _).
Qed.

Lemma build_indexes_distinct (l : list FileDescriptor.t) f :
  NoDup (map FileDescriptor.file_id l) → f ∈ l →
  files_by_id (build_indexes (unindexed l)) !! FileDescriptor.file_id f = Some f.
Proof. intros Hl Hf. by rewrite build_indexes_lookup, filter_unique_key. Qed.

Lemma build_indexes_user_lookup (l : list FileDescriptor.t) (u : string) :
  files_by_user (build_indexes (unindexed l)) !! u
  = match filter (λ f, FileDescriptor.author f = u) l with
    | [] => None
    | f :: mine => Some (f :: mine)
    end.
Proof.
  unfold build_indexes, unindexed. cbn [files].
  rewrite fold_index_by_user. cbn [files_by_user]. rewrite lookup_empty.
  by destruct (filter _ l).
Qed.

Lemma author_filter (l : list FileDescriptor.t) (u : string) :
  u ∈ map FileDescriptor.author l ↔ filter (λ f, FileDescriptor.author f = u) l ≠ [].
Proof.
  split.
  - intros (f & Hauthor & Hf)%list_elem_of_fmap.
    assert (f ∈ filter (λ f, FileDescriptor.author f = u) l) as Hmine
      by (by apply list_elem_of_filter).
    intros Hnil. rewrite Hnil in Hmine. by apply elem_of_nil in Hmine.
  - intros Hmine.
    destruct (filter (λ f, FileDescriptor.author f = u) l) as [|f rest] eqn:Emine; [done|].
    assert (f ∈ filter (λ f, FileDescriptor.author f = u) l) as Hf
      by (rewrite Emine; apply elem_of_cons; by left).
    apply list_elem_of_filter in Hf as [Hauthor Hf].
    apply list_elem_of_fmap. by exists f.
Qed.

(** X16. [build_indexes] on the indexes that [__init__] left empty.  The
    index by identifier gives, for an identifier, the last descriptor of
    the list that bears it, and nothing when none does; when the
    identifiers of the list are distinct, every descriptor of the list is
    found under its own.  The list of files is left as it was. *)
Theorem build_indexes_by_id :
  ∀ (l : list FileDescriptor.t),
    let self := build_indexes (unindexed l) in
    files self = l
    ∧ (∀ i, files_by_id self !! i
            = last (filter (λ f, FileDescriptor.file_id f = i) l))
    ∧ (NoDup (map FileDescriptor.file_id l) →
       ∀ f, f ∈ l → files_by_id self !! FileDescriptor.file_id f = Some f).
Proof.
  intros l self. split_and!.
  - apply fold_index_files.
  - apply build_indexes_lookup.
  - intros Hl f Hf. by apply build_indexes_distinct.
Qed.

(** X17. [build_indexes] on the indexes that [__init__] left empty.  The
    index by user has an entry for exactly the authors of the list, and the
    entry of an author is the list of the descriptors of that author, in
    the order of the list: no entry is an empty list. *)
Theorem build_indexes_by_user :
  ∀ (l : list FileDescriptor.t) (u : string),
    let self := build_indexes (unindexed l) in
    let mine := filter (λ f, FileDescriptor.author f = u) l in
    (mine = [] → files_by_user self !! u = None)
    ∧ (mine ≠ [] → files_by_user self !! u = Some mine)
    ∧ (is_Some (files_by_user self !! u) ↔ u ∈ map FileDescriptor.author l).
Proof.
  intros l u self mine.
  pose proof (build_indexes_user_lookup l u) as Hu. fold self mine in Hu.
  split_and!.
  - intros Hmine. by rewrite Hu, Hmine.
  - intros Hmine. rewrite Hu. by destruct mine.
  - rewrite author_filter. fold mine. rewrite Hu.
    by destruct mine; split.
Qed.

(** X18. [ls my] once the indexes are built from the indexes that
    [__init__] left empty: for a user who authored descriptors of the list
    it prints the header and one row for each, in the order of the list;
    for any other user the lookup in the index by user raises [KeyError].
    It never prints "No files". *)
Theorem ls_my_after_build_indexes :
  ∀ (l : list FileDescriptor.t) (u : string),
    let self := build_indexes (unindexed l) in
    let mine := filter (λ f, FileDescriptor.author f = u) l in
    (u ∈ map FileDescriptor.author l →
     do_ls_my self u = (Printed FileDescriptorFormat.HEADER :: rows mine, Ok tt))
    ∧ (u ∉ map FileDescriptor.author l → do_ls_my self u = ([], Raise KeyError))
    ∧ Printed "No files" ∉ fst (do_ls_my self u).
Proof.
  intros l u self mine.
  pose proof (build_indexes_user_lookup l u) as Hu. fold self mine in Hu.
  pose proof (author_filter l u) as Hauthors. fold mine in Hauthors.
  unfold do_ls_my. rewrite Hu. split_and!.
  - intros Hmine%Hauthors. by destruct mine.
  - intros Hmine. destruct mine; [done|]. exfalso. by apply Hmine, Hauthors.
  - destruct mine as [|f rest]; cbn [fst]; [by apply not_elem_of_nil|].
    intros [Hhead|Hrow]%elem_of_cons; [done|].
    apply list_elem_of_fmap in Hrow as (g & Hg & _).
    injection Hg as Hg. pose proof (f_equal String.length Hg) as Hlen.
    pose proof (length_str g) as Hwide. rewrite <- Hlen in Hwide.
    cbn [String.length] in Hwide. lia.
Qed.

(** X19. The start of [run]: the list that [publish] returns from the
    registry, indexed by [build_indexes], for a list of distinct objects
    with a first descriptor whose pickles, as sent and as returned, fit one
    receive each.  The index by identifier then has exactly the identifiers
    that the registry gave on this publication, and under each of them it
    holds the descriptor that the registry's public directory holds. *)
Theorem published_files_are_indexed :
  ∀ a registry (f : nat * FileDescriptor.t) (fs : Files),
    NoDup (objects (f :: fs)) →
    fits (PMessage (Message.mk Message.PUBLISH (CFiles (Client.stamp a (f :: fs)))
                      true)) = true →
    fits (PMessage
            (Message.mk Message.PUBLISH
               (CFiles (snd (CentralRegistry.publish registry
                               (Client.stamp a (f :: fs)))))
               false)) = true →
    let k := CentralRegistry.file_id_counter registry in
    ∃ effects registry' published,
      Client.publish registry_link (f :: fs) (a, registry)
      = (effects, (a, registry'), Ok (CFiles published))
      ∧ let self := build_indexes (unindexed (descriptors published)) in
        (∀ i, is_Some (files_by_id self !! i)
              ↔ (k ≤ i < k + Z.of_nat (length (f :: fs)))%Z)
        ∧ (∀ i d, files_by_id self !! i = Some d →
             d ∈ descriptors published
             ∧ FileDescriptor.file_id d = i
             ∧ CentralRegistry.public_files registry' !! i = Some d).
Proof.
  intros a registry f fs Hdistinct Hrequest Hreply k.
  rewrite publish_distinct_run by done.
  eexists _, _, _. split; [reflexivity|].
  set (stamped := Client.stamp a (f :: fs)).
  assert (NoDup (objects stamped)) as Hstamped.
  { unfold stamped. by rewrite stamp_objects. }
  set (published := descriptors (snd (CentralRegistry.publish registry stamped))).
  assert (map FileDescriptor.file_id published
          = seqZ k (Z.of_nat (length (f :: fs)))) as Hids.
  { unfold published. rewrite publish_distinct_file_ids by done.
    unfold stamped. by rewrite stamp_length. }
  assert (∀ i d, files_by_id (build_indexes (unindexed published)) !! i = Some d →
                 d ∈ published ∧ FileDescriptor.file_id d = i) as Hfound.
  { intros i d. rewrite build_indexes_lookup.
    intros Hlast%last_Some_elem_of. by apply list_elem_of_filter in Hlast as [? ?]. }
  assert (NoDup (map FileDescriptor.file_id published)) as Hnodup.
  { rewrite Hids. apply NoDup_seqZ. }
  pose proof (λ d, build_indexes_distinct published d Hnodup) as Hall.
  split.
  - intros i. split.
    + intros [d Hd]. apply Hfound in Hd as [Hd <-].
      assert (FileDescriptor.file_id d ∈ map FileDescriptor.file_id published) as Hin.
      { apply list_elem_of_fmap. by exists d. }
      rewrite Hids in Hin. apply elem_of_seqZ in Hin. lia.
    + intros Hi.
      assert (i ∈ map FileDescriptor.file_id published) as Hin.
      { rewrite Hids. apply elem_of_seqZ. lia. }
      apply list_elem_of_fmap in Hin as (d & -> & Hd). rewrite (Hall d Hd). by eexists.
  - intros i d Hd. destruct (Hfound i d Hd) as [Hin Hi]. split_and!; [done..|].
    rewrite <- Hi. by apply published_filed.
Qed.
End Indexes.

(** ** The login at the console *)

Section Login.
Context {Console : Type}.
Variable input : Console → Console * option string.
Variable getpass : Console → Console * option string.
Import ServiceProvider.

Lemma login_spec (users : gmap string User.t) (attempts : nat) (console : Console) :
  let '(dialogue, _, result) := login input getpass users attempts console in
  (length (usernames_read dialogue) ≤ attempts)%nat
  ∧ (length (passwords_read dialogue) ≤ length (usernames_read dialogue))%nat
  ∧ (∀ user, result = Ok (Some user) →
       ∃ before username,
         dialogue
         = (before ++ [Asked username; Secret (User.password user);
                       Said "Login successful"])%list
         ∧ users !! username = Some user
         ∧ Said "Login successful" ∉ before)
  ∧ (result = Ok None →
     length (usernames_read dialogue) = attempts
     ∧ Said "Login successful" ∉ dialogue)
  ∧ (∀ e, result = Raise e → e = EOFError).
Proof.
  revert console. induction attempts as [|attempts IH]; intros console.
  { cbn. split_and!; try done. intros _. split; [done|]. apply not_elem_of_nil. }
  cbn [login]. destruct (input console) as [console1 [username|]].
  2:{ cbn. split_and!; try done; [lia|]. by intros e [= <-]. }
  destruct (users !! username) as [user|] eqn:Huser.
  - destruct (getpass console1) as [console2 [password|]].
    2:{ cbn. split_and!; try done; [lia..|]. by intros e [= <-]. }
    case_decide as Hpassword.
    + cbn. split_and!; try done; [lia|].
      intros user' [= <-]. exists [], username. rewrite Hpassword.
      split_and!; [done..|]. apply not_elem_of_nil.
    + specialize (IH console2).
      destruct (login input getpass users attempts console2)
        as [[dialogue console'] result].
      destruct IH as (Hasked & Hsecret & Hlogged & Hfailed & Hraised).
      cbn. split_and!; [lia..| | |done].
      * intros user' Hresult.
        destruct (Hlogged user' Hresult) as (before & username' & -> & Hu & Hnot).
        exists (Asked username :: Secret password :: Said "Wrong password" :: before),
          username'.
        split_and!; [done..|]. rewrite !not_elem_of_cons. by split_and!.
      * intros Hresult. destruct (Hfailed Hresult) as [<- Hnot].
        split; [done|]. rewrite !not_elem_of_cons. by split_and!.
  - specialize (IH console1).
    destruct (login input getpass users attempts console1)
      as [[dialogue console'] result].
    destruct IH as (Hasked & Hsecret & Hlogged & Hfailed & Hraised).
    cbn. split_and!; [lia..| | |done].
    + intros user' Hresult.
      destruct (Hlogged user' Hresult) as (before & username' & -> & Hu & Hnot).
      exists (Asked username :: Said "The entered username does not exist" :: before),
        username'.
      split_and!; [done..|]. rewrite !not_elem_of_cons. by split_and!.
    + intros Hresult. destruct (Hfailed Hresult) as [<- Hnot].
      split; [done|]. rewrite !not_elem_of_cons. by split_and!.
Qed.

(** X22. [do_login] on any console.  It reads at most three user names,
    and at most one password for each.  When it returns [True], the last
    user name read is that of a user of the service provider, the last
    password read is the password of that user, this user is made the
    active user and "Login successful" is the last line printed and was not
    printed before.  When it returns [False], three user names were read
    and "Login successful" was not printed.  The only exception that it
    raises is the [EOFError] of a console that has no line left. *)
Theorem do_login_authenticates :
  ∀ (users : gmap string User.t) (console : Console),
    let '(dialogue, _, result) := do_login input getpass users console in
    (length (usernames_read dialogue) ≤ 3)%nat
    ∧ (length (passwords_read dialogue) ≤ length (usernames_read dialogue))%nat
    ∧ (∀ user, result = Ok (Some user) →
         ∃ before username,
           dialogue
           = (before ++ [Asked username; Secret (User.password user);
                         Said "Login successful"])%list
           ∧ users !! username = Some user
           ∧ Said "Login successful" ∉ before)
    ∧ (result = Ok None →
       length (usernames_read dialogue) = 3%nat
       ∧ Said "Login successful" ∉ dialogue)
    ∧ (∀ e, result = Raise e → e = EOFError).
Proof. intros users console. apply login_spec. Qed.

End Login.
(** ** The properties at the small instance *)

Import Example.

(** The certificates that alice and bob hold are those that the registry
    issues to them, and its key is the one they trust. *)
Lemma example_bootstrap :
  snd (RequestHandler.serve registry (sign_requests [alice_certificate; bob_certificate]))
  = [Ok (Message.mk Message.SIGN (CCert (Communicator.certificate alice)) false);
     Ok (Message.mk Message.SIGN (CCert (Communicator.certificate bob)) false)]
  ∧ Communicator.cr_key alice
    = get_rsa_key (Certificate.public_key (CentralRegistry.certificate registry)).
Proof. split; vm_compute; reflexivity. Qed.

(** alice publishes three files and bob two: the registry numbers them 1
    to 5. *)
Lemma example_publications :
  let files name := FileDescriptor.init name "carol" "no description" in
  let sent :=
    [PMessage (sign_request alice_certificate); PMessage (sign_request bob_certificate);
     PMessage (publish_request
                 (Client.stamp alice (distinct [files "a"; files "b"; files "c"])));
     PMessage (publish_request (Client.stamp bob (distinct [files "d"; files "e"])))] in
  issued_file_ids sent (snd (RequestHandler.serve registry sent)) = [1; 2; 3; 4; 5].
Proof. vm_compute. reflexivity. Qed.

Lemma file_request_hash_layout_witness :
  FileRequest.type (FileRequest.init notes_buffer 1 "carol") = Message.FETCH_FILE
  ∧ FileRequest.hash (FileRequest.init notes_buffer 1 "carol")
    = Ok (sha256 (list_byte_of_string "carol" ++ list_byte_of_string "FETCH_FILE" ++ []
                  ++ list_byte_of_string "2 1 2 5")%list).
Proof.
  split; [reflexivity|].
  exact (file_request_hash_layout (FileRequest.init notes_buffer 1 "carol") eq_refl).
Defined.

(** bob, who holds the key of alice, serves the request that alice signed. *)
Lemma fetch_file_request_served_witness :
  let m := signed_request alice notes_buffer "carol" in
  FileRequest.type m = Message.FETCH_FILE
  ∧ Communicator.com_keys bob_trusting !! FileRequest.src_com_id m = Some 3
  ∧ fits (PFileRequest m) = true
  ∧ FileRequest.verify m 3 = Ok true
  ∧ CommunicatorHandler.receive bob_trusting (PFileRequest m)
    = ([Loaded notes_buffer], bob_trusting,
       Ok (PFileRequest
             (FileRequest.mk Message.FETCH_FILE (load notes_buffer) false "carol" 1
                (Some 4043)))).
Proof.
  intros m.
  split_and!; [reflexivity|vm_compute; reflexivity|vm_compute; reflexivity
               |vm_compute; reflexivity|].
  destruct (fetch_file_request_served bob_trusting m 3 eq_refl
              ltac:(vm_compute; reflexivity)) as [_ W].
  destruct (W ltac:(vm_compute; reflexivity)) as (W1 & _).
  exact (W1 ltac:(vm_compute; reflexivity) ltac:(vm_compute; reflexivity)).
Defined.

(** C7, as stated, fails: bob verifies the request of alice and loads a
    line that is not ASCII text; his [sign] raises and he sends no reply. *)
Lemma loaded_text_not_answered :
  let m := signed_request alice notes_buffer "carol" in
  Communicator.com_keys bob_accents !! FileRequest.src_com_id m = Some 3
  ∧ FileRequest.verify m 3 = Ok true
  ∧ CommunicatorHandler.handle bob_accents (PFileRequest m)
    = ([Loaded notes_buffer], bob_accents, Raise UnicodeEncodeError)
  ∧ ¬ verified_request_answered bob_accents m 3.
Proof.
  intros m.
  assert (CommunicatorHandler.handle bob_accents (PFileRequest m)
          = ([Loaded notes_buffer], bob_accents, Raise UnicodeEncodeError)) as E
    by (vm_compute; reflexivity).
  split_and!; [vm_compute; reflexivity..|exact E|].
  unfold verified_request_answered. rewrite E. intros Hclaim.
  destruct (Hclaim ltac:(vm_compute; reflexivity) ltac:(vm_compute; reflexivity))
    as (reply & Hreply & _).
  discriminate Hreply.
Qed.

(** bob, whose caches are empty, does not answer it. *)
Lemma fetch_file_request_of_unknown_source_witness :
  let m := signed_request alice notes_buffer "carol" in
  FileRequest.type m = Message.FETCH_FILE
  ∧ CommunicatorHandler.handle bob (PFileRequest m) = ([], bob, Raise KeyError).
Proof.
  intros m. split; [reflexivity|].
  exact (proj1 (fetch_file_request_of_unknown_source bob m eq_refl)
           ltac:(vm_compute; reflexivity)).
Defined.

(** alice fetches a file of bob, whom she has not met. *)
Lemma fetch_file_exchange_attempts_witness :
  Communicator.communicators alice !! 2 = Some (SPDescriptor.mk 2 "bob" bob_address)
  ∧ filter is_certificate_request
      (fst (fst (Client.fetch_file peer notes_buffer "carol" (alice, bob))))
    = [Sent bob_address (exchange_request_of alice)].
Proof.
  split; [vm_compute; reflexivity|].
  pose proof (fetch_file_exchange_attempts peer (alice, bob) notes_buffer "carol"
                (SPDescriptor.mk 2 "bob" bob_address) ltac:(vm_compute; reflexivity)) as W.
  cbv zeta in W.
  destruct (Client.fetch_file peer notes_buffer "carol" (alice, bob))
    as [[effects s'] result].
  destruct W as [_ W]. destruct (W ltac:(vm_compute; reflexivity)) as [W1 _]. exact W1.
Defined.


(** C4, as stated, fails: alice has not fetched the directory, the lookup
    of the owner raises and no certificate request is sent. *)
Lemma unlisted_owner_no_exchange :
  Client.fetch_file peer notes_buffer "carol" (alice_fresh, bob)
  = ([Printed "Fetching remote file notes.txt..."], (alice_fresh, bob), Raise KeyError)
  ∧ ¬ untrusted_owner_one_exchange peer (alice_fresh, bob) notes_buffer "carol".
Proof.
  assert (Client.fetch_file peer notes_buffer "carol" (alice_fresh, bob)
          = ([Printed "Fetching remote file notes.txt..."], (alice_fresh, bob),
             Raise KeyError)) as E by reflexivity.
  split; [exact E|]. unfold untrusted_owner_one_exchange. rewrite E.
  intros Hclaim. specialize (Hclaim eq_refl). vm_compute in Hclaim. discriminate.
Qed.

(** C8, as stated, fails: the peer answers with is_request=true and a
    filled buffer, and the call returns that buffer. *)
Lemma refusal_still_delivers :
  delivered_lines
    (snd (Client.fetch_file refusing notes_buffer "carol" (alice_trusting, tt)))
  = ["first line"; "second line"]
  ∧ ¬ refusal_delivers_nothing refusing (alice_trusting, tt) notes_buffer "carol".
Proof.
  split; [vm_compute; reflexivity|].
  unfold refusal_delivers_nothing.
  destruct (Client.fetch_file refusing notes_buffer "carol" (alice_trusting, tt))
    as [[effects s'] result] eqn:E.
  intros Hclaim.
  assert (effects = fst (fst (Client.fetch_file refusing notes_buffer "carol"
                                (alice_trusting, tt)))) as He by (by rewrite E).
  assert (result = snd (Client.fetch_file refusing notes_buffer "carol"
                          (alice_trusting, tt))) as -> by (by rewrite E).
  specialize (Hclaim
    (PFileRequest
       (FileRequest.set_content (load notes_buffer)
          (signed_request alice_trusting notes_buffer "carol")))).
  rewrite He in Hclaim.
  specialize (Hclaim ltac:(vm_compute; reflexivity) eq_refl).
  vm_compute in Hclaim. discriminate.
Qed.




(** alice accepts the certificate of bob and rejects that of mallory. *)
Lemma register_certificate_caches_witness :
  Communicator.register_certificate alice (Some (Communicator.certificate mallory))
  = (alice, Ok false)
  ∧ snd (Communicator.register_certificate alice (Some (Communicator.certificate bob)))
    = Ok true.
Proof.
  split.
  - pose proof (register_certificate_caches alice
                  (Some (Communicator.certificate mallory))) as W.
    destruct (Communicator.register_certificate alice _) as [self' result].
    destruct W as (_ & _ & Hfalse & _ & Hsame).
    assert (result = Ok false) as ->.
    { apply Hfalse. right. eexists. split; [reflexivity|]. vm_compute. reflexivity. }
    by rewrite Hsame.
  - pose proof (register_certificate_caches alice
                  (Some (Communicator.certificate bob))) as W.
    destruct (Communicator.register_certificate alice _) as [self' result].
    destruct W as (Hiff & _). apply Hiff. eexists. split; [reflexivity|].
    vm_compute. reflexivity.
Defined.

(** C2, as stated, fails: on a certificate whose name is not ASCII text the
    call returns neither true nor false. *)
Lemma non_ascii_certificate_raises :
  Communicator.register_certificate alice (Some jose_certificate)
  = (alice, Raise UnicodeEncodeError)
  ∧ ¬ register_certificate_decides alice (Some jose_certificate).
Proof.
  assert (Communicator.register_certificate alice (Some jose_certificate)
          = (alice, Raise UnicodeEncodeError)) as E by (vm_compute; reflexivity).
  split; [exact E|]. unfold register_certificate_decides. rewrite E.
  intros [Htrue|[Hfalse _]]; discriminate.
Qed.


(** alice, who trusts bob, fetches a file of bob, who trusts alice. *)
Lemma fetch_file_reply_delivery_witness :
  delivered_lines
    (snd (Client.fetch_file peer notes_buffer "carol" (alice_trusting, bob_trusting)))
  = ["first line"; "second line"].
Proof.
  destruct fetch_file_reply_delivery as (W & _).
  specialize (W _ peer (alice_trusting, bob_trusting) notes_buffer "carol"
    (PFileRequest
       (FileRequest.mk Message.FETCH_FILE (load notes_buffer) false "carol" 1 (Some 4043)))).
  cbv zeta in W.
  destruct (Client.fetch_file peer notes_buffer "carol" (alice_trusting, bob_trusting))
    as [[effects s'] result] eqn:E.
  assert (effects = fst (fst (Client.fetch_file peer notes_buffer "carol"
                                (alice_trusting, bob_trusting)))) as He by (by rewrite E).
  assert (s' = snd (fst (Client.fetch_file peer notes_buffer "carol"
                           (alice_trusting, bob_trusting)))) as Hs by (by rewrite E).
  destruct (W ltac:(rewrite He; vm_compute; reflexivity)) as [_ W2].
  destruct (W2 eq_refl _ 4 eq_refl ltac:(rewrite Hs; vm_compute; reflexivity))
    as (W3 & _).
  destruct (W3 ltac:(vm_compute; reflexivity)) as [-> _].
  reflexivity.
Defined.


(** ** The further properties at the small instance *)

Import Scenario.




Lemma aligned_empty (self : Communicator.t) :
  Communicator.com_certificates self = ∅ → Communicator.com_keys self = ∅ →
  aligned self.
Proof. intros Hc Hk k. unfold aligned. by rewrite Hc, Hk, !lookup_empty. Qed.

(** alice accepts the certificate of bob under another address and the
    identifier 9. *)
Lemma relabelled_certificate_accepted_witness :
  let c := Communicator.certificate bob in
  let c' :=
    Certificate.mk (Certificate.name c) alice_address (Certificate.public_key c)
      (Certificate.signature c) 9 in
  Certificate.verify c (Communicator.cr_key alice) = Ok true
  ∧ snd (Communicator.register_certificate alice (Some c')) = Ok true
  ∧ Communicator.com_keys (fst (Communicator.register_certificate alice (Some c'))) !! 9
    = Some 4.
Proof.
  intros c c'. split; [vm_compute; reflexivity|].
  pose proof (relabelled_certificate_accepted alice c alice_address 9
                ltac:(vm_compute; reflexivity)) as W.
  cbv zeta in W. fold c' in W.
  destruct (Communicator.register_certificate alice (Some c')) as [self' accepted].
  destruct W as (W1 & _ & W3 & _). cbn [fst snd]. split; [exact W1|].
  refine (eq_trans W3 _). vm_compute. reflexivity.
Defined.


(** bob serves the certificate request of alice, then a file request that
    she signed. *)
Lemma served_communicator_certified_witness :
  let messages :=
    [exchange_request_of alice;
     PFileRequest (signed_request alice notes_buffer "carol")] in
  certified bob ∧ aligned bob
  ∧ certified (fst (CommunicatorServer.serve bob messages))
  ∧ Communicator.com_keys (fst (CommunicatorServer.serve bob messages)) !! 1 = Some 3.
Proof.
  intros messages.
  assert (certified bob) as Hc by (by apply certified_empty).
  assert (aligned bob) as Ha by (by apply aligned_empty).
  split_and!; [exact Hc|exact Ha| |vm_compute; reflexivity].
  exact (proj1 (served_communicator_certified bob messages Hc Ha)).
Defined.

(** alice fetches a file of bob, whom she has not met. *)
Lemma client_keeps_certified_witness :
  certified alice ∧ aligned alice
  ∧ certified
      (fst (snd (fst (Client.fetch_file peer notes_buffer "carol" (alice, bob)))))
  ∧ Communicator.com_keys
      (fst (snd (fst (Client.fetch_file peer notes_buffer "carol" (alice, bob))))) !! 2
    = Some 4.
Proof.
  assert (certified alice) as Hc by (by apply certified_empty).
  assert (aligned alice) as Ha by (by apply aligned_empty).
  split_and!; [exact Hc|exact Ha| |vm_compute; reflexivity].
  destruct (client_keeps_certified peer (alice, bob) notes_buffer "carol" bob_address
              Hc Ha) as [_ W].
  exact (proj1 W).
Defined.


(** What the hypotheses on the texts and on the pickles keep out: bob loads
    a line that is not ASCII text and sends no reply; bob loads forty
    lines and alice cannot unpickle what she receives of them. *)
Lemma first_fetch_that_raises :
  snd (Client.fetch_file peer notes_buffer "carol" (alice_trusting, bob_accents))
  = Raise EOFError
  ∧ fits (PFileRequest
            (served_reply bob_long (signed_request alice_trusting notes_buffer "carol")))
    = false
  ∧ snd (Client.fetch_file peer notes_buffer "carol" (alice_trusting, bob_long))
    = Raise UnpicklingError.
Proof. split_and!; vm_compute; reflexivity. Qed.



(** jose is not: the registry counts him and answers nothing. *)
Lemma bootstrap_that_raises :
  snd (RegistryClient.init registry_link jose alice_address cr_address load 5 registry)
  = Raise EOFError
  ∧ snd (fst (RegistryClient.init registry_link jose alice_address cr_address load 5
                registry))
    = CentralRegistry.set_com_id_counter 2 registry.
Proof. split; vm_compute; reflexivity. Qed.


(** alice fetches the directories of a registry that knows her and bob and
    holds a file of bob. *)
Lemma fetch_remote_returns_the_files_of_others_witness :
  let server :=
    fst (RequestHandler.serve registry
           [PMessage (sign_request alice_certificate);
            PMessage (sign_request bob_certificate);
            PMessage (publish_request (Client.stamp bob [(0%nat, report)]))]) in
  fits (PMessage (Message.mk Message.FETCH_SP
                    (CProviders (CentralRegistry.service_providers server)) false))
  = true
  ∧ fits (PMessage (Message.mk Message.FETCH_FILE
                      (CPublic (CentralRegistry.public_files server)) false))
    = true
  ∧ ∃ remote : gmap Z FileDescriptor.t,
      snd (RegistryClient.fetch_remote registry_link (alice_fresh, server))
      = Ok (CProviders directory, CPublic remote)
      ∧ FileDescriptor.name <$> remote !! 1 = Some "report.txt".
Proof.
  intros server.
  assert (fits (PMessage (Message.mk Message.FETCH_SP
                            (CProviders (CentralRegistry.service_providers server))
                            false)) = true) as Hproviders by (vm_compute; reflexivity).
  assert (fits (PMessage (Message.mk Message.FETCH_FILE
                            (CPublic (CentralRegistry.public_files server)) false))
          = true) as Hpublic by (vm_compute; reflexivity).
  split; [exact Hproviders|]. split; [exact Hpublic|].
  destruct (fetch_remote_returns_the_files_of_others alice_fresh server Hproviders
              Hpublic) as (effects & remote & W1 & W2 & _).
  exists remote. rewrite W1. cbn [snd]. split.
  - do 3 f_equal.
  - assert (remote !! 1
            = Some (FileDescriptor.mk "report.txt" "carol" "a report" 1 2)) as ->;
      [|reflexivity].
    apply W2. split; vm_compute; [reflexivity|discriminate].
Defined.

(** alice publishes two files at a registry that has numbered two. *)
Lemma publish_at_the_registry_witness :
  let server :=
    fst (RequestHandler.serve registry
           [PMessage (publish_request [(0%nat, notes); (1%nat, memo)])]) in
  NoDup (objects [(0%nat, report); (1%nat, draft)])
  ∧ ∃ published,
      snd (Client.publish registry_link [(0%nat, report); (1%nat, draft)] (alice, server))
      = Ok (CFiles published)
      ∧ map FileDescriptor.file_id (descriptors published) = [3; 4]
      ∧ Forall (λ d, FileDescriptor.com_id d = 1) (descriptors published).
Proof.
  intros server.
  assert (NoDup (objects [(0%nat, report); (1%nat, draft)])) as Hdistinct.
  { refine (bool_decide_unpack _ _). vm_compute. exact I. }
  split; [exact Hdistinct|].
  destruct (publish_at_the_registry alice server) as [W _].
  destruct (W (0%nat, report) [(1%nat, draft)] Hdistinct
              ltac:(vm_compute; reflexivity) ltac:(vm_compute; reflexivity))
    as (effects & registry' & published & W0 & _ & _ & W3 & W4 & _).
  exists published. rewrite W0. split_and!; [reflexivity|exact W4|exact W3].
Defined.

(** alice publishes a file: bob sees it among the remote files, alice does
    not. *)
Lemma published_files_reach_the_others_witness :
  Certificate.com_id (Communicator.certificate alice)
  ≠ Certificate.com_id (Communicator.certificate bob)
  ∧ NoDup (objects [(0%nat, report)])
  ∧ ∃ registry' published (stored_a stored_b : Content)
      (remote_a remote_b : gmap Z FileDescriptor.t),
      snd (Client.publish registry_link [(0%nat, report)] (alice, registry))
      = Ok (CFiles published)
      ∧ snd (RegistryClient.fetch_remote registry_link (alice, registry'))
        = Ok (stored_a, CPublic remote_a)
      ∧ snd (RegistryClient.fetch_remote registry_link (bob, registry'))
        = Ok (stored_b, CPublic remote_b)
      ∧ length published = 1%nat
      ∧ ∀ d, d ∈ descriptors published →
          remote_b !! FileDescriptor.file_id d = Some d
          ∧ remote_a !! FileDescriptor.file_id d = None.
Proof.
  assert (Certificate.com_id (Communicator.certificate alice)
          ≠ Certificate.com_id (Communicator.certificate bob)) as Hab by (by vm_compute).
  assert (NoDup (objects [(0%nat, report)])) as Hdistinct.
  { refine (bool_decide_unpack _ _). vm_compute. exact I. }
  split; [exact Hab|]. split; [exact Hdistinct|].
  pose proof (published_files_reach_the_others alice bob registry (0%nat, report) []
                Hab Hdistinct) as W.
  cbv zeta in W.
  destruct (W ltac:(vm_compute; reflexivity) ltac:(vm_compute; reflexivity)
              ltac:(vm_compute; reflexivity) ltac:(vm_compute; reflexivity))
    as (effects & registry' & published & stored_a & stored_b & remote_a & remote_b
        & W0 & W1).
  exists registry', published, stored_a, stored_b, remote_a, remote_b.
  rewrite W0. split; [reflexivity|exact W1].
Defined.


(** The list that alice publishes, indexed: the index by identifier holds
    [report] under the identifier 1. *)
Lemma published_files_are_indexed_witness :
  NoDup (objects [(0%nat, report)])
  ∧ ∃ published,
      snd (Client.publish registry_link [(0%nat, report)] (alice, registry))
      = Ok (CFiles published)
      ∧ is_Some (ServiceProvider.files_by_id
                   (ServiceProvider.build_indexes
                      (ServiceProvider.unindexed (descriptors published))) !! 1).
Proof.
  assert (NoDup (objects [(0%nat, report)])) as Hdistinct.
  { refine (bool_decide_unpack _ _). vm_compute. exact I. }
  split; [exact Hdistinct|].
  pose proof (published_files_are_indexed alice registry (0%nat, report) [] Hdistinct)
    as W.
  destruct (W ltac:(vm_compute; reflexivity) ltac:(vm_compute; reflexivity))
    as (effects & registry' & published & W0 & W1 & _).
  exists published. rewrite W0. split; [reflexivity|].
  apply W1. cbn. lia.
Defined.

(** bob, who holds the key of alice, refuses the forged request and loads
    nothing. *)
Lemma communicator_handler_discipline_witness :
  (∃ out, snd (CommunicatorHandler.handle bob_trusting (PFileRequest forged)) = Ok out
          ∧ pickled_request out = true)
  ∧ fst (CommunicatorHandler.handle bob_trusting (PFileRequest forged))
    = ([], bob_trusting).
Proof.
  split; [eexists; split; vm_compute; reflexivity|].
  pose proof (communicator_handler_discipline bob_trusting (PFileRequest forged)) as W.
  destruct (CommunicatorHandler.handle bob_trusting (PFileRequest forged))
    as [[effects server'] [out|e]] eqn:E.
  - destruct W as (W & _).
    destruct (W out eq_refl) as (-> & -> & _); [|reflexivity].
    vm_compute in E. by injection E as _ _ <-.
  - vm_compute in E. discriminate E.
Defined.

(** The row of [notes] is as wide as the header. *)
Lemma listing_rows_line_up_witness :
  (-9999 ≤ FileDescriptor.file_id notes ≤ 99999)%Z
  ∧ (-99 ≤ FileDescriptor.com_id notes ≤ 999)%Z
  ∧ (String.length (FileDescriptor.name notes) ≤ 15)%nat
  ∧ (String.length (FileDescriptor.author notes) ≤ 10)%nat
  ∧ String.length (FileDescriptorFormat.str notes)
    = String.length FileDescriptorFormat.HEADER.
Proof.
  assert ((-9999 ≤ FileDescriptor.file_id notes ≤ 99999)%Z) as H1 by (cbn; lia).
  assert ((-99 ≤ FileDescriptor.com_id notes ≤ 999)%Z) as H2 by (cbn; lia).
  assert ((String.length (FileDescriptor.name notes) ≤ 15)%nat) as H3 by (cbn; lia).
  assert ((String.length (FileDescriptor.author notes) ≤ 10)%nat) as H4 by (cbn; lia).
  refine (conj H1 (conj H2 (conj H3 (conj H4 _)))).
  destruct listing_rows_line_up as [_ W]. destruct (W notes) as (_ & W2 & _).
  exact (W2 H1 H2 H3 H4).
Defined.

(** Two files with the identifiers 5 and 6. *)
Lemma build_indexes_by_id_witness :
  NoDup (map FileDescriptor.file_id [notes; memo])
  ∧ ServiceProvider.files_by_id
      (ServiceProvider.build_indexes (ServiceProvider.unindexed [notes; memo])) !! 6
    = Some memo.
Proof.
  assert (NoDup (map FileDescriptor.file_id [notes; memo])) as Hids.
  { refine (bool_decide_unpack _ _). vm_compute. exact I. }
  split; [exact Hids|].
  destruct (build_indexes_by_id [notes; memo]) as (_ & _ & W).
  apply (W Hids memo). apply elem_of_cons. right. apply elem_of_cons. by left.
Defined.

(** bob is the author of one of the two files, dave of none. *)
Lemma build_indexes_by_user_witness :
  filter (λ f, FileDescriptor.author f = "bob") [notes; memo] ≠ []
  ∧ filter (λ f, FileDescriptor.author f = "dave") [notes; memo] = []
  ∧ ServiceProvider.files_by_user
      (ServiceProvider.build_indexes (ServiceProvider.unindexed [notes; memo])) !! "bob"
    = Some [notes]
  ∧ ServiceProvider.files_by_user
      (ServiceProvider.build_indexes (ServiceProvider.unindexed [notes; memo])) !! "dave"
    = None.
Proof.
  assert (filter (λ f, FileDescriptor.author f = "bob") [notes; memo] ≠ []) as Hbob
    by (by vm_compute).
  assert (filter (λ f, FileDescriptor.author f = "dave") [notes; memo] = []) as Hdave
    by (vm_compute; reflexivity).
  split_and!; [exact Hbob|exact Hdave| |].
  - destruct (build_indexes_by_user [notes; memo] "bob") as (_ & W & _).
    rewrite (W Hbob). vm_compute. reflexivity.
  - destruct (build_indexes_by_user [notes; memo] "dave") as (W & _).
    exact (W Hdave).
Defined.

(** [ls my] for bob, and for dave who has no file. *)
Lemma ls_my_after_build_indexes_witness :
  "bob" ∈ map FileDescriptor.author [notes; memo]
  ∧ ("dave" ∉ map FileDescriptor.author [notes; memo])
  ∧ ServiceProvider.do_ls_my
      (ServiceProvider.build_indexes (ServiceProvider.unindexed [notes; memo])) "bob"
    = ([Printed FileDescriptorFormat.HEADER; Printed (FileDescriptorFormat.str notes)],
       Ok tt)
  ∧ ServiceProvider.do_ls_my
      (ServiceProvider.build_indexes (ServiceProvider.unindexed [notes; memo])) "dave"
    = ([], Raise KeyError).
Proof.
  assert ("bob" ∈ map FileDescriptor.author [notes; memo]) as Hbob.
  { refine (bool_decide_unpack _ _). vm_compute. exact I. }
  assert ("dave" ∉ map FileDescriptor.author [notes; memo]) as Hdave.
  { refine (bool_decide_unpack _ _). vm_compute. exact I. }
  split_and!; [exact Hbob|exact Hdave| |].
  - destruct (ls_my_after_build_indexes [notes; memo] "bob") as (W & _).
    rewrite (W Hbob). vm_compute. reflexivity.
  - destruct (ls_my_after_build_indexes [notes; memo] "dave") as (_ & W & _).
    exact (W Hdave).
Defined.

(** dave is unknown, carol mistypes her password, then logs in. *)
Lemma do_login_authenticates_witness :
  let console := (["dave"; "carol"; "carol"], ["guess"; "s3cret"]) in
  snd (ServiceProvider.do_login next_input next_password accounts console)
  = Ok (Some carol)
  ∧ ∃ before username,
      fst (fst (ServiceProvider.do_login next_input next_password accounts console))
      = (before ++ [Asked username; Secret "s3cret"; Said "Login successful"])%list
      ∧ accounts !! username = Some carol.
Proof.
  intros console.
  assert (snd (ServiceProvider.do_login next_input next_password accounts console)
          = Ok (Some carol)) as Hresult by (vm_compute; reflexivity).
  split; [exact Hresult|].
  pose proof (do_login_authenticates next_input next_password accounts console) as W.
  destruct (ServiceProvider.do_login next_input next_password accounts console)
    as [[dialogue console'] result].
  destruct W as (_ & _ & W & _).
  destruct (W carol Hresult) as (before & username & Hdialogue & Huser & _).
  exists before, username. exact (conj Hdialogue Huser).
Defined.

